(** * MOSAIK 1.0: the mosaic canvas (src/mosaic-canvas.js)

    A shallow embedding of the polygon viewer: the grid, the world-to-screen
    transform, the layout passes [drawGrid] and [updatePolygonPositions],
    the three CSV loaders and the mouse-wheel zoom.

    The source file holds three scripts.  The first and the third are the
    schema-driven loaders (header line, [JSON.parse] on the coordinates
    column); the first clears the polygons before loading, the third appends.
    The second script is the viewer itself: [initializePaper] with the
    [window.paperFunctions] object, and a loader for the fixed four-column
    layout.

    JavaScript numbers are IEEE-754 binary64 values.  The program is written
    once, over an interface of number operations ([Number]), and read at two
    instances: [binary64], the kernel's primitive floats, which is what the
    script runs on, and [exact], the rationals extended with NaN and the two
    infinities, which is the arithmetic the specification speaks of.

    The column and row counts are integers ([Z]): they start at 10 and 7 and
    move by one, far below 2^53 where the doubles stop being exact.  A call
    that an uncaught TypeError leaves is a [Thrown] completion, with the state
    as the call left it.  Logging, the paper.js scene and its drawing order
    are not modelled. *)

From Stdlib Require Import ZArith QArith Qround Qminmax Lia Lqa List Bool String Ascii Floats.
Import ListNotations.

Set Implicit Arguments.

(** ** JavaScript numbers *)

Class Number (num : Type) : Type := {
  of_Q : Q -> num;              (* a decimal literal or parsed decimal text *)
  NaN : num;
  Infinity : num;
  neg : num -> num;             (* unary minus *)
  add : num -> num -> num;
  sub : num -> num -> num;
  mul : num -> num -> num;
  div : num -> num -> num;
  floor : num -> num;           (* Math.floor *)
  ltb : num -> num -> bool;     (* <   *)
  leb : num -> num -> bool;     (* <=  *)
  eqb : num -> num -> bool;     (* === on two numbers *)
  isNaN : num -> bool;
  min : num -> num -> num;      (* Math.min *)
  max : num -> num -> num       (* Math.max *)
}.

Declare Scope js_scope.
Delimit Scope js_scope with js.
Infix "+" := add : js_scope.
Infix "-" := sub : js_scope.
Infix "*" := mul : js_scope.
Infix "/" := div : js_scope.
Infix "<?" := ltb : js_scope.
Infix "<=?" := leb : js_scope.
Infix "=?" := eqb : js_scope.

Definition of_Z {num} `{Number num} (z : Z) : num := of_Q (inject_Z z).

(** [x || d] on a number: [x] unless it is falsy, that is 0 or NaN. *)
Definition or_default {num} `{Number num} (x d : num) : num :=
  if (isNaN x || (x =? of_Z 0)%js)%bool then d else x.

(** *** Exact arithmetic: rationals with NaN and the infinities *)

Inductive exact : Type :=
| ENaN
| EInf (negative : bool)
| EFin (q : Q).

Module Exact.

Definition is_zero (q : Q) : bool := (Qnum q =? 0)%Z.
Definition is_neg (q : Q) : bool := (Qnum q <? 0)%Z.

Definition neg (a : exact) : exact :=
  match a with
  | ENaN => ENaN
  | EInf s => EInf (negb s)
  | EFin q => EFin (- q)
  end.

Definition add (a b : exact) : exact :=
  match a, b with
  | ENaN, _ | _, ENaN => ENaN
  | EInf s, EInf s' => if Bool.eqb s s' then EInf s else ENaN
  | EInf s, EFin _ | EFin _, EInf s => EInf s
  | EFin p, EFin q => EFin (p + q)
  end.

Definition sub (a b : exact) : exact := add a (neg b).

Definition mul (a b : exact) : exact :=
  match a, b with
  | ENaN, _ | _, ENaN => ENaN
  | EInf s, EInf s' => EInf (xorb s s')
  | EInf s, EFin q | EFin q, EInf s =>
      if is_zero q then ENaN else EInf (xorb s (is_neg q))
  | EFin p, EFin q => EFin (p * q)
  end.

Definition div (a b : exact) : exact :=
  match a, b with
  | ENaN, _ | _, ENaN => ENaN
  | EInf _, EInf _ => ENaN
  | EInf s, EFin q => EInf (xorb s (is_neg q))
  | EFin _, EInf _ => EFin 0
  | EFin p, EFin q =>
      if is_zero q then (if is_zero p then ENaN else EInf (is_neg p))
      else EFin (p / q)
  end.

Definition floor (a : exact) : exact :=
  match a with
  | EFin q => EFin (inject_Z (Qfloor q))
  | _ => a
  end.

Definition leb (a b : exact) : bool :=
  match a, b with
  | ENaN, _ | _, ENaN => false
  | EInf s, EInf s' => s || negb s'
  | EInf s, EFin _ => s
  | EFin _, EInf s => negb s
  | EFin p, EFin q => Qle_bool p q
  end.

Definition ltb (a b : exact) : bool :=
  match a, b with
  | ENaN, _ | _, ENaN => false
  | EInf s, EInf s' => s && negb s'
  | EInf s, EFin _ => s
  | EFin _, EInf s => negb s
  | EFin p, EFin q => negb (Qle_bool q p)
  end.

Definition eqb (a b : exact) : bool :=
  match a, b with
  | EInf s, EInf s' => Bool.eqb s s'
  | EFin p, EFin q => Qeq_bool p q
  | _, _ => false
  end.

Definition isNaN (a : exact) : bool :=
  match a with ENaN => true | _ => false end.

Definition min (a b : exact) : exact :=
  if isNaN a || isNaN b then ENaN else if leb b a then b else a.

Definition max (a b : exact) : exact :=
  if isNaN a || isNaN b then ENaN else if leb a b then b else a.

End Exact.

#[export] Instance exact_number : Number exact := {|
  of_Q := EFin;
  NaN := ENaN;
  Infinity := EInf false;
  neg := Exact.neg;
  add := Exact.add;
  sub := Exact.sub;
  mul := Exact.mul;
  div := Exact.div;
  floor := Exact.floor;
  ltb := Exact.ltb;
  leb := Exact.leb;
  eqb := Exact.eqb;
  isNaN := Exact.isNaN;
  min := Exact.min;
  max := Exact.max
|}.

(** *** Binary64: the kernel's primitive floats *)

Module Binary64.

(** The double nearest to a rational (ties to even), as a decimal literal
    or a decimal text converts: the quotient of numerator by denominator,
    rounded once. *)
Definition of_Q (q : Q) : float :=
  match Qnum q with
  | Z0 => PrimFloat.zero
  | Zpos p =>
      SF2Prim (SFdiv prec emax (S754_finite false p 0) (S754_finite false (Qden q) 0))
  | Zneg p =>
      SF2Prim (SFdiv prec emax (S754_finite true p 0) (S754_finite false (Qden q) 0))
  end.

(** Math.floor: a finite double with a negative exponent is m * 2^e; its
    floor is the mantissa shifted right, an integer below 2^53. *)
Definition floor (x : float) : float :=
  match Prim2SF x with
  | S754_finite s m e =>
      if (0 <=? e)%Z then x
      else of_Q (inject_Z (Z.shiftr (if s then Z.neg m else Z.pos m) (- e)))
  | _ => x
  end.

(** Math.min and Math.max: NaN when an argument is NaN, and -0 below +0. *)
Definition min (a b : float) : float :=
  if PrimFloat.is_nan a || PrimFloat.is_nan b then PrimFloat.nan
  else if PrimFloat.is_zero a && PrimFloat.is_zero b
       then (if PrimFloat.get_sign a || PrimFloat.get_sign b
             then PrimFloat.neg_zero else PrimFloat.zero)
  else if PrimFloat.leb b a then b else a.

Definition max (a b : float) : float :=
  if PrimFloat.is_nan a || PrimFloat.is_nan b then PrimFloat.nan
  else if PrimFloat.is_zero a && PrimFloat.is_zero b
       then (if PrimFloat.get_sign a && PrimFloat.get_sign b
             then PrimFloat.neg_zero else PrimFloat.zero)
  else if PrimFloat.leb a b then b else a.

End Binary64.

Definition binary64 : Type := float.

#[export] Instance binary64_number : Number binary64 := {|
  of_Q := Binary64.of_Q;
  NaN := PrimFloat.nan;
  Infinity := PrimFloat.infinity;
  neg := PrimFloat.opp;
  add := PrimFloat.add;
  sub := PrimFloat.sub;
  mul := PrimFloat.mul;
  div := PrimFloat.div;
  floor := Binary64.floor;
  ltb := PrimFloat.ltb;
  leb := PrimFloat.leb;
  eqb := PrimFloat.eqb;
  isNaN := PrimFloat.is_nan;
  min := Binary64.min;
  max := Binary64.max
|}.


(** ** JavaScript strings and the built-in parsers

    Strings are byte strings; the whitespace that [trim], [parseInt] and
    [parseFloat] skip is the ASCII part of JavaScript's (tab, line feed,
    vertical tab, form feed, carriage return, space). *)

Local Open Scope string_scope.
Local Open Scope char_scope.

Definition is_space (c : ascii) : bool :=
  let n := nat_of_ascii c in
  ((9 <=? n) && (n <=? 13) || (n =? 32))%nat.

Fixpoint trimStart (s : string) : string :=
  match s with
  | String c r => if is_space c then trimStart r else s
  | EmptyString => s
  end.

Fixpoint trimEnd (s : string) : string :=
  match s with
  | String c r =>
      match trimEnd r with
      | EmptyString => if is_space c then EmptyString else String c EmptyString
      | r' => String c r'
      end
  | EmptyString => s
  end.

Definition trim (s : string) : string := trimEnd (trimStart s).

Definition lower (c : ascii) : ascii :=
  let n := nat_of_ascii c in
  if ((65 <=? n) && (n <=? 90))%nat then ascii_of_nat (n + 32) else c.

Fixpoint toLowerCase (s : string) : string :=
  match s with
  | String c r => String (lower c) (toLowerCase r)
  | EmptyString => s
  end.

(** [includes s sub]: [sub] occurs in [s]. *)
Fixpoint includes (s sub : string) : bool :=
  String.prefix sub s ||
  match s with
  | String _ r => includes r sub
  | EmptyString => false
  end.

(** [s.split(sep)] for a one-character separator. *)
Fixpoint split (sep : ascii) (s : string) : list string :=
  match s with
  | EmptyString => [EmptyString]
  | String c r =>
      if Ascii.eqb c sep then EmptyString :: split sep r
      else match split sep r with
           | h :: t => String c h :: t
           | [] => [String c EmptyString]
           end
  end.

(** [s.replace(/c/g, '')] and [s.replace(/a/g, b)] for single characters. *)
Fixpoint remove_chars (drop : ascii -> bool) (s : string) : string :=
  match s with
  | String c r => if drop c then remove_chars drop r else String c (remove_chars drop r)
  | EmptyString => s
  end.

Fixpoint replace_char (a b : ascii) (s : string) : string :=
  match s with
  | String c r => String (if Ascii.eqb c a then b else c) (replace_char a b r)
  | EmptyString => s
  end.

Definition digit_value (radix : Z) (c : ascii) : option Z :=
  let n := Z.of_nat (nat_of_ascii c) in
  let d := if ((48 <=? n) && (n <=? 57))%Z then Some (n - 48)%Z
           else if ((97 <=? n) && (n <=? 102))%Z then Some (n - 87)%Z
           else if ((65 <=? n) && (n <=? 70))%Z then Some (n - 55)%Z
           else None in
  match d with
  | Some v => if (v <? radix)%Z then Some v else None
  | None => None
  end.

(** The longest run of digits at the head of [s]: its value on top of
    [acc], how many digits it has, and the text after it. *)
Fixpoint digits (radix : Z) (s : string) (acc : Z) (count : nat) : Z * nat * string :=
  match s with
  | String c r =>
      match digit_value radix c with
      | Some v => digits radix r (acc * radix + v)%Z (S count)
      | None => (acc, count, s)
      end
  | EmptyString => (acc, count, s)
  end.

(** The rational [m * 10^e]. *)
Definition decimal (m e : Z) : Q :=
  if (0 <=? e)%Z then inject_Z (m * 10 ^ e) else Qmake m (Z.to_pos (10 ^ (- e))).

(** An exponent part at the head of [s], when it is complete ([e], an
    optional sign, at least one digit); otherwise exponent 0 and [s]. *)
Definition exponent_part (s : string) : Z * string :=
  match s with
  | String c r =>
      if Ascii.eqb c "e" || Ascii.eqb c "E" then
        let '(sg, r') := match r with
                         | String "-" r' => (true, r')
                         | String "+" r' => (false, r')
                         | _ => (false, r)
                         end in
        let '(v, n, rest) := digits 10 r' 0%Z 0 in
        match n with
        | O => (0%Z, s)
        | _ => ((if sg then - v else v)%Z, rest)
        end
      else (0%Z, s)
  | EmptyString => (0%Z, s)
  end.

Definition split_sign (s : string) : bool * string :=
  match s with
  | String "-" r => (true, r)
  | String "+" r => (false, r)
  | _ => (false, s)
  end.

Section Builtins.
Context {num : Type} `{Number num}.

Definition signed (negative : bool) (x : num) : num :=
  if negative then neg x else x.

(** [parseInt(s)] with no radix argument. *)
Definition parseInt (s : string) : num :=
  let '(sg, s1) := split_sign (trimStart s) in
  let '(radix, s2) :=
    match s1 with
    | String "0" (String x r) =>
        if Ascii.eqb x "x" || Ascii.eqb x "X" then (16%Z, r) else (10%Z, s1)
    | _ => (10%Z, s1)
    end in
  let '(v, n, _) := digits radix s2 0%Z 0 in
  match n with
  | O => NaN
  | _ => signed sg (of_Z v)
  end.

(** [parseFloat(s)]: the longest prefix that is a decimal literal. *)
Definition parseFloat (s : string) : num :=
  let '(sg, s1) := split_sign (trimStart s) in
  if String.prefix "Infinity" s1 then signed sg Infinity
  else
    let '(i, ni, s2) := digits 10 s1 0%Z 0 in
    let '(m, nf, s3) :=
      match s2 with
      | String "." r => let '(m, nf, s3) := digits 10 r i 0 in (m, nf, s3)
      | _ => (i, O, s2)
      end in
    match (ni + nf)%nat with
    | O => NaN
    | _ =>
        let '(e, _) := exponent_part s3 in
        signed sg (of_Q (decimal m (e - Z.of_nat nf)))
    end.

End Builtins.


(** ** JavaScript values read by the loaders

    The schema loaders hand the coordinates text to [JSON.parse].  Both
    [parseCSVRowJS] and the loader delete every double quote first, so the
    text holds no string literal and no object key: the values that can come
    back are null, the booleans, numbers, arrays and the empty object. *)

Section Values.
Context {num : Type} `{Number num}.

#[warning="-register-all"]
Inductive jsval : Type :=
| VNull
| VBool (b : bool)
| VNum (n : num)
| VArr (elements : list jsval)
| VObj.                                  (* the object [{}] *)

(** [v[i]]: [None] when it throws a TypeError (v is null), otherwise the
    element or [undefined]. *)
Definition index (v : jsval) (i : nat) : option (option jsval) :=
  match v with
  | VNull => None
  | VArr l => Some (nth_error l i)
  | _ => Some None
  end.

(** ToNumber, as the multiplication [worldX * scale] applies it to its
    left operand.  An array converts through its text: the empty array is
    0, a one-element array converts as its element's text does, and a
    longer array has a comma in its text, which is no number. *)
Fixpoint to_number (v : jsval) : num :=
  match v with
  | VNull => of_Z 0
  | VBool b => if b then of_Z 1 else of_Z 0
  | VNum n => n
  | VArr [] => of_Z 0
  | VArr [x] =>
      match x with
      | VNull => of_Z 0
      | VNum n => (n + of_Z 0)%js       (* the text of -0 is "0" *)
      | VArr _ => to_number x
      | _ => NaN
      end
  | VArr _ => NaN
  | VObj => NaN
  end.

Definition to_number_opt (v : option jsval) : num :=
  match v with
  | Some v => to_number v
  | None => NaN                          (* undefined *)
  end.

(** *** JSON.parse on quote-free text *)

Inductive token : Type :=
| TLBracket | TRBracket | TLBrace | TRBrace | TComma
| TAtom (text : string).

Definition delimiter (c : ascii) : option token :=
  if Ascii.eqb c "[" then Some TLBracket
  else if Ascii.eqb c "]" then Some TRBracket
  else if Ascii.eqb c "{" then Some TLBrace
  else if Ascii.eqb c "}" then Some TRBrace
  else if Ascii.eqb c "," then Some TComma
  else None.

Definition json_space (c : ascii) : bool :=
  let n := nat_of_ascii c in
  ((n =? 32) || (n =? 9) || (n =? 10) || (n =? 13))%nat.

Definition flush (atom : string) (rest : list token) : list token :=
  match atom with
  | EmptyString => rest
  | _ => TAtom atom :: rest
  end.

(** The tokens of [s], [atom] being the literal read so far. *)
Fixpoint lex (s : string) (atom : string) : list token :=
  match s with
  | EmptyString => flush atom []
  | String c r =>
      match delimiter c with
      | Some t => flush atom (t :: lex r EmptyString)
      | None =>
          if json_space c then flush atom (lex r EmptyString)
          else lex r (atom ++ String c EmptyString)
      end
  end.

(** A JSON number: [-]? int frac? exp?, with no leading zero in int and
    digits on both sides of the point. *)
Definition json_number (atom : string) : option num :=
  let '(sg, s1) :=
    match atom with
    | String "-" r => (true, r)
    | _ => (false, atom)
    end in
  let '(i, ni, s2) := digits 10 s1 0%Z 0 in
  let leading_zero :=
    match s1 with
    | String "0" _ => (1 <? ni)%nat
    | _ => false
    end in
  if ((ni =? 0)%nat || leading_zero)%bool then None
  else
    let frac :=
      match s2 with
      | String "." r =>
          let '(m, nf, s3) := digits 10 r i 0 in
          match nf with
          | O => None
          | _ => Some (m, nf, s3)
          end
      | _ => Some (i, O, s2)
      end in
    match frac with
    | None => None
    | Some (m, nf, s3) =>
        let '(e, s4) := exponent_part s3 in
        match s4 with
        | EmptyString => Some (signed sg (of_Q (decimal m (e - Z.of_nat nf))))
        | _ => None
        end
    end.

Definition atom_value (atom : string) : option jsval :=
  if String.eqb atom "null" then Some VNull
  else if String.eqb atom "true" then Some (VBool true)
  else if String.eqb atom "false" then Some (VBool false)
  else option_map VNum (json_number atom).

Fixpoint parse_value (fuel : nat) (ts : list token) : option (jsval * list token) :=
  match fuel with
  | O => None
  | S fuel =>
      match ts with
      | TAtom a :: r =>
          match atom_value a with
          | Some v => Some (v, r)
          | None => None
          end
      | TLBrace :: TRBrace :: r => Some (VObj, r)
      | TLBracket :: TRBracket :: r => Some (VArr [], r)
      | TLBracket :: r =>
          match parse_elements fuel r with
          | Some (l, r') => Some (VArr l, r')
          | None => None
          end
      | _ => None
      end
  end
with parse_elements (fuel : nat) (ts : list token) : option (list jsval * list token) :=
  match fuel with
  | O => None
  | S fuel =>
      match parse_value fuel ts with
      | Some (v, TComma :: r) =>
          match parse_elements fuel r with
          | Some (l, r') => Some (v :: l, r')
          | None => None
          end
      | Some (v, TRBracket :: r) => Some ([v], r)
      | _ => None
      end
  end.

(** [JSON.parse(s)]; [None] is the SyntaxError it throws. *)
Definition JSON_parse (s : string) : option jsval :=
  let ts := lex s EmptyString in
  match parse_value (2 * List.length ts + 2) ts with
  | Some (v, []) => Some v
  | _ => None
  end.

End Values.

Arguments jsval num : clear implicits.


(** ** The viewer: [initializePaper] and [window.paperFunctions]

    The drawing surface (paper.js) is outside the program.  What the program
    itself keeps is modelled: the closure variables of [initializePaper], the
    value of the tile-size input of the page, and the zoom and centre of the
    view.  A path is the data the program gives it and reads back.

    The view is paper.js's too: [paper.view.zoom] and [paper.view.center] are
    accessors over its matrix.  A state holds the two values on the program's
    side of the accessors: in the state a handler starts from, what the
    handler reads; in the state it returns, what it assigned.  That a later
    read returns what was assigned is paper.js's business, which rescales its
    matrix and rounds; the properties of the zoom on the doubles are stated
    for one event, from what it reads to what it assigns. *)

Inductive completion (A : Type) : Type :=
| Normal (a : A)                (* the call returned *)
| Thrown (a : A).               (* an uncaught TypeError left the call *)

Definition state_of {A} (c : completion A) : A :=
  match c with Normal a | Thrown a => a end.

Module Viewer.
Section Viewer.
Context {num : Type} `{Number num}.

Record Point : Type := { x : num; y : num }.

Record Color : Type := { red : num; green : num; blue : num; alpha : option num }.

Record Path : Type := {
  originalCoords : list (jsval num);     (* path.originalCoords, always an array *)
  segments : list Point;
  closed : bool;
  fillColor : option Color;
  strokeColor : option Color;
  strokeWidth : num
}.

Record Line : Type := {
  from : Point; to : Point; lineColor : Color; lineWidth : num
}.

Record Rectangle : Type := {
  point : Point; size : Point; rectFill : string
}.

(** The calls on [window.paperFunctions], in the order they were made: a
    ghost record, read by nothing in the program. *)
Inductive call : Type :=
| CallDrawGrid (tileSize : num)
| CallUpdatePolygonPositions
| CallClearPolygons
| CallCreatePolygon (created : bool).

Record State : Type := {
  polygonPaths : list Path;
  gridLines : list Line;
  gridBackground : option Rectangle;
  gridColumns : Z;
  gridRows : Z;
  tileSizeInput : string;   (* document.getElementById('tileSizeInput').value *)
  zoom : num;               (* paper.view.zoom, as read or as assigned *)
  center : Point;           (* paper.view.center, as read or as assigned *)
  calls : list call
}.

Definition canvasWidth : num := of_Z 900.
Definition canvasHeight : num := of_Z 600.

Definition with_polygonPaths (ps : list Path) (s : State) : State :=
  {| polygonPaths := ps; gridLines := gridLines s; gridBackground := gridBackground s;
     gridColumns := gridColumns s; gridRows := gridRows s;
     tileSizeInput := tileSizeInput s; zoom := zoom s; center := center s;
     calls := calls s |}.

Definition with_grid (ls : list Line) (bg : option Rectangle) (s : State) : State :=
  {| polygonPaths := polygonPaths s; gridLines := ls; gridBackground := bg;
     gridColumns := gridColumns s; gridRows := gridRows s;
     tileSizeInput := tileSizeInput s; zoom := zoom s; center := center s;
     calls := calls s |}.

Definition with_dimensions (c r : Z) (s : State) : State :=
  {| polygonPaths := polygonPaths s; gridLines := gridLines s;
     gridBackground := gridBackground s;
     gridColumns := c; gridRows := r;
     tileSizeInput := tileSizeInput s; zoom := zoom s; center := center s;
     calls := calls s |}.

Definition with_view (z : num) (c : Point) (s : State) : State :=
  {| polygonPaths := polygonPaths s; gridLines := gridLines s;
     gridBackground := gridBackground s;
     gridColumns := gridColumns s; gridRows := gridRows s;
     tileSizeInput := tileSizeInput s; zoom := z; center := c;
     calls := calls s |}.

Definition record_call (c : call) (s : State) : State :=
  {| polygonPaths := polygonPaths s; gridLines := gridLines s;
     gridBackground := gridBackground s;
     gridColumns := gridColumns s; gridRows := gridRows s;
     tileSizeInput := tileSizeInput s; zoom := zoom s; center := center s;
     calls := calls s ++ [c] |}.

(** [parseInt(document.getElementById('tileSizeInput').value) || 300] *)
Definition tileSize_of_input (s : State) : num :=
  or_default (parseInt (tileSizeInput s)) (of_Z 300).

(** *** The transform

    [drawGrid], [createPolygon] and [updatePolygonPositions] each open with
    the same lines, from [worldWidth] to [offsetY]; they are written once
    here. *)
Record Transform : Type := {
  scale : num;
  displayWidth : num;
  displayHeight : num;
  offsetX : num;
  offsetY : num
}.

Definition transform (columns rows : Z) (tileSize : num) : Transform :=
  let worldWidth := (of_Z columns * tileSize)%js in
  let worldHeight := (of_Z rows * tileSize)%js in
  let scaleX := (canvasWidth / worldWidth)%js in
  let scaleY := (canvasHeight / worldHeight)%js in
  let scale := min scaleX scaleY in
  let displayWidth := (worldWidth * scale)%js in
  let displayHeight := (worldHeight * scale)%js in
  {| scale := scale;
     displayWidth := displayWidth;
     displayHeight := displayHeight;
     offsetX := ((canvasWidth - displayWidth) / of_Z 2)%js;
     offsetY := ((canvasHeight - displayHeight) / of_Z 2)%js |}.

(** [new paper.Point(offsetX + worldX * scale, offsetY + worldY * scale)]
    for the vertex [v = coords[j]]; [None] when [v[0]] throws. *)
Definition project (t : Transform) (v : jsval num) : option Point :=
  match index v 0, index v 1 with
  | Some worldX, Some worldY =>
      Some {| x := (offsetX t + to_number_opt worldX * scale t)%js;
              y := (offsetY t + to_number_opt worldY * scale t)%js |}
  | _, _ => None
  end.

(** The loop [for (j ...) path.add(...)] from segments [segs] on: the
    segments at the end, and whether the loop ran to its end. *)
Fixpoint add_points (t : Transform) (coords : list (jsval num)) (segs : list Point)
  : list Point * bool :=
  match coords with
  | [] => (segs, true)
  | v :: rest =>
      match project t v with
      | Some p => add_points t rest (segs ++ [p])
      | None => (segs, false)
      end
  end.

Definition truthy (n : num) : bool := negb (isNaN n || (n =? of_Z 0)%js).

(** The body of the loop of [updatePolygonPositions] for one path. *)
Definition reproject (t : Transform) (path : Path) : Path * bool :=
  let fill := fillColor path in
  let stroke := strokeColor path in
  let width := strokeWidth path in
  let was_closed := closed path in
  (* path.removeSegments() and the additions *)
  let '(segs, finished) := add_points t (originalCoords path) [] in
  if finished then
    ({| originalCoords := originalCoords path;
        segments := segs;
        closed := was_closed;
        fillColor := match fill with Some c => Some c | None => fillColor path end;
        strokeColor := match stroke with Some c => Some c | None => strokeColor path end;
        strokeWidth := if truthy width then width else strokeWidth path |}, true)
  else
    ({| originalCoords := originalCoords path;
        segments := segs;
        closed := closed path;
        fillColor := fillColor path;
        strokeColor := strokeColor path;
        strokeWidth := strokeWidth path |}, false).

Fixpoint reproject_all (t : Transform) (paths : list Path) : list Path * bool :=
  match paths with
  | [] => ([], true)
  | p :: rest =>
      let '(p', finished) := reproject t p in
      if finished then
        let '(rest', finished') := reproject_all t rest in (p' :: rest', finished')
      else (p' :: rest, false)
  end.

Definition updatePolygonPositions (s : State) : completion State :=
  let s := record_call CallUpdatePolygonPositions s in
  let t := transform (gridColumns s) (gridRows s) (tileSize_of_input s) in
  let '(paths, finished) := reproject_all t (polygonPaths s) in
  if finished then Normal (with_polygonPaths paths s)
  else Thrown (with_polygonPaths paths s).

Definition clearPolygons (s : State) : State :=
  with_polygonPaths [] (record_call CallClearPolygons s).

(** The body of the [try] of [createPolygon], up to the path it builds;
    [None] when a TypeError is thrown on the way: at [coords[0][0]] in
    the arguments of the second [console.log], at [coords.slice()], or at
    [coords[j][0]] in the loop. *)
Definition new_path (t : Transform) (coords : jsval num) (r g b : num) : option Path :=
  match index coords 0 with
  | Some (Some v) =>
      match index v 0 with
      | Some _ =>
          match coords with
          | VArr l =>
              match add_points t l [] with
              | (segs, true) =>
                  Some {| originalCoords := l;
                          segments := segs;
                          closed := true;
                          fillColor := Some {| red := (r / of_Z 255)%js;
                                               green := (g / of_Z 255)%js;
                                               blue := (b / of_Z 255)%js;
                                               alpha := None |};
                          strokeColor := Some {| red := of_Z 0; green := of_Z 0;
                                                 blue := of_Z 0;
                                                 alpha := Some (of_Q (5 # 10)) |};
                          strokeWidth := of_Z 1 |}
              | (_, false) => None
              end
          | _ => None
          end
      | None => None
      end
  | _ => None
  end.

(** [createPolygon(coords, r, g, b)]: the state after the call and the
    boolean it returns; on a TypeError it returns false with no path
    pushed. *)
Definition createPolygon (coords : jsval num) (r g b : num) (s : State) : State * bool :=
  let t := transform (gridColumns s) (gridRows s) (tileSize_of_input s) in
  match new_path t coords r g b with
  | Some path =>
      (record_call (CallCreatePolygon true)
         (with_polygonPaths (polygonPaths s ++ [path]) s), true)
  | None => (record_call (CallCreatePolygon false) s, false)
  end.

Definition gridColor : Color :=
  {| red := of_Q (7 # 10); green := of_Q (7 # 10); blue := of_Q (7 # 10);
     alpha := Some (of_Q (8 # 10)) |}.

(** The indices [0 .. n] of the loops [for (col = 0; col <= n; col++)]. *)
Definition upto (n : Z) : list Z := map Z.of_nat (seq 0 (Z.to_nat (n + 1))).

Definition drawGrid (tileSize : num) (s : State) : State :=
  let s := record_call (CallDrawGrid tileSize) s in
  let t := transform (gridColumns s) (gridRows s) tileSize in
  let background :=
    {| point := {| x := offsetX t; y := offsetY t |};
       size := {| x := displayWidth t; y := displayHeight t |};
       rectFill := "#404040" |} in
  let visualTileWidth := (displayWidth t / of_Z (gridColumns s))%js in
  let visualTileHeight := (displayHeight t / of_Z (gridRows s))%js in
  let vertical :=
    map (fun col =>
           let x := (offsetX t + of_Z col * visualTileWidth)%js in
           {| from := {| x := x; y := offsetY t |};
              to := {| x := x; y := (offsetY t + displayHeight t)%js |};
              lineColor := gridColor; lineWidth := of_Z 1 |})
        (upto (gridColumns s)) in
  let horizontal :=
    map (fun row =>
           let y := (offsetY t + of_Z row * visualTileHeight)%js in
           {| from := {| x := offsetX t; y := y |};
              to := {| x := (offsetX t + displayWidth t)%js; y := y |};
              lineColor := gridColor; lineWidth := of_Z 1 |})
        (upto (gridRows s)) in
  with_grid (vertical ++ horizontal) (Some background) s.

(** The sequence that the four grid methods end with. *)
Definition redraw (s : State) : completion State :=
  let tileSize := tileSize_of_input s in
  updatePolygonPositions (drawGrid tileSize s).

Definition addColumn (s : State) : completion State :=
  redraw (with_dimensions (gridColumns s + 1) (gridRows s) s).

Definition removeColumn (s : State) : completion State :=
  if (1 <? gridColumns s)%Z
  then redraw (with_dimensions (gridColumns s - 1) (gridRows s) s)
  else Normal s.

Definition addRow (s : State) : completion State :=
  redraw (with_dimensions (gridColumns s) (gridRows s + 1) s).

Definition removeRow (s : State) : completion State :=
  if (1 <? gridRows s)%Z
  then redraw (with_dimensions (gridColumns s) (gridRows s - 1) s)
  else Normal s.

(** The page's [updateGrid()], the handler of the tile-size input. *)
Definition updateGrid (s : State) : State :=
  drawGrid (tileSize_of_input s) s.

(** *** The view *)

Record WheelEvent : Type := {
  delta : num;                 (* event.delta *)
  mousePosition : Point        (* paper.view.viewToProject(event.point) *)
}.

Definition point_sub (a b : Point) : Point :=
  {| x := (x a - x b)%js; y := (y a - y b)%js |}.

Definition point_mul (a : Point) (k : num) : Point :=
  {| x := (x a * k)%js; y := (y a * k)%js |}.

Definition next_zoom (event_delta oldZoom : num) : num :=
  let newZoom := if (event_delta <? of_Z 0)%js
                 then (oldZoom * of_Q (105 # 100))%js
                 else (oldZoom * of_Q (95 # 100))%js in
  max (of_Q (5 # 100)) (min (of_Z 20) newZoom).

(** [paper.view.onMouseWheel]: from the zoom and the centre it reads, those
    of [s], the zoom and the centre it assigns, those of the state it
    returns. *)
Definition onMouseWheel (event : WheelEvent) (s : State) : State :=
  let oldZoom := zoom s in
  let newZoom := next_zoom (delta event) oldZoom in
  let beta := (oldZoom / newZoom)%js in
  let viewCenter := center s in
  let offset := point_sub (mousePosition event) viewCenter in
  let newCenter := point_sub (mousePosition event) (point_mul offset beta) in
  with_view newZoom newCenter s.

(** [paper.view.onMouseDrag]: the centre it assigns, from the one it
    reads. *)
Definition onMouseDrag (event_delta : Point) (s : State) : State :=
  with_view (zoom s) (point_sub (center s) event_delta) s.

(** [initializePaper()], given the size of the view and the text of the
    tile-size input when the page has loaded. *)
Definition initializePaper (viewWidth viewHeight : num) (input : string) : State :=
  drawGrid (of_Z 300)
    {| polygonPaths := []; gridLines := []; gridBackground := None;
       gridColumns := 10; gridRows := 7;
       tileSizeInput := input;
       zoom := of_Z 1;
       center := {| x := (viewWidth / of_Z 2)%js; y := (viewHeight / of_Z 2)%js |};
       calls := [] |}.

(** *** The viewer's loader: four fixed columns, no header *)

(** The inner loop of the viewer's [parseCSVRowJS]: the fields of one
    line, each trimmed; a double quote toggles [inQuotes] and is dropped. *)
Fixpoint fields_loop (line : string) (fields : list string) (current : string)
         (inQuotes : bool) : list string :=
  match line with
  | EmptyString => fields ++ [trim current]
  | String char rest =>
      if Ascii.eqb char "034" then fields_loop rest fields current (negb inQuotes)
      else if Ascii.eqb char "," && negb inQuotes
           then fields_loop rest (fields ++ [trim current]) EmptyString inQuotes
           else fields_loop rest fields (current ++ String char EmptyString) inQuotes
  end.

(** [parseCSVRowJS(csvText)] of the viewer: the rows of the text, blank
    lines left out. *)
Definition parseCSVRowJS (csvText : string) : list (list string) :=
  flat_map (fun l => let line := trim l in
                     match line with
                     | EmptyString => []
                     | _ => [fields_loop line [] EmptyString false]
                     end)
           (split "010" csvText).

Definition is_paren (c : ascii) : bool := Ascii.eqb c "(" || Ascii.eqb c ")".

(** One turn of [for (k = 0; k < coordPairs.length; k += 2)]: what it
    pushes on [coords]. *)
Definition pair_at (coordPairs : list string) (k : nat) : list (jsval num) :=
  if (k + 1 <? List.length coordPairs)%nat then
    match nth_error coordPairs k, nth_error coordPairs (k + 1) with
    | Some a, Some b =>
        let x := parseFloat (trim a) in
        let y := parseFloat (trim b) in
        if negb (isNaN x) && negb (isNaN y) then [VArr [VNum x; VNum y]] else []
    | _, _ => []
    end
  else [].

(** The whole loop: k = 0, 2, 4, ... below the length. *)
Definition coordinate_pairs (coordPairs : list string) : list (jsval num) :=
  flat_map (fun i => pair_at coordPairs (2 * i))
           (seq 0 (Nat.div2 (List.length coordPairs + 1))).

(** The body of the loop over the rows: the state and [polygonsLoaded]. *)
Definition load_row (row : list string) (acc : State * nat) : State * nat :=
  let '(s, polygonsLoaded) := acc in
  match row with
  | polygonStr :: f1 :: f2 :: f3 :: _ =>
      let r := or_default (parseInt f1) (of_Z 0) in
      let g := or_default (parseInt f2) (of_Z 0) in
      let b := or_default (parseInt f3) (of_Z 0) in
      let coordPairs := split "," (remove_chars is_paren polygonStr) in
      let coords := coordinate_pairs coordPairs in
      if (3 <=? List.length coords)%nat then
        let '(s', created) := createPolygon (VArr coords) r g b s in
        if created then (s', S polygonsLoaded) else (s', polygonsLoaded)
      else (s, polygonsLoaded)
  | _ => (s, polygonsLoaded)
  end.

(** [reader.onload] of the viewer's [loadCSV], on the text of the file:
    the state afterwards and the number it logs as loaded. *)
Definition loadCSV (csvText : string) (s : State) : State * nat :=
  fold_left (fun acc row => load_row row acc) (parseCSVRowJS csvText) (s, O).

End Viewer.

Arguments Point num : clear implicits.
Arguments Color num : clear implicits.
Arguments Path num : clear implicits.
Arguments Line num : clear implicits.
Arguments Rectangle num : clear implicits.
Arguments call num : clear implicits.
Arguments State num : clear implicits.
Arguments Transform num : clear implicits.
Arguments WheelEvent num : clear implicits.

End Viewer.


(** ** The editor pages: the schema-driven loaders

    The first and third scripts of the file.  They call
    [window.paperFunctions.clearPolygons] and [createPolygon], the methods
    that [initializePaper] installs. *)

Module Editor.
Section Editor.
Context {num : Type} `{Number num}.

(** [parseCSVRowJS(row)] of the editor scripts: the fields of one line. *)
Fixpoint row_loop (row : string) (result : list string) (current : string)
         (inQuotes : bool) : list string :=
  match row with
  | EmptyString => result ++ [current]
  | String char rest =>
      if Ascii.eqb char "034" then row_loop rest result current (negb inQuotes)
      else if Ascii.eqb char "," && negb inQuotes
           then row_loop rest (result ++ [current]) EmptyString inQuotes
           else row_loop rest result (current ++ String char EmptyString) inQuotes
  end.

Definition parseCSVRowJS (row : string) : list string :=
  row_loop row [] EmptyString false.

(** [a[i]] for an index that may be the sentinel -1. *)
Definition item {A} (a : list A) (i : Z) : option A :=
  if (i <? 0)%Z then None else nth_error a (Z.to_nat i).

Record Columns : Type := {
  coordsIndex : Z; colorRIndex : Z; colorGIndex : Z; colorBIndex : Z
}.

(** The loop over the header, from index [i] on. *)
Fixpoint find_columns (header : list string) (i : Z) (c : Columns) : Columns :=
  match header with
  | [] => c
  | name :: rest =>
      let h := toLowerCase name in
      let coords := if includes h "coordinates" || includes h "polygon_coords"
                    then i else coordsIndex c in
      let r := if includes h "color_r" then i else colorRIndex c in
      let g := if includes h "color_g" then i else colorGIndex c in
      let b := if includes h "color_b" then i else colorBIndex c in
      find_columns rest (i + 1)%Z
        {| coordsIndex := coords; colorRIndex := r; colorGIndex := g; colorBIndex := b |}
  end.

Definition no_columns : Columns :=
  {| coordsIndex := -1; colorRIndex := -1; colorGIndex := -1; colorBIndex := -1 |}.

(** [coords.length < 3]: [None] when reading [length] throws (null);
    the length of a number, a boolean or [{}] is undefined, and
    [undefined < 3] is false. *)
Definition length_below_3 (coords : jsval num) : option bool :=
  match coords with
  | VNull => None
  | VArr l => Some (List.length l <? 3)%nat
  | _ => Some false
  end.

(** [parseFloat(row[i] || 0)] *)
Definition channel (row : list string) (i : Z) : num :=
  match item row i with
  | Some EmptyString | None => parseFloat "0"
  | Some text => parseFloat text
  end.

(** The two [if]s on the channels: fractions scaled to 0..255, then an
    all-zero colour turned white. *)
Definition normalize (rgb : num * num * num) : num * num * num :=
  let '(r, g, b) := rgb in
  let '(r, g, b) :=
    if (r <=? of_Z 1)%js && (g <=? of_Z 1)%js && (b <=? of_Z 1)%js
    then (floor (r * of_Z 255)%js, floor (g * of_Z 255)%js, floor (b * of_Z 255)%js)
    else (r, g, b) in
  if (r =? of_Z 0)%js && (g =? of_Z 0)%js && (b =? of_Z 0)%js
  then (of_Z 255, of_Z 255, of_Z 255)
  else (r, g, b).

Record Counts : Type := { polygonCount : nat; errorCount : nat }.

Definition count_polygon (c : Counts) : Counts :=
  {| polygonCount := S (polygonCount c); errorCount := errorCount c |}.

Definition count_error (c : Counts) : Counts :=
  {| polygonCount := polygonCount c; errorCount := S (errorCount c) |}.

(** The body of the loops over the data lines.  The loop over lines 1 to
    5 and the loop over the lines from 6 on have the same body, logging
    apart. *)
Definition process_row (headerLength : nat) (cols : Columns) (line : string)
           (acc : Viewer.State num * Counts) : Viewer.State num * Counts :=
  let '(s, counts) := acc in
  let row := parseCSVRowJS line in
  if (List.length row <? headerLength)%nat then (s, counts)          (* continue *)
  else
    let coordsStr := match item row (coordsIndex cols) with
                     | Some text => text
                     | None => EmptyString
                     end in
    let coordsStr := trim (remove_chars (Ascii.eqb "034") coordsStr) in
    let jsonCoordsStr := replace_char ")" "]" (replace_char "(" "[" coordsStr) in
    match JSON_parse jsonCoordsStr with
    | None => (s, count_error counts)                                (* catch *)
    | Some coords =>
        match length_below_3 coords with
        | None => (s, count_error counts)                            (* catch *)
        | Some true => (s, counts)                                   (* continue *)
        | Some false =>
            let '(r, g, b) :=
              normalize (channel row (colorRIndex cols),
                         channel row (colorGIndex cols),
                         channel row (colorBIndex cols)) in
            let '(s', success) := Viewer.createPolygon coords r g b s in
            if success then (s', count_polygon counts)
            else (s', count_error counts)
        end
    end.

Inductive report : Type :=
| NotEnoughLines                                  (* 'Not enough lines in CSV' *)
| NoCoordinatesColumn                             (* 'Could not find coordinates column' *)
| Finished (counts : Counts).                     (* 'Total polygons: ..., Errors: ...' *)

(** What both [reader.onload] handlers do from [csv.trim().split] on. *)
Definition lines_of (csv : string) : list string := split "010" (trim csv).

Definition header_of (lines : list string) : list string :=
  split "," (hd EmptyString lines).

Definition load_lines (csv : string) (s : Viewer.State num) : Viewer.State num * report :=
  let lines := lines_of csv in
  if (List.length lines <? 2)%nat then (s, NotEnoughLines)
  else
    let header := header_of lines in
    let cols := find_columns header 0%Z no_columns in
    if (coordsIndex cols =? -1)%Z then (s, NoCoordinatesColumn)
    else
      let step := fun acc line => process_row (List.length header) cols line acc in
      let acc0 := (s, {| polygonCount := O; errorCount := O |}) in
      (* for (i = 1; i < lines.length && i < 6; i++) *)
      let acc1 := fold_left step (firstn 5 (skipn 1 lines)) acc0 in
      (* for (i = 6; i < lines.length; i++) *)
      let '(s', counts) := fold_left step (skipn 6 lines) acc1 in
      (s', Finished counts).

(** [reader.onload] of the first script's [loadCSV]: it clears first. *)
Definition loadCSV_replace (csv : string) (s : Viewer.State num) : Viewer.State num * report :=
  load_lines csv (Viewer.clearPolygons s).

(** [reader.onload] of the third script's [loadCSV]: it adds to what is
    there. *)
Definition loadCSV_append (csv : string) (s : Viewer.State num) : Viewer.State num * report :=
  load_lines csv s.

End Editor.
End Editor.


(** ** The servo sweep (src/Knob/Knob.ino)

    The sketch of the board that moves the servo: [setup] once, then [loop]
    for ever.  Its globals are [int]s, 16 bits in two's complement on the
    board; what it does to the servo and the serial line is kept as a list
    of effects, in order.  The servo library and the time a [delay] takes
    are outside the program. *)

Module Knob.

(** The value an arithmetic result has as an [int]. *)
Definition to_int (z : Z) : Z := ((z + 32768) mod 65536 - 32768)%Z.

Inductive effect : Type :=
| Attach (pin : Z)               (* myservo.attach(pin) *)
| ServoWrite (angle : Z)         (* myservo.write(angle) *)
| Delay (ms : Z)                 (* delay(ms) *)
| SerialBegin (baud : Z)         (* Serial.begin(baud) *)
| Println (value : Z).           (* Serial.println(value) *)

Record State : Type := {
  ford : Z; back : Z; ii : Z; val : Z;
  effects : list effect
}.

Definition set_ii (v : Z) (s : State) : State :=
  {| ford := ford s; back := back s; ii := v; val := val s; effects := effects s |}.

Definition set_ford (v : Z) (s : State) : State :=
  {| ford := v; back := back s; ii := ii s; val := val s; effects := effects s |}.

Definition emit (e : effect) (s : State) : State :=
  {| ford := ford s; back := back s; ii := ii s; val := val s;
     effects := (effects s ++ [e])%list |}.

(** The globals as the board starts: [ford] is initialised to 1, the
    others to 0. *)
Definition power_on : State :=
  {| ford := 1; back := 0; ii := 0; val := 0; effects := [] |}.

Definition setup (s : State) : State :=
  let s := set_ii 90 s in
  let s := emit (Attach 2) s in
  let s := emit (ServoWrite 90) s in
  let s := emit (Delay 1000) s in
  emit (SerialBegin 9600) s.

Definition loop (s : State) : State :=
  if (ford s =? 1)%Z then
    let s := set_ii (to_int (ii s + 1)) s in               (* ii += 1 *)
    let s := emit (ServoWrite (ii s)) s in
    let s := emit (Delay 100) s in
    if (120 <? ii s)%Z then                                (* ii > 120 *)
      let s := set_ford 0 s in
      emit (Println (ii s)) s
    else s
  else
    let s := set_ii (to_int (ii s - 1)) s in               (* ii -= 1 *)
    let s := emit (ServoWrite (ii s)) s in
    let s := emit (Delay 100) s in
    if (ii s <? 80)%Z then set_ford 1 s else s.

(** The board after [n] turns of [loop]. *)
Definition run (n : nat) : State := Nat.iter n loop (setup power_on).

End Knob.


(** * The vocabulary of the properties *)

Section Vocabulary.
Context {num : Type} `{Number num}.
Implicit Types (s : Viewer.State num) (p : Viewer.Path num) (v coords : jsval num).

(** What a reprojection leaves alone in a path: everything but the
    segments. *)
Definition kept p :=
  (Viewer.originalCoords p, Viewer.fillColor p, Viewer.strokeColor p,
   Viewer.strokeWidth p, Viewer.closed p).

(** The grid invariant: at least one column and one row. *)
Definition grid_ok s : Prop :=
  (1 <= Viewer.gridColumns s)%Z /\ (1 <= Viewer.gridRows s)%Z.

(** The operations that reach the grid: the four grid methods, the two
    layout passes and the page's tile-size handler. *)
Inductive grid_operation : Type :=
| AddColumn | RemoveColumn | AddRow | RemoveRow
| DrawGrid (tileSize : num)
| UpdatePolygonPositions
| UpdateGrid.

(** An operation applied to a state. *)
Definition run (op : grid_operation) s : completion (Viewer.State num) :=
  match op with
  | AddColumn => Viewer.addColumn s
  | RemoveColumn => Viewer.removeColumn s
  | AddRow => Viewer.addRow s
  | RemoveRow => Viewer.removeRow s
  | DrawGrid tileSize => Normal (Viewer.drawGrid tileSize s)
  | UpdatePolygonPositions => Viewer.updatePolygonPositions s
  | UpdateGrid => Normal (Viewer.updateGrid s)
  end.

(** [n] reprojection passes in a row. *)
Definition passes (n : nat) s : Viewer.State num :=
  Nat.iter n (fun s => state_of (Viewer.updatePolygonPositions s)) s.

(** What is on the screen: the paths with their segments, the grid lines
    and the background. *)
Definition screen s :=
  (Viewer.polygonPaths s, Viewer.gridLines s, Viewer.gridBackground s).

(** A vertex whose components can be read: anything but null. *)
Definition not_null v : bool :=
  match v with VNull => false | _ => true end.

(** The arrays [createPolygon] makes a path of: not empty, no null in
    them. *)
Definition creatable coords : bool :=
  match coords with
  | VArr (v :: l) => forallb not_null (v :: l)
  | _ => false
  end.

(** The states in which every stored vertex can be read.  [createPolygon]
    stores no other array, so the states of a running page are of this
    kind. *)
Definition well_formed s : Prop :=
  Forall (fun l => forallb not_null l = true)
         (map (@Viewer.originalCoords num) (Viewer.polygonPaths s)).

(** How a data line ends in [process_row]. *)
Inductive outcome : Type :=
| Accepted          (* a polygon was created: polygonCount++ *)
| Skipped           (* continue: nothing is counted *)
| Errored.          (* the catch block or a false createPolygon: errorCount++ *)

Definition accepted (o : outcome) : bool :=
  match o with Accepted => true | _ => false end.

Definition errored (o : outcome) : bool :=
  match o with Errored => true | _ => false end.

(** The JSON text [process_row] makes of the coordinates field. *)
Definition coordinates_text (cols : Editor.Columns) (line : string) : string :=
  let coordsStr := match Editor.item (Editor.parseCSVRowJS line) (Editor.coordsIndex cols) with
                   | Some text => text
                   | None => EmptyString
                   end in
  replace_char ")" "]" (replace_char "(" "["
    (trim (remove_chars (Ascii.eqb "034") coordsStr))).

(** The outcome of a line, from the line alone: skipped when it has fewer
    fields than the header or its array has fewer than 3 elements; an error
    when [JSON.parse] throws, when the value is null, or when
    [createPolygon] returns false; accepted otherwise. *)
Definition row_outcome (headerLength : nat) (cols : Editor.Columns) (line : string)
  : outcome :=
  if (List.length (Editor.parseCSVRowJS line) <? headerLength)%nat then Skipped
  else
    match JSON_parse (num:=num) (coordinates_text cols line) with
    | None => Errored
    | Some coords =>
        match Editor.length_below_3 coords with
        | None => Errored
        | Some true => Skipped
        | Some false => if creatable coords then Accepted else Errored
        end
    end.

(** The counters after a line with outcome [o]. *)
Definition tally (o : outcome) (c : Editor.Counts) : Editor.Counts :=
  match o with
  | Accepted => Editor.count_polygon c
  | Skipped => c
  | Errored => Editor.count_error c
  end.

Definition no_counts : Editor.Counts :=
  {| Editor.polygonCount := 0; Editor.errorCount := 0 |}.

(** The pair that one turn of the loop pushes for the fields [a] and [b]. *)
Definition kept_pair (a b : string) : list (jsval num) :=
  let x := parseFloat (trim a) in
  let y := parseFloat (trim b) in
  if negb (isNaN x) && negb (isNaN y) then [VArr [VNum x; VNum y]] else [].

(** The vertex list the viewer's loader reads off a row. *)
Definition row_coords (polygonStr : string) : list (jsval num) :=
  Viewer.coordinate_pairs (split "," (remove_chars Viewer.is_paren polygonStr)).

(** The rows that become polygons: four fields or more, three pairs or
    more. *)
Definition row_loaded (row : list string) : bool :=
  match row with
  | polygonStr :: _ :: _ :: _ :: _ => (3 <=? List.length (row_coords polygonStr))%nat
  | _ => false
  end.

(** The fill [createPolygon] gives a path for the channels it is passed:
    [new paper.Color(r/255, g/255, b/255)]. *)
Definition fill_of (rgb : num * num * num) : Viewer.Color num :=
  let '(r, g, b) := rgb in
  {| Viewer.red := (r / of_Z 255)%js; Viewer.green := (g / of_Z 255)%js;
     Viewer.blue := (b / of_Z 255)%js; Viewer.alpha := None |}.

End Vocabulary.

Arguments grid_operation num : clear implicits.

(** A double that is neither zero, infinite nor NaN. *)
Definition finite_nonzero (k : float) : bool :=
  match Prim2SF k with S754_finite _ _ _ => true | _ => false end.

(** The zoom factor as a double within [0.05, 20]. *)
Definition zoom_in_range (z : binary64) : Prop :=
  (of_Q (5 # 100) <=? z)%js = true /\ (z <=? of_Z 20)%js = true.

(** The product that a wheel event clamps: the zoom it reads times 1.05
    for a negative delta, times 0.95 for any other. *)
Definition zoom_product (e : Viewer.WheelEvent binary64) (s : Viewer.State binary64)
  : binary64 :=
  (Viewer.zoom s * (if (Viewer.delta e <? of_Z 0)%js
                    then of_Q (105 # 100) else of_Q (95 # 100)))%js.

(** ** Sample pages and files *)

Definition newline : string := String "010" EmptyString.

Definition quoted (text : string) : string :=
  String "034" (text ++ String "034" EmptyString)%string.

Definition csv_lines (lines : list string) : string := String.concat newline lines.

(** The page as [initializePaper] leaves it: 10 columns, 7 rows, tile size
    300, zoom 1, the first grid drawn. *)
Definition page : Viewer.State binary64 :=
  Viewer.initializePaper (of_Z 900) (of_Z 600) "300".

(** Five data rows, the third with a coordinates field that is no JSON. *)
Definition schema_rows : string :=
  csv_lines
    [ "coordinates,color_r,color_g,color_b"%string;
      (quoted "[(0,0),(300,0),(300,300)]" ++ ",0.5,0.5,0.5")%string;
      (quoted "[(0,0),(300,0),(300,300)]" ++ ",0,0,0")%string;
      (quoted "[(0,0),(300,0),oops]" ++ ",1,2,3")%string;
      (quoted "[(0,0),(300,0),(300,300)]" ++ ",10,200,30")%string;
      (quoted "[(0,0),(300,0),(300,300),(0,300)]" ++ ",1,0,0.5")%string ].

(** The same rows in the viewer's layout. *)
Definition fixed_rows : string :=
  csv_lines
    [ (quoted "(0,0),(300,0),(300,300)" ++ ",0.5,0.5,0.5")%string;
      (quoted "(0,0),(300,0),(300,300)" ++ ",0,0,0")%string;
      (quoted "(0,0),(300,0),oops" ++ ",1,2,3")%string;
      (quoted "(0,0),(300,0),(300,300)" ++ ",10,200,30")%string;
      (quoted "(0,0),(300,0),(300,300),(0,300)" ++ ",1,0,0.5")%string ].

(** A row with one field where the header has four, and a row with two
    vertices. *)
Definition short_rows : string :=
  csv_lines
    [ "coordinates,color_r,color_g,color_b"%string;
      quoted "[(0,0),(300,0),(300,300)]";
      (quoted "[(0,0),(300,0)]" ++ ",255,0,0")%string ].

(** A text whose header names no coordinates column. *)
Definition no_coordinates : string :=
  csv_lines [ "id,colour"%string; "1,red"%string ].

(** A triangle in world coordinates, and the page after it was created
    in red. *)
Definition triangle : jsval binary64 :=
  VArr [ VArr [VNum (of_Z 0); VNum (of_Z 0)];
         VArr [VNum (of_Z 300); VNum (of_Z 0)];
         VArr [VNum (of_Z 300); VNum (of_Z 300)] ].

Definition page_with_triangle : Viewer.State binary64 :=
  fst (Viewer.createPolygon triangle (of_Z 255) (of_Z 0) (of_Z 0) page).

(** The fills of paths created with the given channels. *)
Definition colours (l : list (Z * Z * Z)) : list (option (Viewer.Color binary64)) :=
  map (fun '(r, g, b) => Some (fill_of (of_Z r, of_Z g, of_Z b))) l.

(** A wheel event that zooms in and one that zooms out, at the same
    cursor position. *)
Definition wheel_in : Viewer.WheelEvent binary64 :=
  {| Viewer.delta := of_Z (-3);
     Viewer.mousePosition := {| Viewer.x := of_Z 100; Viewer.y := of_Z 50 |} |}.

Definition wheel_out : Viewer.WheelEvent binary64 :=
  {| Viewer.delta := of_Z 3;
     Viewer.mousePosition := {| Viewer.x := of_Z 100; Viewer.y := of_Z 50 |} |}.

(** * The vocabulary of the further properties

    What the properties of the last part of the file are stated with: texts
    and headers, the pages that an action can leave, the canvas in exact
    arithmetic, and the servo sweep. *)

(** ** Texts and headers *)

(** The character [c] occurs in [s]. *)
Fixpoint mentions (c : ascii) (s : string) : bool :=
  match s with
  | EmptyString => false
  | String a r => Ascii.eqb a c || mentions c r
  end.

(** A field free of double quotes. *)
Definition quote_free (s : string) : bool := negb (mentions "034" s).

(** A header name that the loaders take for the coordinates column. *)
Definition names_coordinates (h : string) : bool :=
  includes h "coordinates" || includes h "polygon_coords".

(** [k] is the index that a loop [if (test(header[i])) index = i] over the
    whole header leaves in a variable that starts at -1: -1 when no name
    passes the test, and otherwise the index of the last name that does. *)
Definition last_match (test : string -> bool) (header : list string) (k : Z) : Prop :=
  (k = (-1)%Z /\ Forall (fun name => test (toLowerCase name) = false) header)
  \/ ((0 <= k < Z.of_nat (List.length header))%Z
      /\ (exists name, nth_error header (Z.to_nat k) = Some name
                       /\ test (toLowerCase name) = true)
      /\ Forall (fun name => test (toLowerCase name) = false)
                (skipn (S (Z.to_nat k)) header)).

(** A text that [trim] leaves as it is. *)
Definition trimmed (s : string) : Prop := trim s = s.

(** A line that is not blank. *)
Definition has_text (line : string) : bool :=
  match trim line with EmptyString => false | _ => true end.

(** The loop [if (test(header[i])) index = i] from index [i] on, the
    variable holding [index] so far. *)
Fixpoint scan (test : string -> bool) (header : list string) (i index : Z) : Z :=
  match header with
  | [] => index
  | name :: rest => scan test rest (i + 1)%Z (if test (toLowerCase name) then i else index)
  end.

(** A text that does not start with a space. *)
Definition no_leading_space (s : string) : bool :=
  match s with String c _ => negb (is_space c) | EmptyString => true end.

(** ** Running pages *)

Section Pages.
Context {num : Type} `{Number num}.
Implicit Types (s : Viewer.State num) (p : Viewer.Path num) (v coords : jsval num).

(** The number that [v[i] * scale] multiplies, for a vertex [v] that is
    not null. *)
Definition component v (i : nat) : num :=
  match index v i with
  | Some element => to_number_opt element
  | None => NaN
  end.

(** The screen point of the world vertex [v]:
    (offsetX + v[0] * scale, offsetY + v[1] * scale). *)
Definition placed (t : Viewer.Transform num) v : Viewer.Point num :=
  {| Viewer.x := (Viewer.offsetX t + component v 0 * Viewer.scale t)%js;
     Viewer.y := (Viewer.offsetY t + component v 1 * Viewer.scale t)%js |}.

(** The transform of the page as it is: the grid dimensions and the tile
    size read from the input. *)
Definition layout s : Viewer.Transform num :=
  Viewer.transform (Viewer.gridColumns s) (Viewer.gridRows s) (Viewer.tileSize_of_input s).

(** A path whose vertices can all be read and whose segments are its world
    vertices under the transform [t], one segment for each vertex. *)
Definition sound_path (t : Viewer.Transform num) p : Prop :=
  forallb not_null (Viewer.originalCoords p) = true
  /\ Viewer.segments p = map (placed t) (Viewer.originalCoords p).

(** Every polygon is where the transform of the page puts it. *)
Definition in_place s : Prop :=
  Forall (fun p => Viewer.segments p = map (placed (layout s)) (Viewer.originalCoords p))
         (Viewer.polygonPaths s).

(** Two states with the same grid, the same input and the same view. *)
Definition same_page s s' : Prop :=
  Viewer.gridLines s' = Viewer.gridLines s
  /\ Viewer.gridBackground s' = Viewer.gridBackground s
  /\ Viewer.gridColumns s' = Viewer.gridColumns s
  /\ Viewer.gridRows s' = Viewer.gridRows s
  /\ Viewer.tileSizeInput s' = Viewer.tileSizeInput s
  /\ Viewer.zoom s' = Viewer.zoom s
  /\ Viewer.center s' = Viewer.center s.

(** [s'] is [s] with polygons added after the ones it has, each of them
    sound for the transform of the page. *)
Definition grows s s' : Prop :=
  same_page s s'
  /\ exists added, Viewer.polygonPaths s' = (Viewer.polygonPaths s ++ added)%list
                   /\ Forall (sound_path (layout s)) added.

(** What can happen on a page: a grid operation, a call of
    [createPolygon] or [clearPolygons], a file given to one of the three
    loaders, a turn of the mouse wheel, a drag. *)
Inductive action : Type :=
| Grid (op : grid_operation num)
| CreatePolygon (coords : jsval num) (r g b : num)
| ClearPolygons
| LoadViewer (csvText : string)
| LoadAppend (csv : string)
| LoadReplace (csv : string)
| MouseWheel (event : Viewer.WheelEvent num)
| MouseDrag (event_delta : Viewer.Point num).

Definition perform (a : action) s : completion (Viewer.State num) :=
  match a with
  | Grid op => run op s
  | CreatePolygon coords r g b => Normal (fst (Viewer.createPolygon coords r g b s))
  | ClearPolygons => Normal (Viewer.clearPolygons s)
  | LoadViewer csvText => Normal (fst (Viewer.loadCSV csvText s))
  | LoadAppend csv => Normal (fst (Editor.loadCSV_append csv s))
  | LoadReplace csv => Normal (fst (Editor.loadCSV_replace csv s))
  | MouseWheel event => Normal (Viewer.onMouseWheel event s)
  | MouseDrag event_delta => Normal (Viewer.onMouseDrag event_delta s)
  end.

(** The actions [acts] in order, each on the state the one before left. *)
Definition performs (acts : list action) s : Viewer.State num :=
  fold_left (fun s a => state_of (perform a s)) acts s.

(** The grid operations that end with a reprojection of the polygons. *)
Definition reprojects (op : grid_operation num) s : bool :=
  match op with
  | AddColumn | AddRow | UpdatePolygonPositions => true
  | RemoveColumn => (1 <? Viewer.gridColumns s)%Z
  | RemoveRow => (1 <? Viewer.gridRows s)%Z
  | DrawGrid _ | UpdateGrid => false
  end.

Definition view_event (a : action) : bool :=
  match a with MouseWheel _ | MouseDrag _ => true | _ => false end.

End Pages.

Arguments action num : clear implicits.

(** A page with a polygon that has no segments yet, as a page is whose
    polygons were stored without being drawn. *)
Definition stale_page : Viewer.State binary64 :=
  {| Viewer.polygonPaths :=
       [ {| Viewer.originalCoords := [VArr [VNum (of_Z 0); VNum (of_Z 0)];
                                      VArr [VNum (of_Z 300); VNum (of_Z 150)]];
            Viewer.segments := [];
            Viewer.closed := true;
            Viewer.fillColor := None;
            Viewer.strokeColor := None;
            Viewer.strokeWidth := of_Z 1 |} ];
     Viewer.gridLines := [];
     Viewer.gridBackground := None;
     Viewer.gridColumns := 10;
     Viewer.gridRows := 7;
     Viewer.tileSizeInput := "150";
     Viewer.zoom := of_Z 1;
     Viewer.center := {| Viewer.x := of_Z 450; Viewer.y := of_Z 300 |};
     Viewer.calls := [] |}.

(** ** The canvas, in exact arithmetic *)

(** A finite number between [lo] and [hi]. *)
Definition between (lo hi : Q) (n : exact) : Prop :=
  match n with
  | EFin q => (lo <= q)%Q /\ (q <= hi)%Q
  | _ => False
  end.

(** A point of the 900 by 600 canvas. *)
Definition on_canvas (p : Viewer.Point exact) : Prop :=
  between 0 900 (Viewer.x p) /\ between 0 600 (Viewer.y p).

(** A transform with no NaN and no infinity in it. *)
Definition finite_transform (t : Viewer.Transform exact) : Prop :=
  exists sc dw dh ox oy : Q,
    t = {| Viewer.scale := EFin sc; Viewer.displayWidth := EFin dw;
           Viewer.displayHeight := EFin dh;
           Viewer.offsetX := EFin ox; Viewer.offsetY := EFin oy |}.

(** The vertex (x, y) as [JSON.parse] and the viewer's loader build it. *)
Definition vertex {num} (x y : num) : jsval num := VArr [VNum x; VNum y].

(** A page of the exact arithmetic with a grid of 4 by 3 and the text
    [input] in the tile-size input. *)
Definition exact_page (input : string) : Viewer.State exact :=
  Viewer.with_dimensions 4 3 (Viewer.initializePaper (of_Z 900) (of_Z 600) input).

(** The same page zoomed to 3/2 and centred on (400, 250), and a wheel
    event at the cursor position (100, 50). *)
Definition zoomed_page : Viewer.State exact :=
  Viewer.with_view (EFin (3 # 2)) {| Viewer.x := EFin 400; Viewer.y := EFin 250 |}
                   (exact_page "300").

Definition exact_wheel (event_delta : exact) : Viewer.WheelEvent exact :=
  {| Viewer.delta := event_delta;
     Viewer.mousePosition := {| Viewer.x := EFin 100; Viewer.y := EFin 50 |} |}.

(** ** Colours and vertices *)

(** The test of the second [if] on the channels: r === 0 && g === 0 &&
    b === 0. *)
Definition all_zero {num} `{Number num} (rgb : num * num * num) : bool :=
  let '(r, g, b) := rgb in
  ((r =? of_Z 0)%js && (g =? of_Z 0)%js && (b =? of_Z 0)%js)%bool.

(** [new paper.Color(1, 1, 1)] *)
Definition white_fill : Viewer.Color binary64 :=
  {| Viewer.red := of_Z 1; Viewer.green := of_Z 1; Viewer.blue := of_Z 1;
     Viewer.alpha := None |}.

(** A vertex of two numbers, neither of them NaN. *)
Definition number_pair {num} `{Number num} (v : jsval num) : Prop :=
  exists x y : num, v = vertex x y /\ isNaN x = false /\ isNaN y = false.

(** Columns for a header that names the coordinates first and no colour. *)
Definition coordinates_only : Editor.Columns :=
  {| Editor.coordsIndex := 0; Editor.colorRIndex := -1;
     Editor.colorGIndex := -1; Editor.colorBIndex := -1 |}.

(** ** The sweep *)

(** An effect that the sweep may have: an angle from 79 to 121 written to
    the servo, the number 121 printed, anything else of another kind. *)
Definition sweep_effect (e : Knob.effect) : Prop :=
  match e with
  | Knob.ServoWrite angle => (79 <= angle <= 121)%Z
  | Knob.Println value => value = 121%Z
  | _ => True
  end.

(** The sweep goes up between 79 and 120 and down between 80 and 121. *)
Definition sweeping (s : Knob.State) : Prop :=
  (Knob.ford s = 1%Z /\ (79 <= Knob.ii s <= 120)%Z)
  \/ (Knob.ford s = 0%Z /\ (80 <= Knob.ii s <= 121)%Z).

(** * Properties *)

Local Open Scope list_scope.

(** ** Frame lemmas of the viewer's methods *)

Section Frames.
Context {num : Type} `{Number num}.
Implicit Types (s : Viewer.State num) (p : Viewer.Path num) (t : Viewer.Transform num).

Lemma reproject_kept t p : kept (fst (Viewer.reproject t p)) = kept p.
Proof.
  unfold Viewer.reproject, kept.
  destruct (Viewer.add_points t (Viewer.originalCoords p) []) as [segs fin].
  destruct fin; simpl; [|reflexivity].
  destruct (Viewer.fillColor p), (Viewer.strokeColor p),
    (Viewer.truthy (Viewer.strokeWidth p)); reflexivity.
Qed.

Lemma reproject_again t p :
  Viewer.reproject t (fst (Viewer.reproject t p)) = Viewer.reproject t p.
Proof.
  unfold Viewer.reproject.
  destruct (Viewer.add_points t (Viewer.originalCoords p) []) as [segs fin] eqn:E.
  destruct fin; simpl; rewrite E; [|reflexivity].
  destruct (Viewer.fillColor p), (Viewer.strokeColor p),
    (Viewer.truthy (Viewer.strokeWidth p)) eqn:W; simpl; rewrite ?W; reflexivity.
Qed.

Lemma reproject_all_kept t ps :
  map kept (fst (Viewer.reproject_all t ps)) = map kept ps.
Proof.
  induction ps as [|p ps IH]; simpl; [reflexivity|].
  pose proof (reproject_kept t p) as K.
  destruct (Viewer.reproject t p) as [p' fin]; simpl in K.
  destruct fin.
  - destruct (Viewer.reproject_all t ps) as [ps' fin']; simpl in *.
    now rewrite K, IH.
  - simpl. now rewrite K.
Qed.

Lemma reproject_all_again t ps :
  fst (Viewer.reproject_all t (fst (Viewer.reproject_all t ps)))
  = fst (Viewer.reproject_all t ps).
Proof.
  induction ps as [|p ps IH]; simpl; [reflexivity|].
  pose proof (reproject_again t p) as A.
  destruct (Viewer.reproject t p) as [p' fin]; simpl in A.
  destruct fin.
  - destruct (Viewer.reproject_all t ps) as [ps' fin']; simpl in *.
    rewrite A.
    destruct (Viewer.reproject_all t ps') as [ps'' fin'']; simpl in *.
    now rewrite IH.
  - simpl. now rewrite A.
Qed.

(** [updatePolygonPositions] touches the paths and nothing else. *)
Lemma updatePolygonPositions_state s :
  state_of (Viewer.updatePolygonPositions s)
  = Viewer.with_polygonPaths
      (fst (Viewer.reproject_all
              (Viewer.transform (Viewer.gridColumns s) (Viewer.gridRows s)
                                (Viewer.tileSize_of_input s))
              (Viewer.polygonPaths s)))
      (Viewer.record_call Viewer.CallUpdatePolygonPositions s).
Proof.
  unfold Viewer.updatePolygonPositions. cbn [Viewer.record_call Viewer.gridColumns
    Viewer.gridRows Viewer.polygonPaths].
  change (Viewer.tileSize_of_input (Viewer.record_call _ s))
    with (Viewer.tileSize_of_input s).
  destruct (Viewer.reproject_all _ _) as [ps fin]; destruct fin; reflexivity.
Qed.

End Frames.

(** ** The grid floor, the layout passes and their order *)

Section Layout.
Context {num : Type} `{Number num}.
Implicit Types (s : Viewer.State num).

Lemma redraw_dimensions s :
  Viewer.gridColumns (state_of (Viewer.redraw s)) = Viewer.gridColumns s
  /\ Viewer.gridRows (state_of (Viewer.redraw s)) = Viewer.gridRows s.
Proof.
  unfold Viewer.redraw. rewrite updatePolygonPositions_state. split; reflexivity.
Qed.

(** C4.  The grid starts with 10 columns and 7 rows; every grid operation
    keeps both dimensions at 1 or more, however it completes; and at one
    column (one row) [removeColumn] ([removeRow]) returns normally with the
    state it was given. *)
Theorem grid_dimensions_floor :
  forall (viewWidth viewHeight : num) (input : string) s (op : grid_operation num),
    grid_ok s ->
    grid_ok (Viewer.initializePaper viewWidth viewHeight input)
    /\ grid_ok (state_of (run op s))
    /\ (Viewer.gridColumns s = 1%Z -> Viewer.removeColumn s = Normal s)
    /\ (Viewer.gridRows s = 1%Z -> Viewer.removeRow s = Normal s).
Proof.
  intros vw vh input s op [Hc Hr]. unfold grid_ok in *. repeat split.
  - simpl. lia.
  - simpl. lia.
  - destruct op; simpl.
    + unfold Viewer.addColumn. rewrite (proj1 (redraw_dimensions _)). simpl. lia.
    + unfold Viewer.removeColumn. destruct (1 <? Viewer.gridColumns s)%Z eqn:E; simpl.
      * rewrite (proj1 (redraw_dimensions _)). simpl. apply Z.ltb_lt in E. lia.
      * exact Hc.
    + unfold Viewer.addRow. rewrite (proj1 (redraw_dimensions _)). simpl. exact Hc.
    + unfold Viewer.removeRow. destruct (1 <? Viewer.gridRows s)%Z; simpl.
      * rewrite (proj1 (redraw_dimensions _)). simpl. exact Hc.
      * exact Hc.
    + exact Hc.
    + rewrite updatePolygonPositions_state. exact Hc.
    + exact Hc.
  - destruct op; simpl.
    + unfold Viewer.addColumn. rewrite (proj2 (redraw_dimensions _)). simpl. exact Hr.
    + unfold Viewer.removeColumn. destruct (1 <? Viewer.gridColumns s)%Z; simpl.
      * rewrite (proj2 (redraw_dimensions _)). simpl. exact Hr.
      * exact Hr.
    + unfold Viewer.addRow. rewrite (proj2 (redraw_dimensions _)). simpl. lia.
    + unfold Viewer.removeRow. destruct (1 <? Viewer.gridRows s)%Z eqn:E; simpl.
      * rewrite (proj2 (redraw_dimensions _)). simpl. apply Z.ltb_lt in E. lia.
      * exact Hr.
    + exact Hr.
    + rewrite updatePolygonPositions_state. exact Hr.
    + exact Hr.
  - intros E. unfold Viewer.removeColumn. rewrite E. reflexivity.
  - intros E. unfold Viewer.removeRow. rewrite E. reflexivity.
Qed.

(** C7.  After any number of reprojection passes every path has the world
    coordinates, fill colour, stroke colour, stroke width and closed flag
    it had before, and the paths are as many; a pass writes the segments
    only. *)
Theorem reprojection_keeps_world_coordinates :
  forall s (n : nat),
    map Viewer.originalCoords (Viewer.polygonPaths (passes n s))
      = map Viewer.originalCoords (Viewer.polygonPaths s)
    /\ map Viewer.fillColor (Viewer.polygonPaths (passes n s))
      = map Viewer.fillColor (Viewer.polygonPaths s)
    /\ map Viewer.strokeColor (Viewer.polygonPaths (passes n s))
      = map Viewer.strokeColor (Viewer.polygonPaths s)
    /\ map Viewer.strokeWidth (Viewer.polygonPaths (passes n s))
      = map Viewer.strokeWidth (Viewer.polygonPaths s)
    /\ map Viewer.closed (Viewer.polygonPaths (passes n s))
      = map Viewer.closed (Viewer.polygonPaths s).
Proof.
  intros s n.
  assert (K : map kept (Viewer.polygonPaths (passes n s))
              = map kept (Viewer.polygonPaths s)).
  { induction n as [|n IH]; [reflexivity|].
    unfold passes in *. simpl. rewrite updatePolygonPositions_state. simpl.
    rewrite reproject_all_kept. exact IH. }
  pose proof (f_equal (map (fun k => fst (fst (fst (fst k))))) K) as K1.
  pose proof (f_equal (map (fun k => snd (fst (fst (fst k))))) K) as K2.
  pose proof (f_equal (map (fun k => snd (fst (fst k)))) K) as K3.
  pose proof (f_equal (map (fun k => snd (fst k))) K) as K4.
  pose proof (f_equal (map (fun k => snd k)) K) as K5.
  rewrite !map_map in K1, K2, K3, K4, K5.
  repeat split; assumption.
Qed.

(** C9.  With the columns, rows, tile-size input and paths unchanged, a
    second rebuild-then-reproject leaves on the screen exactly what the
    first left, and so does a second [drawGrid] with the same tile size and
    a second [updatePolygonPositions].  This holds for every number
    arithmetic, that of the doubles included: equal means the same bits. *)
Theorem layout_passes_idempotent :
  forall s (tileSize : num),
    screen (state_of (Viewer.redraw (state_of (Viewer.redraw s))))
      = screen (state_of (Viewer.redraw s))
    /\ screen (Viewer.drawGrid tileSize (Viewer.drawGrid tileSize s))
      = screen (Viewer.drawGrid tileSize s)
    /\ screen (state_of (Viewer.updatePolygonPositions
                           (state_of (Viewer.updatePolygonPositions s))))
      = screen (state_of (Viewer.updatePolygonPositions s)).
Proof.
  intros s tileSize. split; [|split].
  - unfold Viewer.redraw. rewrite !updatePolygonPositions_state.
    unfold screen. simpl.
    change (Viewer.tileSize_of_input (Viewer.drawGrid _ (Viewer.with_polygonPaths _ _)))
      with (Viewer.tileSize_of_input s).
    change (Viewer.tileSize_of_input (Viewer.with_polygonPaths _ _))
      with (Viewer.tileSize_of_input s).
    change (Viewer.tileSize_of_input (Viewer.drawGrid _ s))
      with (Viewer.tileSize_of_input s).
    now rewrite reproject_all_again.
  - reflexivity.
  - rewrite !updatePolygonPositions_state. unfold screen. simpl.
    change (Viewer.tileSize_of_input (Viewer.with_polygonPaths _ _))
      with (Viewer.tileSize_of_input s).
    now rewrite reproject_all_again.
Qed.

End Layout.

(** ** The loaders *)

Section Loads.
Context {num : Type} `{Number num}.
Implicit Types (s : Viewer.State num) (t : Viewer.Transform num) (v coords : jsval num).

Lemma add_points_finished t (l : list (jsval num)) :
  forall segs, snd (Viewer.add_points t l segs) = forallb not_null l.
Proof.
  induction l as [|v l IH]; intros segs; simpl; [reflexivity|].
  destruct v; simpl; try apply IH. reflexivity.
Qed.

Lemma new_path_spec t coords (r g b : num) :
  match Viewer.new_path t coords r g b with
  | Some p =>
      creatable coords = true
      /\ coords = VArr (Viewer.originalCoords p)
      /\ Viewer.fillColor p
         = Some {| Viewer.red := (r / of_Z 255)%js; Viewer.green := (g / of_Z 255)%js;
                   Viewer.blue := (b / of_Z 255)%js; Viewer.alpha := None |}
  | None => creatable coords = false
  end.
Proof.
  destruct coords as [| |n|l|]; try reflexivity.
  destruct l as [|v l]; [reflexivity|].
  unfold Viewer.new_path.
  change (index (VArr (v :: l)) 0) with (Some (Some v)).
  destruct (index v 0) eqn:Ev.
  - pose proof (add_points_finished t (v :: l) []) as F.
    destruct (Viewer.add_points t (v :: l) []) as [segs fin]. simpl in F.
    destruct fin.
    + rewrite Ev. cbn [Viewer.originalCoords Viewer.fillColor creatable].
      split; [symmetry; exact F | split; reflexivity].
    + rewrite Ev. cbn [creatable]. symmetry. exact F.
  - destruct v; try discriminate. reflexivity.
Qed.

(** [createPolygon] succeeds on the creatable arrays and on nothing else,
    whatever the colour and the state. *)
Lemma createPolygon_returns coords (r g b : num) s :
  snd (Viewer.createPolygon coords r g b s) = creatable coords.
Proof.
  unfold Viewer.createPolygon.
  pose proof (new_path_spec
    (Viewer.transform (Viewer.gridColumns s) (Viewer.gridRows s)
       (Viewer.tileSize_of_input s)) coords r g b) as P.
  destruct (Viewer.new_path _ coords r g b); simpl; [symmetry; apply P | symmetry; exact P].
Qed.

(** The state [createPolygon] leaves: one more call on record, and one
    more path, with the array as its world coordinates, when it succeeds. *)
Lemma createPolygon_state coords (r g b : num) s :
  let s' := fst (Viewer.createPolygon coords r g b s) in
  Viewer.calls s' = Viewer.calls s ++ [Viewer.CallCreatePolygon (creatable coords)]
  /\ Viewer.gridColumns s' = Viewer.gridColumns s
  /\ Viewer.gridRows s' = Viewer.gridRows s
  /\ Viewer.tileSizeInput s' = Viewer.tileSizeInput s
  /\ map (fun p => VArr (Viewer.originalCoords p)) (Viewer.polygonPaths s')
     = map (fun p => VArr (Viewer.originalCoords p)) (Viewer.polygonPaths s)
       ++ (if creatable coords then [coords] else [])
  /\ map Viewer.fillColor (Viewer.polygonPaths s')
     = map Viewer.fillColor (Viewer.polygonPaths s)
       ++ (if creatable coords
           then [Some {| Viewer.red := (r / of_Z 255)%js; Viewer.green := (g / of_Z 255)%js;
                         Viewer.blue := (b / of_Z 255)%js; Viewer.alpha := None |}]
           else []).
Proof.
  unfold Viewer.createPolygon.
  pose proof (new_path_spec
    (Viewer.transform (Viewer.gridColumns s) (Viewer.gridRows s)
       (Viewer.tileSize_of_input s)) coords r g b) as P.
  destruct (Viewer.new_path _ coords r g b) as [p|]; simpl.
  - destruct P as (C & O & F). rewrite C, !map_app. simpl. rewrite <- O, F. auto 10.
  - rewrite P, !app_nil_r. auto 10.
Qed.

(** *** Passes return on the states of a running page *)

Lemma reproject_finishes t (p : Viewer.Path num) :
  snd (Viewer.reproject t p) = forallb not_null (Viewer.originalCoords p).
Proof.
  unfold Viewer.reproject.
  pose proof (add_points_finished t (Viewer.originalCoords p) []) as F.
  destruct (Viewer.add_points t (Viewer.originalCoords p) []) as [segs fin].
  simpl in F. subst fin. now destruct (forallb not_null _).
Qed.

Lemma reproject_all_finishes t (ps : list (Viewer.Path num)) :
  Forall (fun l => forallb not_null l = true) (map (@Viewer.originalCoords num) ps) ->
  snd (Viewer.reproject_all t ps) = true.
Proof.
  induction ps as [|p ps IH]; intros W; [reflexivity|].
  inversion W as [|l ls Hp Hps]; subst. simpl.
  pose proof (reproject_finishes t p) as F. rewrite Hp in F.
  destruct (Viewer.reproject t p) as [p' fin]. simpl in F. subst fin.
  specialize (IH Hps).
  destruct (Viewer.reproject_all t ps) as [ps' fin']. exact IH.
Qed.

Lemma updatePolygonPositions_returns s :
  well_formed s ->
  Viewer.updatePolygonPositions s = Normal (state_of (Viewer.updatePolygonPositions s)).
Proof.
  intros W. unfold Viewer.updatePolygonPositions.
  pose proof (reproject_all_finishes
    (Viewer.transform (Viewer.gridColumns (Viewer.record_call Viewer.CallUpdatePolygonPositions s))
       (Viewer.gridRows (Viewer.record_call Viewer.CallUpdatePolygonPositions s))
       (Viewer.tileSize_of_input (Viewer.record_call Viewer.CallUpdatePolygonPositions s)))
    (Viewer.polygonPaths s) W) as F.
  cbn [Viewer.polygonPaths Viewer.record_call] in *.
  destruct (Viewer.reproject_all _ (Viewer.polygonPaths s)) as [ps fin].
  simpl in F. subst fin. reflexivity.
Qed.

Lemma updatePolygonPositions_well_formed s :
  well_formed s -> well_formed (state_of (Viewer.updatePolygonPositions s)).
Proof.
  unfold well_formed. rewrite updatePolygonPositions_state. cbn [Viewer.polygonPaths
    Viewer.with_polygonPaths].
  pose proof (reproject_all_kept
    (Viewer.transform (Viewer.gridColumns s) (Viewer.gridRows s) (Viewer.tileSize_of_input s))
    (Viewer.polygonPaths s)) as K.
  apply (f_equal (map (fun k => fst (fst (fst (fst k)))))) in K.
  rewrite !map_map in K. cbn [kept fst] in K.
  rewrite !(map_ext _ (@Viewer.originalCoords num)) in K by reflexivity.
  now rewrite K.
Qed.

Lemma createPolygon_well_formed coords (r g b : num) s :
  well_formed s -> well_formed (fst (Viewer.createPolygon coords r g b s)).
Proof.
  unfold well_formed, Viewer.createPolygon. intros W.
  pose proof (new_path_spec
    (Viewer.transform (Viewer.gridColumns s) (Viewer.gridRows s)
       (Viewer.tileSize_of_input s)) coords r g b) as P.
  destruct (Viewer.new_path _ coords r g b) as [p|]; cbn [fst Viewer.polygonPaths
    Viewer.record_call Viewer.with_polygonPaths]; [|exact W].
  destruct P as (C & O & _). rewrite map_app. apply Forall_app. split; [exact W|].
  constructor; [|constructor]. rewrite O in C. unfold creatable in C.
  destruct (Viewer.originalCoords p); [discriminate C | exact C].
Qed.

(** The page as [initializePaper] leaves it is well formed, and the grid
    methods keep it so and return. *)
Lemma grid_methods_return (op : grid_operation num) s :
  well_formed s ->
  run op s = Normal (state_of (run op s)) /\ well_formed (state_of (run op s)).
Proof.
  intros W.
  assert (R : forall s0, well_formed s0 ->
              Viewer.redraw s0 = Normal (state_of (Viewer.redraw s0))
              /\ well_formed (state_of (Viewer.redraw s0))).
  { intros s0 W0. unfold Viewer.redraw. split.
    - now apply updatePolygonPositions_returns.
    - now apply updatePolygonPositions_well_formed. }
  destruct op; cbn [run].
  - now apply R.
  - unfold Viewer.removeColumn. destruct (1 <? Viewer.gridColumns s)%Z;
      [now apply R | now split].
  - now apply R.
  - unfold Viewer.removeRow. destruct (1 <? Viewer.gridRows s)%Z;
      [now apply R | now split].
  - now split.
  - split; [now apply updatePolygonPositions_returns
           | now apply updatePolygonPositions_well_formed].
  - now split.
Qed.

(** *** Rows of the schema loaders *)

Lemma tally_all (os : list outcome) :
  forall c,
    fold_left (fun c o => tally o c) os c
    = {| Editor.polygonCount := Editor.polygonCount c + List.length (filter accepted os);
         Editor.errorCount := Editor.errorCount c + List.length (filter errored os) |}.
Proof.
  induction os as [|o os IH]; intros [pc ec]; simpl.
  - now rewrite !Nat.add_0_r.
  - rewrite IH. destruct o; simpl; f_equal; lia.
Qed.

(** One line: the counters move as the outcome says, the only call made
    is [createPolygon], and a path is added exactly when the line is
    accepted. *)
Lemma process_row_spec (hl : nat) (cols : Editor.Columns) (line : string) s c :
  let after := Editor.process_row hl cols line (s, c) in
  snd after = tally (row_outcome hl cols line) c
  /\ (exists made, Viewer.calls (fst after)
                   = Viewer.calls s ++ map (@Viewer.CallCreatePolygon num) made)
  /\ List.length (Viewer.polygonPaths (fst after))
     = (List.length (Viewer.polygonPaths s)
        + (if accepted (row_outcome hl cols line) then 1 else 0))%nat.
Proof.
  unfold Editor.process_row, row_outcome, coordinates_text.
  destruct (List.length (Editor.parseCSVRowJS line) <? hl)%nat.
  { simpl. split; [reflexivity|]. split; [exists []; now rewrite app_nil_r | lia]. }
  destruct (JSON_parse _) as [coords|].
  2:{ simpl. split; [reflexivity|]. split; [exists []; now rewrite app_nil_r | lia]. }
  destruct (Editor.length_below_3 coords) as [[|]|].
  1,3: simpl; (split; [reflexivity|]); (split; [exists []; now rewrite app_nil_r | lia]).
  destruct (Editor.normalize _) as [[r g] b].
  pose proof (createPolygon_returns coords r g b s) as R.
  pose proof (createPolygon_state coords r g b s) as (C & _ & _ & _ & O & _).
  destruct (Viewer.createPolygon coords r g b s) as [s' ok]. simpl in R, C, O. subst ok.
  apply (f_equal (@List.length _)) in O. rewrite length_app, !length_map in O.
  destruct (creatable coords); simpl in *.
  - split; [reflexivity|]. split; [exists [true]; exact C | exact O].
  - split; [reflexivity|]. split; [exists [false]; exact C | exact O].
Qed.

Lemma process_rows_spec (hl : nat) (cols : Editor.Columns) (lines : list string) :
  forall s c,
    let after := fold_left (fun acc line => Editor.process_row hl cols line acc) lines (s, c) in
    snd after = fold_left (fun c o => tally o c) (map (row_outcome hl cols) lines) c
    /\ (exists made, Viewer.calls (fst after)
                     = Viewer.calls s ++ map (@Viewer.CallCreatePolygon num) made)
    /\ List.length (Viewer.polygonPaths (fst after))
       = (List.length (Viewer.polygonPaths s)
          + List.length (filter accepted (map (row_outcome hl cols) lines)))%nat.
Proof.
  induction lines as [|line lines IH]; intros s c; cbv zeta in *;
    cbn [fold_left map fst snd].
  - split; [reflexivity|]. split; [exists []; now rewrite app_nil_r | simpl; lia].
  - pose proof (process_row_spec hl cols line s c) as (P1 & (m1 & P2) & P3).
    destruct (Editor.process_row hl cols line (s, c)) as [s1 c1].
    cbn [fst snd] in P1, P2, P3.
    specialize (IH s1 c1). destruct IH as (I1 & (m2 & I2) & I3).
    split; [now rewrite I1, P1|].
    split.
    + exists (m1 ++ m2). now rewrite I2, P2, map_app, app_assoc.
    + rewrite I3, P3. cbn [filter].
      destruct (accepted (row_outcome hl cols line)); simpl; lia.
Qed.

(** The two loops of the loaders together go over every line after the
    header, in order. *)
Lemma two_loops {A B} (step : A -> B -> A) (lines : list B) (a : A) :
  fold_left step (skipn 6 lines) (fold_left step (firstn 5 (skipn 1 lines)) a)
  = fold_left step (skipn 1 lines) a.
Proof.
  rewrite <- fold_left_app. f_equal.
  replace (skipn 6 lines) with (skipn 5 (skipn 1 lines)).
  - apply firstn_skipn.
  - destruct lines; [reflexivity|]. reflexivity.
Qed.

(** [load_lines] without the split into two loops. *)
Lemma load_lines_spec (csv : string) s :
  let lines := Editor.lines_of csv in
  let header := Editor.header_of lines in
  let cols := Editor.find_columns header 0%Z Editor.no_columns in
  Editor.load_lines csv s
  = if (List.length lines <? 2)%nat then (s, Editor.NotEnoughLines)
    else if (Editor.coordsIndex cols =? -1)%Z then (s, Editor.NoCoordinatesColumn)
    else
      let after := fold_left (fun acc line =>
                                Editor.process_row (List.length header) cols line acc)
                             (skipn 1 lines) (s, no_counts) in
      (fst after, Editor.Finished (snd after)).
Proof.
  cbv zeta. unfold Editor.load_lines.
  destruct (List.length (Editor.lines_of csv) <? 2)%nat; [reflexivity|].
  destruct (Editor.coordsIndex _ =? -1)%Z; [reflexivity|].
  rewrite two_loops. fold no_counts.
  destruct (fold_left _ _ _) as [s' c']. reflexivity.
Qed.

(** *** Rows of the viewer's loader *)

Lemma pair_at_shift (a b : string) (rest : list string) (i : nat) :
  Viewer.pair_at (num:=num) (a :: b :: rest) (2 * S i) = Viewer.pair_at rest (2 * i).
Proof.
  replace (2 * S i)%nat with (S (S (2 * i))) by lia. reflexivity.
Qed.

Lemma pairs_shift (a b : string) (rest : list string) (k : nat) :
  forall start,
    flat_map (fun i => Viewer.pair_at (num:=num) (a :: b :: rest) (2 * i)) (seq (S start) k)
    = flat_map (fun i => Viewer.pair_at rest (2 * i)) (seq start k).
Proof.
  induction k as [|k IH]; intros start; simpl; [reflexivity|].
  rewrite IH. f_equal. apply pair_at_shift.
Qed.

Lemma coordinate_pairs_cons (a b : string) (rest : list string) :
  Viewer.coordinate_pairs (a :: b :: rest) = kept_pair a b ++ Viewer.coordinate_pairs rest.
Proof.
  unfold Viewer.coordinate_pairs.
  replace (Nat.div2 (List.length (a :: b :: rest) + 1))
    with (S (Nat.div2 (List.length rest + 1))) by reflexivity.
  cbn [seq flat_map]. rewrite pairs_shift. reflexivity.
Qed.

Lemma coordinate_pairs_not_null (l : list string) :
  forallb not_null (Viewer.coordinate_pairs (num:=num) l) = true.
Proof.
  unfold Viewer.coordinate_pairs. apply forallb_forall. intros v Hv.
  apply in_flat_map in Hv. destruct Hv as (i & _ & Hv).
  unfold Viewer.pair_at in Hv.
  destruct (_ <? _)%nat; [|contradiction].
  destruct (nth_error l (2 * i)); [|contradiction].
  destruct (nth_error l (2 * i + 1)); [|contradiction].
  destruct (_ && _); [|contradiction].
  destruct Hv as [<-|[]]. reflexivity.
Qed.

Lemma creatable_row_coords (polygonStr : string) :
  (3 <=? List.length (row_coords polygonStr))%nat = true ->
  creatable (VArr (row_coords polygonStr)) = true.
Proof.
  intros L. pose proof (coordinate_pairs_not_null
    (split "," (remove_chars Viewer.is_paren polygonStr))) as N.
  fold (row_coords polygonStr) in N.
  destruct (row_coords polygonStr); [discriminate L | exact N].
Qed.

Lemma load_row_spec (row : list string) s (n : nat) :
  let after := Viewer.load_row row (s, n) in
  snd after = (if row_loaded row then S n else n)
  /\ (exists made, Viewer.calls (fst after)
                   = Viewer.calls s ++ map (@Viewer.CallCreatePolygon num) made)
  /\ map (@Viewer.originalCoords num) (Viewer.polygonPaths (fst after))
     = map (@Viewer.originalCoords num) (Viewer.polygonPaths s)
       ++ (if row_loaded row
           then [row_coords (hd EmptyString row)] else []).
Proof.
  cbv zeta.
  assert (Same : snd (s, n) = n
                 /\ (exists made, Viewer.calls (fst (s, n))
                       = Viewer.calls s ++ map (@Viewer.CallCreatePolygon num) made)
                 /\ map (@Viewer.originalCoords num) (Viewer.polygonPaths (fst (s, n)))
                    = map (@Viewer.originalCoords num) (Viewer.polygonPaths s) ++ []).
  { split; [reflexivity|]. split; [exists []|]; simpl; now rewrite app_nil_r. }
  destruct row as [|polygonStr [|f1 [|f2 [|f3 more]]]]; try exact Same.
  unfold Viewer.load_row, row_loaded. cbn [hd].
  fold (row_coords polygonStr).
  destruct (3 <=? List.length (row_coords polygonStr))%nat eqn:L; [|exact Same].
  pose proof (creatable_row_coords polygonStr L) as C.
  set (r := or_default (parseInt f1) (of_Z 0)).
  set (g := or_default (parseInt f2) (of_Z 0)).
  set (b := or_default (parseInt f3) (of_Z 0)).
  pose proof (createPolygon_returns (VArr (row_coords polygonStr)) r g b s) as R.
  pose proof (createPolygon_state (VArr (row_coords polygonStr)) r g b s)
    as (K & _ & _ & _ & O & _).
  destruct (Viewer.createPolygon (VArr (row_coords polygonStr)) r g b s) as [s' ok].
  cbn [fst snd] in *. rewrite C in *. subst ok.
  split; [reflexivity|]. split; [exists [true]; exact K|].
  apply (f_equal (map (fun v => match v with VArr l => l | _ => [] end))) in O.
  rewrite map_app, !map_map in O. cbn [map] in O.
  rewrite !(map_ext _ (@Viewer.originalCoords num)) in O by reflexivity.
  exact O.
Qed.

Lemma load_rows_spec (rows : list (list string)) :
  forall s (n : nat),
    let after := fold_left (fun acc row => Viewer.load_row row acc) rows (s, n) in
    snd after = (n + List.length (filter row_loaded rows))%nat
    /\ (exists made, Viewer.calls (fst after)
                     = Viewer.calls s ++ map (@Viewer.CallCreatePolygon num) made).
Proof.
  induction rows as [|row rows IH]; intros s n; cbv zeta in *; cbn [fold_left filter].
  - split; [simpl; lia | exists []; simpl; now rewrite app_nil_r].
  - pose proof (load_row_spec row s n) as (P1 & (m1 & P2) & _).
    destruct (Viewer.load_row row (s, n)) as [s1 n1]. cbn [fst snd] in P1, P2.
    destruct (IH s1 n1) as (I1 & (m2 & I2)).
    split.
    + rewrite I1, P1. destruct (row_loaded row); simpl; lia.
    + exists (m1 ++ m2). now rewrite I2, P2, map_app, app_assoc.
Qed.

End Loads.

Section LoadTheorems.
Context {num : Type} `{Number num}.
Implicit Types (s : Viewer.State num).

(** C10.  In the viewer's loader the comma-separated numbers of the first
    field are taken two by two; a pair with a component that [parseFloat]
    reads as NaN is left out and the pairs after it stay aligned; a last
    number with no partner is left out; and a row with four fields or more
    becomes a polygon, with exactly the pairs that remain as its world
    coordinates, when at least 3 remain, and otherwise changes neither the
    count nor the paths.  The loader keeps no count of errors: its result
    is the state and the number of polygons loaded. *)
Theorem viewer_loader_pairs_coordinates :
  forall (polygonStr f1 f2 f3 a b : string) (more rest : list string) s (n : nat),
    let x := parseFloat (trim a) in
    let y := parseFloat (trim b) in
    let after := Viewer.load_row (polygonStr :: f1 :: f2 :: f3 :: more) (s, n) in
    let enough := (3 <=? List.length (row_coords (num:=num) polygonStr))%nat in
    Viewer.coordinate_pairs (a :: b :: rest)
      = (if isNaN x || isNaN y then [] else [VArr [VNum x; VNum y]])
        ++ Viewer.coordinate_pairs rest
    /\ Viewer.coordinate_pairs (num:=num) [a] = []
    /\ Viewer.coordinate_pairs (num:=num) [] = []
    /\ snd after = (if enough then S n else n)
    /\ map (@Viewer.originalCoords num) (Viewer.polygonPaths (fst after))
       = map (@Viewer.originalCoords num) (Viewer.polygonPaths s)
         ++ (if enough then [row_coords polygonStr] else []).
Proof.
  intros. split; [|split; [reflexivity|split; [reflexivity|]]].
  - rewrite coordinate_pairs_cons. unfold kept_pair. fold x y.
    destruct (isNaN x), (isNaN y); reflexivity.
  - pose proof (load_row_spec (polygonStr :: f1 :: f2 :: f3 :: more) s n) as (P1 & _ & P3).
    split; [exact P1 | exact P3].
Qed.

(** C5, as the code has it.  When the text has a header with a coordinates
    column and at least one more line, both schema loaders report
    [polygonCount] = the number of accepted lines and [errorCount] = the
    number of lines that ended in an error, counted over every line after
    the header, and add one path per accepted line (the replacing loader to
    the emptied set).  A line is an error when [JSON.parse] throws on its
    coordinates, when they are null, or when [createPolygon] returns false;
    a line with fewer fields than the header or with fewer than 3 vertices is
    skipped and counted nowhere ([row_outcome]).  The viewer's loader
    reports the number of rows loaded and nothing else. *)
Theorem loaders_count_rows :
  forall (csv csvText : string) s,
    let lines := Editor.lines_of csv in
    let header := Editor.header_of lines in
    let cols := Editor.find_columns header 0%Z Editor.no_columns in
    let outcomes := map (row_outcome (num:=num) (List.length header) cols) (skipn 1 lines) in
    let counts := {| Editor.polygonCount := List.length (filter accepted outcomes);
                     Editor.errorCount := List.length (filter errored outcomes) |} in
    (2 <= List.length lines)%nat ->
    Editor.coordsIndex cols <> (-1)%Z ->
    snd (Editor.loadCSV_append csv s) = Editor.Finished counts
    /\ snd (Editor.loadCSV_replace csv s) = Editor.Finished counts
    /\ List.length (Viewer.polygonPaths (fst (Editor.loadCSV_append csv s)))
       = (List.length (Viewer.polygonPaths s) + Editor.polygonCount counts)%nat
    /\ List.length (Viewer.polygonPaths (fst (Editor.loadCSV_replace csv s)))
       = Editor.polygonCount counts
    /\ snd (Viewer.loadCSV csvText s)
       = List.length (filter (row_loaded (num:=num)) (Viewer.parseCSVRowJS csvText)).
Proof.
  intros csv csvText s lines header cols outcomes counts Hlines Hcols.
  assert (L : forall s0,
             snd (Editor.load_lines csv s0) = Editor.Finished counts
             /\ List.length (Viewer.polygonPaths (fst (Editor.load_lines csv s0)))
                = (List.length (Viewer.polygonPaths s0) + Editor.polygonCount counts)%nat).
  { intros s0. rewrite load_lines_spec. fold lines header cols.
    destruct (List.length lines <? 2)%nat eqn:E; [apply Nat.ltb_lt in E; lia|].
    destruct (Editor.coordsIndex cols =? -1)%Z eqn:E'; [apply Z.eqb_eq in E'; contradiction|].
    pose proof (process_rows_spec (List.length header) cols (skipn 1 lines) s0 no_counts)
      as (P1 & _ & P3).
    cbv zeta in *. cbn [fst snd].
    rewrite P1, P3, tally_all. fold outcomes. split; reflexivity. }
  unfold Editor.loadCSV_append, Editor.loadCSV_replace.
  destruct (L s) as (A1 & A2). destruct (L (Viewer.clearPolygons s)) as (R1 & R2).
  split; [exact A1|]. split; [exact R1|]. split; [exact A2|]. split; [exact R2|].
  unfold Viewer.loadCSV.
  now rewrite (proj1 (load_rows_spec (Viewer.parseCSVRowJS csvText) s 0)).
Qed.

(** C6, as the code has it.  When the header names no coordinates column
    the load stops before any row is read.  The appending loader returns the
    state it was given; the replacing loader has called [clearPolygons] by
    then, and returns the state with the polygon set emptied and nothing
    else changed but the call on record. *)
Theorem missing_coordinates_column_aborts :
  forall (csv : string) s,
    let lines := Editor.lines_of csv in
    let cols := Editor.find_columns (Editor.header_of lines) 0%Z Editor.no_columns in
    (2 <= List.length lines)%nat ->
    Editor.coordsIndex cols = (-1)%Z ->
    Editor.loadCSV_append csv s = (s, Editor.NoCoordinatesColumn)
    /\ Editor.loadCSV_replace csv s
       = (Viewer.with_polygonPaths []
            (Viewer.record_call (@Viewer.CallClearPolygons num) s),
          Editor.NoCoordinatesColumn).
Proof.
  intros csv s lines cols Hlines Hcols.
  unfold Editor.loadCSV_append, Editor.loadCSV_replace. rewrite !load_lines_spec.
  fold lines cols. rewrite Hcols.
  destruct (List.length lines <? 2)%nat eqn:E; [apply Nat.ltb_lt in E; lia|].
  split; reflexivity.
Qed.

Lemma redraw_calls s :
  Viewer.calls (state_of (Viewer.redraw s))
  = Viewer.calls s ++ [Viewer.CallDrawGrid (Viewer.tileSize_of_input s);
                       Viewer.CallUpdatePolygonPositions].
Proof.
  unfold Viewer.redraw. rewrite updatePolygonPositions_state. simpl.
  now rewrite <- app_assoc.
Qed.

(** C2, as the code has it.  [addColumn] and [addRow], and [removeColumn]
    and [removeRow] above one column or row, call [drawGrid] with the tile
    size of the input and then [updatePolygonPositions], and make no other
    call; at the floor the two removals make no call.  The three loaders
    call neither: the calls they make are [createPolygon], once per row that
    reaches it (after one [clearPolygons] in the replacing loader), and
    [createPolygon] projects the new path itself. *)
Theorem rebuild_then_reproject_triggers :
  forall (csv : string) s,
    let rebuilt := Viewer.calls s ++ [Viewer.CallDrawGrid (Viewer.tileSize_of_input s);
                                      Viewer.CallUpdatePolygonPositions] in
    Viewer.calls (state_of (Viewer.addColumn s)) = rebuilt
    /\ Viewer.calls (state_of (Viewer.addRow s)) = rebuilt
    /\ Viewer.calls (state_of (Viewer.removeColumn s))
       = (if (1 <? Viewer.gridColumns s)%Z then rebuilt else Viewer.calls s)
    /\ Viewer.calls (state_of (Viewer.removeRow s))
       = (if (1 <? Viewer.gridRows s)%Z then rebuilt else Viewer.calls s)
    /\ (exists made, Viewer.calls (fst (Viewer.loadCSV csv s))
                     = Viewer.calls s ++ map (@Viewer.CallCreatePolygon num) made)
    /\ (exists made, Viewer.calls (fst (Editor.loadCSV_append csv s))
                     = Viewer.calls s ++ map (@Viewer.CallCreatePolygon num) made)
    /\ (exists made, Viewer.calls (fst (Editor.loadCSV_replace csv s))
                     = Viewer.calls s ++ Viewer.CallClearPolygons
                                         :: map (@Viewer.CallCreatePolygon num) made).
Proof.
  intros csv s rebuilt.
  assert (L : forall s0, exists made,
             Viewer.calls (fst (Editor.load_lines csv s0))
             = Viewer.calls s0 ++ map (@Viewer.CallCreatePolygon num) made).
  { intros s0. rewrite load_lines_spec. cbv zeta.
    destruct (_ <? 2)%nat; [exists []; simpl; now rewrite app_nil_r|].
    destruct (_ =? -1)%Z; [exists []; simpl; now rewrite app_nil_r|].
    apply (process_rows_spec _ _ _ s0 no_counts). }
  split; [apply redraw_calls|]. split; [apply redraw_calls|].
  split; [|split; [|split; [|split]]].
  - unfold Viewer.removeColumn. destruct (1 <? Viewer.gridColumns s)%Z;
      [apply redraw_calls | reflexivity].
  - unfold Viewer.removeRow. destruct (1 <? Viewer.gridRows s)%Z;
      [apply redraw_calls | reflexivity].
  - apply (load_rows_spec (Viewer.parseCSVRowJS csv) s 0).
  - apply L.
  - destruct (L (Viewer.clearPolygons s)) as (made & E). exists made.
    unfold Editor.loadCSV_replace. rewrite E. simpl. now rewrite <- app_assoc.
Qed.

End LoadTheorems.

(** ** Colours *)

Section Colours.
Context {num : Type} `{Number num}.
Implicit Types (s : Viewer.State num) (r g b : num).

Lemma process_row_fill (hl : nat) (cols : Editor.Columns) (line : string) s c :
  let row := Editor.parseCSVRowJS line in
  map (@Viewer.fillColor num)
      (Viewer.polygonPaths (fst (Editor.process_row hl cols line (s, c))))
  = map (@Viewer.fillColor num) (Viewer.polygonPaths s)
    ++ (if accepted (row_outcome (num:=num) hl cols line)
        then [Some (fill_of (Editor.normalize
                               (Editor.channel row (Editor.colorRIndex cols),
                                Editor.channel row (Editor.colorGIndex cols),
                                Editor.channel row (Editor.colorBIndex cols))))]
        else []).
Proof.
  cbv zeta. unfold Editor.process_row, row_outcome, coordinates_text.
  destruct (List.length (Editor.parseCSVRowJS line) <? hl)%nat;
    [simpl; now rewrite app_nil_r|].
  destruct (JSON_parse _) as [coords|]; [|simpl; now rewrite app_nil_r].
  destruct (Editor.length_below_3 coords) as [[|]|];
    [simpl; now rewrite app_nil_r | | simpl; now rewrite app_nil_r].
  destruct (Editor.normalize _) as [[r g] b].
  pose proof (createPolygon_state coords r g b s) as (_ & _ & _ & _ & _ & F).
  destruct (Viewer.createPolygon coords r g b s) as [s' ok]. cbn [fst] in F.
  destruct (creatable coords), ok; exact F.
Qed.

Lemma load_row_fill (polygonStr f1 f2 f3 : string) (more : list string) s (n : nat) :
  map (@Viewer.fillColor num)
      (Viewer.polygonPaths (fst (Viewer.load_row (polygonStr :: f1 :: f2 :: f3 :: more) (s, n))))
  = map (@Viewer.fillColor num) (Viewer.polygonPaths s)
    ++ (if (3 <=? List.length (row_coords (num:=num) polygonStr))%nat
        then [Some (fill_of (or_default (parseInt f1) (of_Z 0),
                             or_default (parseInt f2) (of_Z 0),
                             or_default (parseInt f3) (of_Z 0)))]
        else []).
Proof.
  unfold Viewer.load_row. fold (row_coords (num:=num) polygonStr).
  destruct (3 <=? List.length (row_coords polygonStr))%nat eqn:L;
    [|simpl; now rewrite app_nil_r].
  pose proof (creatable_row_coords polygonStr L) as C.
  set (r := or_default (parseInt f1) (of_Z 0)).
  set (g := or_default (parseInt f2) (of_Z 0)).
  set (b := or_default (parseInt f3) (of_Z 0)).
  pose proof (createPolygon_state (VArr (row_coords polygonStr)) r g b s)
    as (_ & _ & _ & _ & _ & F).
  destruct (Viewer.createPolygon (VArr (row_coords polygonStr)) r g b s) as [s' ok].
  cbn [fst] in *. rewrite C in F. destruct ok; exact F.
Qed.

(** C3, as the code has it.  In the two schema loaders the channels of an
    accepted line go through [normalize] before they colour the path: when
    all three are at most 1 each becomes [floor(channel * 255)], otherwise
    they stay; and when the three that result are all 0 they become 255
    each.  The viewer's loader has no such step: it reads each channel with
    [parseInt(...) || 0] and colours the path with what it read. *)
Theorem colour_normalisation :
  forall r g b (hl : nat) (cols : Editor.Columns) (line : string) s c
         (polygonStr f1 f2 f3 : string) (more : list string) (n : nat),
    let fractions := ((r <=? of_Z 1)%js && (g <=? of_Z 1)%js && (b <=? of_Z 1)%js)%bool in
    let scaled := (floor (r * of_Z 255)%js, floor (g * of_Z 255)%js, floor (b * of_Z 255)%js) in
    let black := fun (rgb : num * num * num) =>
      let '(r, g, b) := rgb in
      ((r =? of_Z 0)%js && (g =? of_Z 0)%js && (b =? of_Z 0)%js)%bool in
    let white := (of_Z 255, of_Z 255, of_Z 255) in
    let row := Editor.parseCSVRowJS line in
    (fractions = true -> black scaled = false -> Editor.normalize (r, g, b) = scaled)
    /\ (fractions = true -> black scaled = true -> Editor.normalize (r, g, b) = white)
    /\ (fractions = false -> black (r, g, b) = false -> Editor.normalize (r, g, b) = (r, g, b))
    /\ map (@Viewer.fillColor num)
           (Viewer.polygonPaths (fst (Editor.process_row hl cols line (s, c))))
       = map (@Viewer.fillColor num) (Viewer.polygonPaths s)
         ++ (if accepted (row_outcome (num:=num) hl cols line)
             then [Some (fill_of (Editor.normalize
                                    (Editor.channel row (Editor.colorRIndex cols),
                                     Editor.channel row (Editor.colorGIndex cols),
                                     Editor.channel row (Editor.colorBIndex cols))))]
             else [])
    /\ map (@Viewer.fillColor num)
           (Viewer.polygonPaths
              (fst (Viewer.load_row (polygonStr :: f1 :: f2 :: f3 :: more) (s, n))))
       = map (@Viewer.fillColor num) (Viewer.polygonPaths s)
         ++ (if (3 <=? List.length (row_coords (num:=num) polygonStr))%nat
             then [Some (fill_of (or_default (parseInt f1) (of_Z 0),
                                  or_default (parseInt f2) (of_Z 0),
                                  or_default (parseInt f3) (of_Z 0)))]
             else []).
Proof.
  intros. subst fractions scaled black white row. cbv beta.
  split; [|split; [|split; [|split]]].
  - intros F B. unfold Editor.normalize. rewrite F. cbv beta iota. now rewrite B.
  - intros F B. unfold Editor.normalize. rewrite F. cbv beta iota. now rewrite B.
  - intros F B. unfold Editor.normalize. rewrite F. cbv beta iota. now rewrite B.
  - apply process_row_fill.
  - apply load_row_fill.
Qed.

End Colours.

(** ** The transform in exact arithmetic *)

Section ExactTransform.
Local Open Scope Q_scope.

Lemma is_zero_false (q : Q) : ~ q == 0 -> Exact.is_zero q = false.
Proof.
  intros N. unfold Exact.is_zero. apply Z.eqb_neq. intro E. apply N.
  unfold Qeq. rewrite E. reflexivity.
Qed.

Lemma exact_transform (c r : Z) (q : Q) :
  (1 <= c)%Z -> (1 <= r)%Z -> 0 < q ->
  exists sc dw dh ox oy : Q,
    Viewer.transform (num:=exact) c r (EFin q)
    = {| Viewer.scale := EFin sc; Viewer.displayWidth := EFin dw;
         Viewer.displayHeight := EFin dh;
         Viewer.offsetX := EFin ox; Viewer.offsetY := EFin oy |}
    /\ sc == Qmin (900 / (inject_Z c * q)) (600 / (inject_Z r * q))
    /\ dw == sc * inject_Z c * q /\ dh == sc * inject_Z r * q
    /\ dw <= 900 /\ dh <= 600 /\ (dw == 900 \/ dh == 600)
    /\ ox == (900 - inject_Z c * q * sc) / 2
    /\ oy == (600 - inject_Z r * q * sc) / 2.
Proof.
  intros Hc Hr Hq.
  assert (Ha : 0 < inject_Z c * q).
  { apply Qmult_lt_0_compat; [|exact Hq]. change 0 with (inject_Z 0). rewrite <- Zlt_Qlt. lia. }
  assert (Hb : 0 < inject_Z r * q).
  { apply Qmult_lt_0_compat; [|exact Hq]. change 0 with (inject_Z 0). rewrite <- Zlt_Qlt. lia. }
  set (a := inject_Z c * q) in *. set (b := inject_Z r * q) in *.
  assert (Za : Exact.is_zero a = false) by (apply is_zero_false; lra).
  assert (Zb : Exact.is_zero b = false) by (apply is_zero_false; lra).
  assert (Ea : a * (900 / a) == 900) by (field; lra).
  assert (Eb : b * (600 / b) == 600) by (field; lra).
  unfold Viewer.transform, Viewer.canvasWidth, Viewer.canvasHeight, of_Z.
  cbn [of_Q mul div sub min exact_number Exact.mul Exact.div Exact.sub Exact.add Exact.neg].
  fold a b. rewrite Za, Zb.
  unfold Exact.min. cbn [Exact.isNaN orb Exact.leb].
  change (inject_Z 600) with 600. change (inject_Z 900) with 900.
  change (inject_Z 2) with 2.
  destruct (Qle_bool (600 / b) (900 / a)) eqn:L.
  - apply Qle_bool_iff in L.
    eexists _, _, _, _, _. split; [reflexivity|].
    assert (M : a * (600 / b) <= 900).
    { rewrite <- Ea. apply Qmult_le_l; assumption. }
    repeat apply conj.
    + symmetry. apply Q.min_r. exact L.
    + unfold a. ring.
    + unfold b. ring.
    + exact M.
    + rewrite Eb. apply Qle_refl.
    + right. exact Eb.
    + unfold Qminus. reflexivity.
    + unfold Qminus. reflexivity.
  - assert (L' : 900 / a <= 600 / b).
    { apply Qlt_le_weak. apply Qnot_le_lt. intro C. apply Qle_bool_iff in C. congruence. }
    eexists _, _, _, _, _. split; [reflexivity|].
    assert (M : b * (900 / a) <= 600).
    { rewrite <- Eb. apply Qmult_le_l; assumption. }
    repeat apply conj.
    + symmetry. apply Q.min_l. exact L'.
    + unfold a. ring.
    + unfold b. ring.
    + rewrite Ea. apply Qle_refl.
    + exact M.
    + left. exact Ea.
    + unfold Qminus. reflexivity.
    + unfold Qminus. reflexivity.
Qed.

(** C1, as the code has it.  In exact arithmetic, for c >= 1 columns,
    r >= 1 rows and a tile size t > 0, the scale is
    min(900/(c*t), 600/(r*t)), the display width s*c*t is at most 900 and the
    display height s*r*t at most 600, one of the two with equality, and the
    offsets are (900 - c*t*s)/2 and (600 - r*t*s)/2.  In every arithmetic,
    that of the doubles included, the scale and the offsets are these same
    expressions evaluated with the arithmetic's own operations, and they are
    the ones [drawGrid] places the background with (for the tile size it is
    passed) and [updatePolygonPositions] and [createPolygon] project with
    (for the tile size of the input).  The bounds and the equality are not
    claimed of the rounded doubles. *)
Theorem transform_scale_and_offsets :
  forall (c r : Z) (q : Q),
    (1 <= c)%Z -> (1 <= r)%Z -> 0 < q ->
    (exists sc dw dh ox oy : Q,
        Viewer.transform (num:=exact) c r (EFin q)
        = {| Viewer.scale := EFin sc; Viewer.displayWidth := EFin dw;
             Viewer.displayHeight := EFin dh;
             Viewer.offsetX := EFin ox; Viewer.offsetY := EFin oy |}
        /\ sc == Qmin (900 / (inject_Z c * q)) (600 / (inject_Z r * q))
        /\ dw == sc * inject_Z c * q /\ dh == sc * inject_Z r * q
        /\ dw <= 900 /\ dh <= 600 /\ (dw == 900 \/ dh == 600)
        /\ ox == (900 - inject_Z c * q * sc) / 2
        /\ oy == (600 - inject_Z r * q * sc) / 2)
    /\ (forall (num : Type) (N : Number num) (s : Viewer.State num) (tileSize : num),
           let columns := of_Z (Viewer.gridColumns s) in
           let rows := of_Z (Viewer.gridRows s) in
           let t := Viewer.transform (Viewer.gridColumns s) (Viewer.gridRows s) tileSize in
           let ti := Viewer.transform (Viewer.gridColumns s) (Viewer.gridRows s)
                                      (Viewer.tileSize_of_input s) in
           Viewer.scale t = min (Viewer.canvasWidth / (columns * tileSize))%js
                                (Viewer.canvasHeight / (rows * tileSize))%js
           /\ Viewer.offsetX t
              = ((Viewer.canvasWidth - columns * tileSize * Viewer.scale t) / of_Z 2)%js
           /\ Viewer.offsetY t
              = ((Viewer.canvasHeight - rows * tileSize * Viewer.scale t) / of_Z 2)%js
           /\ Viewer.gridBackground (Viewer.drawGrid tileSize s)
              = Some {| Viewer.point := {| Viewer.x := Viewer.offsetX t;
                                           Viewer.y := Viewer.offsetY t |};
                        Viewer.size := {| Viewer.x := (columns * tileSize * Viewer.scale t)%js;
                                          Viewer.y := (rows * tileSize * Viewer.scale t)%js |};
                        Viewer.rectFill := "#404040" |}
           /\ Viewer.polygonPaths (state_of (Viewer.updatePolygonPositions s))
              = fst (Viewer.reproject_all ti (Viewer.polygonPaths s))
           /\ (forall coords r g b,
                  Viewer.createPolygon coords r g b s
                  = match Viewer.new_path ti coords r g b with
                    | Some path =>
                        (Viewer.record_call (Viewer.CallCreatePolygon true)
                           (Viewer.with_polygonPaths (Viewer.polygonPaths s ++ [path]) s),
                         true)
                    | None => (Viewer.record_call (Viewer.CallCreatePolygon false) s, false)
                    end)).
Proof.
  intros c r q Hc Hr Hq. split; [now apply exact_transform|].
  intros num N s tileSize columns rows t ti.
  repeat apply conj; try reflexivity.
  now rewrite updatePolygonPositions_state.
Qed.

End ExactTransform.

(** ** The zoom, on the doubles *)

Section Rounding.
Local Open Scope Z_scope.

(** A product of doubles is NaN only for a NaN factor or for zero times
    infinity: rounding a non-negative mantissa never gives NaN. *)
Lemma shr_1_nonneg mrs : 0 <= shr_m mrs -> 0 <= shr_m (shr_1 mrs).
Proof.
  destruct mrs as [m r s]. destruct m as [|p|p]; simpl; intros Hm; try lia.
  destruct p; simpl; lia.
Qed.

Lemma iter_pos_shr_1_nonneg (p : positive) :
  forall mrs, 0 <= shr_m mrs -> 0 <= shr_m (iter_pos shr_1 p mrs).
Proof.
  induction p as [p IH|p IH|]; intros mrs Hm; simpl.
  - apply IH, IH, shr_1_nonneg, Hm.
  - apply IH, IH, Hm.
  - apply shr_1_nonneg, Hm.
Qed.

Lemma shr_fexp_nonneg m e l :
  0 <= m -> 0 <= shr_m (fst (shr_fexp prec emax m e l)).
Proof.
  intros Hm. unfold shr_fexp, shr.
  assert (R : 0 <= shr_m (shr_record_of_loc m l)) by (destruct l as [|[]]; exact Hm).
  destruct (fexp prec emax (Zdigits2 m + e) - e); simpl; try exact R.
  apply iter_pos_shr_1_nonneg, R.
Qed.

Lemma round_nearest_even_nonneg m l : 0 <= m -> 0 <= round_nearest_even m l.
Proof.
  intros Hm. destruct l as [|[]]; simpl; try lia. destruct (Z.even m); lia.
Qed.

Lemma binary_round_aux_not_nan sx mx ex lx :
  0 <= mx -> binary_round_aux prec emax sx mx ex lx <> S754_nan.
Proof.
  intros Hm. unfold binary_round_aux.
  pose proof (@shr_fexp_nonneg mx ex lx Hm) as H1.
  destruct (shr_fexp prec emax mx ex lx) as [mrs' e']. simpl in H1.
  pose proof (@shr_fexp_nonneg (round_nearest_even (shr_m mrs') (loc_of_shr_record mrs'))
                e' loc_Exact (@round_nearest_even_nonneg _ _ H1)) as H2.
  destruct (shr_fexp prec emax _ e' loc_Exact) as [mrs'' e'']. simpl in H2.
  destruct (shr_m mrs''); try lia; try discriminate.
  destruct (e'' <=? emax - prec); discriminate.
Qed.

Lemma SFmul_not_nan x s m e :
  x <> S754_nan -> SFmul prec emax x (S754_finite s m e) <> S754_nan.
Proof.
  destruct x; simpl; try discriminate; try congruence.
  intros _. apply binary_round_aux_not_nan. lia.
Qed.

Lemma SFeqb_refl f : f <> S754_nan -> SFeqb f f = true.
Proof.
  unfold SFeqb. destruct f as [s|s| |s m e]; simpl; try congruence.
  - destruct s; reflexivity.
  - intros _. rewrite Z.compare_refl.
    change (Pos.compare_cont Eq m m) with (Pos.compare m m). rewrite Pos.compare_refl.
    destruct s; reflexivity.
Qed.

Lemma is_nan_spec (z : float) : PrimFloat.is_nan z = false <-> Prim2SF z <> S754_nan.
Proof.
  unfold PrimFloat.is_nan. rewrite FloatAxioms.eqb_spec. split.
  - intros E N. rewrite N in E. discriminate.
  - intros N. now rewrite SFeqb_refl.
Qed.

Lemma mul_not_nan (z k : float) :
  finite_nonzero k = true ->
  PrimFloat.is_nan z = false -> PrimFloat.is_nan (z * k)%float = false.
Proof.
  unfold finite_nonzero. intros K Z. apply is_nan_spec. rewrite mul_spec.
  destruct (Prim2SF k); try discriminate. apply SFmul_not_nan.
  now apply is_nan_spec.
Qed.

Lemma leb_not_nan (a z : float) : (a <=? z)%float = true -> PrimFloat.is_nan z = false.
Proof.
  rewrite leb_spec. intros L. apply is_nan_spec. intros N. rewrite N in L.
  unfold SFleb, SFcompare in L. destruct (Prim2SF a); discriminate.
Qed.

End Rounding.

Lemma zoom_product_not_nan (e : Viewer.WheelEvent binary64) (s : Viewer.State binary64) :
  PrimFloat.is_nan (Viewer.zoom s) = false -> PrimFloat.is_nan (zoom_product e s) = false.
Proof.
  intros N. unfold zoom_product.
  destruct (Viewer.delta e <? of_Z 0)%js; (apply mul_not_nan; [vm_compute; reflexivity | exact N]).
Qed.

Lemma onMouseWheel_zoom (e : Viewer.WheelEvent binary64) (s : Viewer.State binary64) :
  Viewer.zoom (Viewer.onMouseWheel e s)
  = max (of_Q (5 # 100)) (min (of_Z 20) (zoom_product e s)).
Proof.
  unfold Viewer.onMouseWheel, Viewer.next_zoom, zoom_product.
  cbn [Viewer.zoom Viewer.with_view].
  destruct (Viewer.delta e <? of_Z 0)%js; reflexivity.
Qed.

(** The clamp of a number: within the bounds, the upper bound for a product
    that is not at most 20, the lower bound for one that is at most 20 and
    not at least 0.05. *)
Lemma clamp_of_a_number (p : binary64) :
  PrimFloat.is_nan p = false ->
  let clamped := max (of_Q (5 # 100)) (min (of_Z 20) p) in
  zoom_in_range clamped
  /\ ((p <=? of_Z 20)%js = false -> clamped = of_Z 20)
  /\ ((p <=? of_Z 20)%js = true -> (of_Q (5 # 100) <=? p)%js = false ->
      clamped = of_Q (5 # 100))
  /\ ((p <=? of_Z 20)%js = true -> (of_Q (5 # 100) <=? p)%js = true -> clamped = p).
Proof.
  intros K clamped. subst clamped. unfold zoom_in_range.
  cbn [min max leb binary64_number].
  replace (of_Z 20) with 20%float by (vm_compute; reflexivity).
  set (lo := of_Q (5 # 100)).
  assert (Elo : lo = 0x1.999999999999ap-5%float) by (vm_compute; reflexivity).
  rewrite Elo. clear lo Elo.
  unfold Binary64.min. rewrite K.
  change (PrimFloat.is_nan 20 || false) with false.
  change (PrimFloat.is_zero 20 && PrimFloat.is_zero p) with false.
  cbv iota.
  destruct (p <=? 20)%float eqn:E.
  - unfold Binary64.max. rewrite K.
    change (PrimFloat.is_nan 0x1.999999999999ap-5 || false) with false.
    change (PrimFloat.is_zero 0x1.999999999999ap-5 && PrimFloat.is_zero p) with false.
    cbv iota.
    destruct (0x1.999999999999ap-5 <=? p)%float eqn:E'.
    + repeat apply conj; try assumption; try discriminate; reflexivity.
    + repeat apply conj; try discriminate; reflexivity.
  - repeat apply conj; try discriminate; reflexivity.
Qed.

(** C8, as the code has it, on the doubles.  Whatever came before it, a
    wheel event that reads a zoom that is a number assigns a zoom within
    [0.05, 20]: the zoom read times 1.05 for a negative delta, times 0.95 for
    any other, clamped as max(0.05, min(20, product)).  It assigns exactly 20
    when the product is not at most 20, exactly 0.05 when the product is at
    most 20 and not at least 0.05, and the product itself otherwise.  It
    assigns the centre cursor - (cursor - oldCenter) * (oldZoom / newZoom),
    from the centre and the zoom it read.  What the view returns at the next
    read is not stated: that is paper.js's. *)
Theorem zoom_stays_clamped :
  forall (e : Viewer.WheelEvent binary64) (s : Viewer.State binary64),
    isNaN (Viewer.zoom s) = false ->
    let s' := Viewer.onMouseWheel e s in
    let cursor := Viewer.mousePosition e in
    let product := zoom_product e s in
    zoom_in_range (Viewer.zoom s')
    /\ Viewer.zoom s' = max (of_Q (5 # 100)) (min (of_Z 20) product)
    /\ ((product <=? of_Z 20)%js = false -> Viewer.zoom s' = of_Z 20)
    /\ ((product <=? of_Z 20)%js = true -> (of_Q (5 # 100) <=? product)%js = false ->
        Viewer.zoom s' = of_Q (5 # 100))
    /\ ((product <=? of_Z 20)%js = true -> (of_Q (5 # 100) <=? product)%js = true ->
        Viewer.zoom s' = product)
    /\ Viewer.center s'
       = Viewer.point_sub cursor
           (Viewer.point_mul (Viewer.point_sub cursor (Viewer.center s))
                             (Viewer.zoom s / Viewer.zoom s')%js).
Proof.
  intros e s N s' cursor product.
  pose proof (zoom_product_not_nan e s N) as K. fold product in K.
  destruct (clamp_of_a_number product K) as (R & Hi & Lo & Mid).
  assert (Z : Viewer.zoom s' = max (of_Q (5 # 100)) (min (of_Z 20) product))
    by apply onMouseWheel_zoom.
  cbv zeta in R. rewrite <- Z in R, Hi, Lo, Mid.
  split; [exact R|]. split; [exact Z|]. split; [exact Hi|]. split; [exact Lo|].
  split; [exact Mid | reflexivity].
Qed.

(** * The properties on sample pages *)

(** C1: on the doubles the bounds can fail.  With the default 7 rows and
    tile size 300, at 17 columns the display width 5100 * (900 / 5100) is
    above the canvas width 900; and at 11 columns, one [addColumn] from the
    start, the display width 3300 * (900 / 3300) is below 900 while the
    display height is not 600, so neither axis meets its bound. *)
Lemma doubles_miss_the_viewport :
  (Viewer.canvasWidth <? Viewer.displayWidth (Viewer.transform (num:=binary64) 17 7 (of_Z 300)))%js
  = true
  /\ (Viewer.displayWidth (Viewer.transform (num:=binary64) 11 7 (of_Z 300))
      <? Viewer.canvasWidth)%js = true
  /\ (Viewer.displayHeight (Viewer.transform (num:=binary64) 11 7 (of_Z 300))
      <? Viewer.canvasHeight)%js = true
  /\ option_map (fun b => (Viewer.x (Viewer.size b) =? Viewer.canvasWidth)%js
                          || (Viewer.y (Viewer.size b) =? Viewer.canvasHeight)%js)
                (Viewer.gridBackground (state_of (Viewer.addColumn page)))
     = Some false.
Proof. vm_compute. repeat split. Qed.

Lemma transform_scale_and_offsets_witness :
  exists sc dw dh ox oy : Q,
    Viewer.transform (num:=exact) 10 7 (EFin 300)
    = {| Viewer.scale := EFin sc; Viewer.displayWidth := EFin dw;
         Viewer.displayHeight := EFin dh;
         Viewer.offsetX := EFin ox; Viewer.offsetY := EFin oy |}
    /\ sc == Qmin (900 / (inject_Z 10 * 300)) (600 / (inject_Z 7 * 300))
    /\ dw == sc * inject_Z 10 * 300 /\ dh == sc * inject_Z 7 * 300
    /\ dw <= 900 /\ dh <= 600 /\ (dw == 900 \/ dh == 600)
    /\ ox == (900 - inject_Z 10 * 300 * sc) / 2
    /\ oy == (600 - inject_Z 7 * 300 * sc) / 2.
Proof.
  apply (@transform_scale_and_offsets 10 7 300); [lia | lia | reflexivity].
Defined.

(** C2: a load and a tile-size change each end without the pair of calls.
    The first call on record is the [drawGrid] of [initializePaper]. *)
Lemma loads_do_not_rebuild :
  Viewer.calls (fst (Viewer.loadCSV fixed_rows page))
  = [ Viewer.CallDrawGrid (of_Z 300);
      Viewer.CallCreatePolygon true; Viewer.CallCreatePolygon true;
      Viewer.CallCreatePolygon true; Viewer.CallCreatePolygon true ]
  /\ Viewer.calls (fst (Editor.loadCSV_append schema_rows page))
     = [ Viewer.CallDrawGrid (of_Z 300);
         Viewer.CallCreatePolygon true; Viewer.CallCreatePolygon true;
         Viewer.CallCreatePolygon true; Viewer.CallCreatePolygon true ]
  /\ Viewer.calls (Viewer.updateGrid page)
     = [ Viewer.CallDrawGrid (of_Z 300); Viewer.CallDrawGrid (of_Z 300) ].
Proof. vm_compute. repeat split. Qed.

(** C3: the viewer's loader does not normalise.  The channels 0.5, 0.5, 0.5
    are read as 0, 0, 0 and stay black, and so do 0, 0, 0. *)
Lemma viewer_keeps_black :
  map (@Viewer.fillColor binary64) (Viewer.polygonPaths (fst (Viewer.loadCSV fixed_rows page)))
  = colours [ (0, 0, 0); (0, 0, 0); (10, 200, 30); (1, 0, 0) ]%Z.
Proof. vm_compute. reflexivity. Qed.

Lemma colour_normalisation_witness :
  Editor.normalize (of_Q (5 # 10) : binary64, of_Q (5 # 10), of_Q (5 # 10))
  = (of_Z 127, of_Z 127, of_Z 127)
  /\ Editor.normalize (of_Z 0 : binary64, of_Z 0, of_Z 0) = (of_Z 255, of_Z 255, of_Z 255)
  /\ Editor.normalize (of_Z 10 : binary64, of_Z 200, of_Z 30) = (of_Z 10, of_Z 200, of_Z 30)
  /\ map (@Viewer.fillColor binary64)
         (Viewer.polygonPaths (fst (Editor.loadCSV_append schema_rows page)))
     = colours [ (127, 127, 127); (255, 255, 255); (10, 200, 30); (255, 0, 127) ]%Z
  /\ map (@Viewer.fillColor binary64)
         (Viewer.polygonPaths (fst (Editor.loadCSV_replace schema_rows page)))
     = colours [ (127, 127, 127); (255, 255, 255); (10, 200, 30); (255, 0, 127) ]%Z.
Proof.
  pose (law := fun r g b : binary64 =>
          @colour_normalisation binary64 _ r g b 0 Editor.no_columns EmptyString page
                                no_counts EmptyString EmptyString EmptyString EmptyString [] 0).
  split; [|split; [|split; [|split]]].
  - etransitivity.
    + apply (proj1 (law (of_Q (5 # 10)) (of_Q (5 # 10)) (of_Q (5 # 10)))); vm_compute; reflexivity.
    + vm_compute. reflexivity.
  - apply (proj1 (proj2 (law (of_Z 0) (of_Z 0) (of_Z 0)))); vm_compute; reflexivity.
  - apply (proj1 (proj2 (proj2 (law (of_Z 10) (of_Z 200) (of_Z 30))))); vm_compute; reflexivity.
  - vm_compute. reflexivity.
  - vm_compute. reflexivity.
Defined.

Lemma grid_dimensions_floor_witness :
  let s := Viewer.with_dimensions 1 1 page in
  grid_ok s
  /\ grid_ok (Viewer.initializePaper (of_Z 900 : binary64) (of_Z 600) "300")
  /\ grid_ok (state_of (run RemoveColumn s))
  /\ (Viewer.gridColumns s = 1%Z -> Viewer.removeColumn s = Normal s)
  /\ (Viewer.gridRows s = 1%Z -> Viewer.removeRow s = Normal s).
Proof.
  intros s.
  assert (G : grid_ok s) by (split; vm_compute; discriminate).
  split; [exact G|].
  exact (@grid_dimensions_floor binary64 _ (of_Z 900) (of_Z 600) "300" s RemoveColumn G).
Defined.

(** C5: a row with fewer fields than the header and a row with fewer than 3
    vertices are both rejected, and the error count reported is 0. *)
Lemma rejected_rows_not_counted :
  snd (Editor.loadCSV_append short_rows page)
  = Editor.Finished {| Editor.polygonCount := 0; Editor.errorCount := 0 |}
  /\ snd (Editor.loadCSV_replace short_rows page)
     = Editor.Finished {| Editor.polygonCount := 0; Editor.errorCount := 0 |}
  /\ Viewer.polygonPaths (fst (Editor.loadCSV_append short_rows page)) = [].
Proof. vm_compute. repeat split. Qed.

Lemma loaders_count_rows_witness :
  (2 <= List.length (Editor.lines_of schema_rows))%nat
  /\ Editor.coordsIndex
       (Editor.find_columns (Editor.header_of (Editor.lines_of schema_rows)) 0%Z
                            Editor.no_columns) <> (-1)%Z
  /\ snd (Editor.loadCSV_append schema_rows page)
     = Editor.Finished {| Editor.polygonCount := 4; Editor.errorCount := 1 |}
  /\ snd (Editor.loadCSV_replace schema_rows page)
     = Editor.Finished {| Editor.polygonCount := 4; Editor.errorCount := 1 |}
  /\ snd (Viewer.loadCSV fixed_rows page) = 4%nat.
Proof.
  assert (H1 : (2 <= List.length (Editor.lines_of schema_rows))%nat)
    by (vm_compute; lia).
  assert (H2 : Editor.coordsIndex
                 (Editor.find_columns (Editor.header_of (Editor.lines_of schema_rows)) 0%Z
                                      Editor.no_columns) <> (-1)%Z)
    by (vm_compute; discriminate).
  destruct (@loaders_count_rows binary64 _ schema_rows fixed_rows page H1 H2)
    as (A & R & _ & _ & V).
  split; [exact H1|]. split; [exact H2|].
  split; [rewrite A; vm_compute; reflexivity|].
  split; [rewrite R; vm_compute; reflexivity|].
  rewrite V. vm_compute. reflexivity.
Defined.

(** C6: the replacing loader has emptied the polygon set by the time it
    finds the header without a coordinates column. *)
Lemma failed_replace_clears :
  List.length (Viewer.polygonPaths page_with_triangle) = 1%nat
  /\ snd (Editor.loadCSV_replace no_coordinates page_with_triangle)
     = Editor.NoCoordinatesColumn
  /\ Viewer.polygonPaths (fst (Editor.loadCSV_replace no_coordinates page_with_triangle)) = [].
Proof. vm_compute. repeat split. Qed.

Lemma missing_coordinates_column_aborts_witness :
  (2 <= List.length (Editor.lines_of no_coordinates))%nat
  /\ Editor.coordsIndex
       (Editor.find_columns (Editor.header_of (Editor.lines_of no_coordinates)) 0%Z
                            Editor.no_columns) = (-1)%Z
  /\ Editor.loadCSV_append no_coordinates page_with_triangle
     = (page_with_triangle, Editor.NoCoordinatesColumn)
  /\ Editor.loadCSV_replace no_coordinates page_with_triangle
     = (Viewer.with_polygonPaths []
          (Viewer.record_call (@Viewer.CallClearPolygons binary64) page_with_triangle),
        Editor.NoCoordinatesColumn).
Proof.
  assert (H1 : (2 <= List.length (Editor.lines_of no_coordinates))%nat)
    by (vm_compute; lia).
  assert (H2 : Editor.coordsIndex
                 (Editor.find_columns (Editor.header_of (Editor.lines_of no_coordinates)) 0%Z
                                      Editor.no_columns) = (-1)%Z)
    by (vm_compute; reflexivity).
  split; [exact H1|]. split; [exact H2|].
  exact (@missing_coordinates_column_aborts binary64 _ no_coordinates page_with_triangle H1 H2).
Defined.

(** C8: zooming out is no division by the zoom-in step.  From 1, zooming
    in gives 1.05 and zooming out gives 0.95, and 1 / 1.05 is not 0.95, nor
    is 1 / 0.95 equal to 1.05: no step k has both 1 * k and 1 / k. *)
Lemma zoom_out_is_not_a_division :
  Viewer.next_zoom (of_Z (-1) : binary64) (of_Z 1) = of_Q (105 # 100)
  /\ Viewer.next_zoom (of_Z 1 : binary64) (of_Z 1) = of_Q (95 # 100)
  /\ ((of_Z 1 / of_Q (105 # 100) : binary64) =? of_Q (95 # 100))%js = false
  /\ ((of_Z 1 / of_Q (95 # 100) : binary64) =? of_Q (105 # 100))%js = false
  /\ Viewer.next_zoom (of_Z (-1) : exact) (of_Z 1) = EFin ((1 # 1) * (105 # 100))
  /\ Viewer.next_zoom (of_Z 1 : exact) (of_Z 1) = EFin ((1 # 1) * (95 # 100))
  /\ ((of_Z 1 / of_Q (105 # 100) : exact) =? of_Q (95 # 100))%js = false.
Proof. vm_compute. repeat split. Qed.

Lemma zoom_stays_clamped_witness :
  isNaN (Viewer.zoom page) = false
  /\ zoom_in_range (Viewer.zoom (Viewer.onMouseWheel wheel_in page))
  /\ Viewer.zoom (Viewer.onMouseWheel wheel_in page) = of_Q (105 # 100)
  /\ Viewer.center (Viewer.onMouseWheel wheel_in page)
     = Viewer.point_sub (Viewer.mousePosition wheel_in)
         (Viewer.point_mul
            (Viewer.point_sub (Viewer.mousePosition wheel_in) (Viewer.center page))
            (Viewer.zoom page / Viewer.zoom (Viewer.onMouseWheel wheel_in page))%js).
Proof.
  assert (N : isNaN (Viewer.zoom page) = false) by reflexivity.
  split; [exact N|].
  destruct (@zoom_stays_clamped wheel_in page N) as (R & _ & _ & _ & Mid & C).
  split; [exact R|]. split; [|exact C].
  rewrite Mid; vm_compute; reflexivity.
Defined.

(** ** More sample runs *)

(** A pass after two columns were added moves the segments and keeps the
    world coordinates; a second pass changes nothing. *)
Example reprojection_on_a_page :
  let widened := Viewer.with_dimensions 12 7 page_with_triangle in
  let once := state_of (Viewer.updatePolygonPositions widened) in
  let twice := state_of (Viewer.updatePolygonPositions once) in
  map (@Viewer.originalCoords binary64) (Viewer.polygonPaths once)
  = map (@Viewer.originalCoords binary64) (Viewer.polygonPaths page_with_triangle)
  /\ map (@Viewer.segments binary64) (Viewer.polygonPaths once)
     <> map (@Viewer.segments binary64) (Viewer.polygonPaths page_with_triangle)
  /\ Viewer.polygonPaths twice = Viewer.polygonPaths once.
Proof.
  intros widened once twice. split; [vm_compute; reflexivity|]. split.
  - intros E. vm_compute in E. discriminate E.
  - vm_compute. reflexivity.
Qed.

(** On the doubles the default grid (10 by 7 tiles of 300) fits: the scale
    is 600 / 2100, the display height is exactly 600 and the display width
    is below 900. *)
Example default_grid_on_the_doubles :
  let t := Viewer.transform (num:=binary64) 10 7 (of_Z 300) in
  Viewer.scale t = (of_Z 600 / of_Z 2100)%js
  /\ Viewer.displayHeight t = Viewer.canvasHeight
  /\ (Viewer.displayWidth t <? Viewer.canvasWidth)%js = true.
Proof. vm_compute. repeat split. Qed.

(** The pairing of the viewer's loader on a field with an unreadable
    component and an odd number at the end: the pair [(300, x)] is dropped,
    the lone [7] is dropped, three pairs remain. *)
Example pairs_of_a_field :
  Viewer.coordinate_pairs (num:=binary64)
    (split "," (remove_chars Viewer.is_paren "(0,0),(300,0),(300,x),(5,5),7"))
  = [ VArr [VNum (of_Z 0); VNum (of_Z 0)];
      VArr [VNum (of_Z 300); VNum (of_Z 0)];
      VArr [VNum (of_Z 5); VNum (of_Z 5)] ].
Proof. vm_compute. reflexivity. Qed.


(** * Further properties

    Properties of the code that go beyond the layout and loading rules
    above: the CSV readers, the header, running pages, the canvas in exact
    arithmetic, and the servo sweep. *)

(** ** The CSV rows *)

Lemma append_end (a : string) (c : ascii) (b : string) :
  ((a ++ String c EmptyString) ++ b = a ++ String c b)%string.
Proof. induction a as [|x a IH]; simpl; [reflexivity | now rewrite IH]. Qed.

Lemma append_empty (a : string) : (a ++ EmptyString)%string = a.
Proof. induction a as [|x a IH]; simpl; [reflexivity | now rewrite IH]. Qed.

Lemma mentions_append (c : ascii) (a b : string) :
  mentions c (a ++ b)%string = mentions c a || mentions c b.
Proof.
  induction a as [|x a IH]; simpl; [reflexivity|].
  now rewrite IH, orb_assoc.
Qed.

Lemma split_not_empty (sep : ascii) (s : string) : split sep s <> [].
Proof.
  induction s as [|c r IH]; simpl; [discriminate|].
  destruct (Ascii.eqb c sep); [discriminate|].
  destruct (split sep r); [contradiction | discriminate].
Qed.

(** Inside quotes the loop copies everything up to the next quote. *)
Lemma row_loop_inside (text rest : string) :
  mentions "034" text = false ->
  forall result current,
    Editor.row_loop (text ++ rest)%string result current true
    = Editor.row_loop rest result (current ++ text)%string true.
Proof.
  induction text as [|c text IH]; simpl; intros Hq result current.
  - now rewrite append_empty.
  - apply orb_false_iff in Hq as [Hc Hq]. rewrite Hc.
    rewrite andb_false_r, IH by assumption. now rewrite append_end.
Qed.

Lemma row_loop_quoted (text rest : string) :
  mentions "034" text = false ->
  forall result current,
    Editor.row_loop (quoted text ++ rest)%string result current false
    = Editor.row_loop rest result (current ++ text)%string false.
Proof.
  intros Hq result current. unfold quoted.
  change (Editor.row_loop (String "034" ((text ++ String "034" EmptyString) ++ rest)%string)
            result current false
          = Editor.row_loop rest result (current ++ text)%string false).
  rewrite append_end.
  change (Editor.row_loop (text ++ String "034" rest)%string result current true
          = Editor.row_loop rest result (current ++ text)%string false).
  rewrite row_loop_inside by assumption. reflexivity.
Qed.

Lemma row_loop_joined (fields : list string) :
  Forall (fun f => mentions "034" f = false) fields ->
  forall field result,
    mentions "034" field = false ->
    Editor.row_loop (String.concat "," (map quoted (field :: fields))) result EmptyString false
    = result ++ field :: fields.
Proof.
  induction 1 as [|f fields Hf Hfs IH]; intros field result Hq.
  - simpl String.concat. rewrite <- (append_empty (quoted field)).
    rewrite row_loop_quoted by assumption. reflexivity.
  - change (String.concat "," (map quoted (field :: f :: fields)))
      with (quoted field ++ String "," (String.concat "," (map quoted (f :: fields))))%string.
    rewrite row_loop_quoted by assumption.
    change (Editor.row_loop (String.concat "," (map quoted (f :: fields)))
              (result ++ [field]) EmptyString false = result ++ field :: f :: fields).
    rewrite IH by assumption. now rewrite <- app_assoc.
Qed.

(** A row with no quote in it is split at its commas. *)
Lemma row_loop_plain (row : string) :
  mentions "034" row = false ->
  forall result current,
    Editor.row_loop row result current false
    = result ++ match split "," row with
                | h :: t => (current ++ h)%string :: t
                | [] => [current]
                end.
Proof.
  induction row as [|c row IH]; simpl; intros Hq result current.
  - now rewrite append_empty.
  - apply orb_false_iff in Hq as [Hc Hq]. rewrite Hc, andb_true_r.
    destruct (Ascii.eqb c ",") eqn:Ec.
    + rewrite IH by assumption. rewrite append_empty, <- app_assoc. simpl.
      destruct (split "," row) eqn:Es; [now apply split_not_empty in Es|reflexivity].
    + rewrite IH by assumption.
      destruct (split "," row) eqn:Es; [now apply split_not_empty in Es|].
      now rewrite append_end.
Qed.

Lemma row_loop_quote_free (row : string) :
  forall result current inQuotes,
    Forall (fun f => quote_free f = true) result ->
    quote_free current = true ->
    Forall (fun f => quote_free f = true) (Editor.row_loop row result current inQuotes).
Proof.
  induction row as [|c row IH]; simpl; intros result current inQuotes Hr Hc.
  - apply Forall_app; split; [assumption | now constructor].
  - destruct (Ascii.eqb c "034") eqn:Eq; [now apply IH|].
    destruct (Ascii.eqb c "," && negb inQuotes).
    + apply IH; [|reflexivity]. apply Forall_app; split; [assumption | now constructor].
    + apply IH; [assumption|]. unfold quote_free in *.
      rewrite mentions_append. simpl. now rewrite Eq, orb_false_r.
Qed.

Lemma row_loop_not_empty (row : string) :
  forall result current inQuotes, Editor.row_loop row result current inQuotes <> [].
Proof.
  induction row as [|c row IH]; simpl; intros result current inQuotes.
  - destruct result; discriminate.
  - destruct (Ascii.eqb c "034"); [apply IH|].
    destruct (Ascii.eqb c "," && negb inQuotes); apply IH.
Qed.

(** X1.  [parseCSVRowJS] of the editor scripts reads back what a writer
    quoted: a row made of one or more fields, each between double quotes and
    none holding a double quote, joined by commas, parses to these fields,
    with the commas, the spaces and the empty fields in them kept. *)
Theorem quoted_fields_round_trip :
  forall (field : string) (fields : list string),
    Forall (fun f => quote_free f = true) (field :: fields) ->
    Editor.parseCSVRowJS (String.concat "," (map quoted (field :: fields)))
    = field :: fields.
Proof.
  intros field fields Hq. inversion Hq as [|? ? Hf Hfs]; subst.
  unfold Editor.parseCSVRowJS. rewrite row_loop_joined.
  - reflexivity.
  - eapply Forall_impl; [|exact Hfs]. unfold quote_free. intros a Ha.
    now apply negb_true_iff.
  - now apply negb_true_iff.
Qed.

Lemma quoted_fields_round_trip_witness :
  Editor.parseCSVRowJS
    (String.concat "," (map quoted ["[(0,0),(300,0),(300,300)]"%string; "0.5"%string; ""%string]))
  = ["[(0,0),(300,0),(300,300)]"%string; "0.5"%string; ""%string].
Proof.
  apply (@quoted_fields_round_trip "[(0,0),(300,0),(300,300)]" ["0.5"%string; ""%string]).
  repeat constructor.
Defined.

(** X2.  On a row with no double quote in it, [parseCSVRowJS] of the
    editor scripts is [row.split(',')]: nothing is trimmed, and the empty
    row gives one empty field. *)
Theorem row_without_quotes_is_split :
  forall row : string,
    quote_free row = true ->
    Editor.parseCSVRowJS row = split "," row.
Proof.
  intros row Hq. unfold Editor.parseCSVRowJS.
  rewrite row_loop_plain by now apply negb_true_iff.
  simpl. destruct (split "," row) eqn:Es; [now apply split_not_empty in Es|reflexivity].
Qed.

Lemma row_without_quotes_is_split_witness :
  Editor.parseCSVRowJS "1, red,,x" = ["1"%string; " red"%string; ""%string; "x"%string].
Proof.
  exact (@row_without_quotes_is_split "1, red,,x" eq_refl).
Defined.

(** X3.  [parseCSVRowJS] of the editor scripts returns at least one
    field whatever the row, and no field holds a double quote: every quote
    toggles the quoting and is dropped, a doubled quote too. *)
Theorem row_fields_hold_no_quote :
  forall row : string,
    Editor.parseCSVRowJS row <> []
    /\ Forall (fun f => quote_free f = true) (Editor.parseCSVRowJS row).
Proof.
  intro row. split.
  - apply row_loop_not_empty.
  - apply row_loop_quote_free; [constructor | reflexivity].
Qed.

(** ** Trimming *)

Lemma trimStart_no_leading_space (s : string) : no_leading_space (trimStart s) = true.
Proof.
  induction s as [|c r IH]; simpl; [reflexivity|].
  destruct (is_space c) eqn:E; [assumption | simpl; now rewrite E].
Qed.

Lemma trimEnd_no_leading_space (s : string) :
  no_leading_space s = true -> no_leading_space (trimEnd s) = true.
Proof.
  destruct s as [|c r]; simpl; [reflexivity|]. intro Hc.
  destruct (trimEnd r); [|exact Hc].
  apply negb_true_iff in Hc. rewrite Hc. simpl. now rewrite Hc.
Qed.

Lemma trimStart_fixed (s : string) : no_leading_space s = true -> trimStart s = s.
Proof.
  destruct s as [|c r]; simpl; [reflexivity|]. intro Hc.
  apply negb_true_iff in Hc. now rewrite Hc.
Qed.

Lemma trimEnd_trimEnd (s : string) : trimEnd (trimEnd s) = trimEnd s.
Proof.
  induction s as [|c r IH]; simpl; [reflexivity|].
  destruct (trimEnd r) as [|d r'] eqn:Er.
  - destruct (is_space c) eqn:E; simpl; [reflexivity | now rewrite E].
  - change (trimEnd (String c (String d r'))) with
      (match trimEnd (String d r') with
       | EmptyString => if is_space c then EmptyString else String c EmptyString
       | r'' => String c r''
       end).
    now rewrite IH.
Qed.

Lemma trim_trim (s : string) : trim (trim s) = trim s.
Proof.
  unfold trim. rewrite trimStart_fixed.
  - apply trimEnd_trimEnd.
  - apply trimEnd_no_leading_space, trimStart_no_leading_space.
Qed.

Lemma mentions_trimStart (c : ascii) (s : string) :
  mentions c s = false -> mentions c (trimStart s) = false.
Proof.
  induction s as [|a r IH]; simpl; [reflexivity|]. intro Hm.
  apply orb_false_iff in Hm as [Ha Hr].
  destruct (is_space a); [now apply IH | simpl; now rewrite Ha, Hr].
Qed.

Lemma mentions_trimEnd (c : ascii) (s : string) :
  mentions c s = false -> mentions c (trimEnd s) = false.
Proof.
  induction s as [|a r IH]; simpl; [reflexivity|]. intro Hm.
  apply orb_false_iff in Hm as [Ha Hr]. specialize (IH Hr).
  destruct (trimEnd r) as [|d r'].
  - destruct (is_space a); simpl; [reflexivity | now rewrite Ha].
  - simpl in *. now rewrite Ha, IH.
Qed.

Lemma quote_free_trim (s : string) : quote_free s = true -> quote_free (trim s) = true.
Proof.
  unfold quote_free, trim. intro Hq. apply negb_true_iff in Hq. apply negb_true_iff.
  now apply mentions_trimEnd, mentions_trimStart.
Qed.

(** ** The rows of the viewer's file *)

Lemma fields_loop_fields (line : string) :
  forall fields current inQuotes,
    Forall (fun f => trimmed f /\ quote_free f = true) fields ->
    quote_free current = true ->
    Viewer.fields_loop line fields current inQuotes <> []
    /\ Forall (fun f => trimmed f /\ quote_free f = true)
              (Viewer.fields_loop line fields current inQuotes).
Proof.
  assert (Hpush : forall fields current,
             Forall (fun f => trimmed f /\ quote_free f = true) fields ->
             quote_free current = true ->
             Forall (fun f => trimmed f /\ quote_free f = true) (fields ++ [trim current])).
  { intros fields current Hf Hc. apply Forall_app; split; [assumption|].
    constructor; [|constructor]. split; [apply trim_trim | now apply quote_free_trim]. }
  induction line as [|c line IH]; simpl; intros fields current inQuotes Hf Hc.
  - split; [destruct fields; discriminate | now apply Hpush].
  - destruct (Ascii.eqb c "034") eqn:Eq; [now apply IH|].
    destruct (Ascii.eqb c "," && negb inQuotes).
    + apply IH; [now apply Hpush | reflexivity].
    + apply IH; [assumption|]. unfold quote_free in *.
      rewrite mentions_append. simpl. now rewrite Eq, orb_false_r.
Qed.

Lemma viewer_rows_of_lines (csvText : string) :
  Viewer.parseCSVRowJS csvText
  = map (fun l => Viewer.fields_loop (trim l) [] EmptyString false)
        (filter has_text (split "010" csvText)).
Proof.
  unfold Viewer.parseCSVRowJS. generalize (split "010" csvText) as lines.
  induction lines as [|l lines IH]; [reflexivity|].
  cbn [flat_map filter]. cbv zeta. rewrite IH. unfold has_text at 2.
  destruct (trim l) eqn:E; cbn [map app]; rewrite ?E; reflexivity.
Qed.

(** Inside quotes the viewer's loop copies everything up to the next
    quote, as the editor's does. *)
Lemma fields_loop_inside (text rest : string) :
  mentions "034" text = false ->
  forall fields current,
    Viewer.fields_loop (text ++ rest)%string fields current true
    = Viewer.fields_loop rest fields (current ++ text)%string true.
Proof.
  induction text as [|c text IH]; simpl; intros Hq fields current.
  - now rewrite append_empty.
  - apply orb_false_iff in Hq as [Hc Hq]. rewrite Hc.
    rewrite andb_false_r, IH by assumption. now rewrite append_end.
Qed.

Lemma fields_loop_quoted (text rest : string) :
  mentions "034" text = false ->
  forall fields current,
    Viewer.fields_loop (quoted text ++ rest)%string fields current false
    = Viewer.fields_loop rest fields (current ++ text)%string false.
Proof.
  intros Hq fields current. unfold quoted.
  change (Viewer.fields_loop (String "034" ((text ++ String "034" EmptyString) ++ rest)%string)
            fields current false
          = Viewer.fields_loop rest fields (current ++ text)%string false).
  rewrite append_end.
  change (Viewer.fields_loop (text ++ String "034" rest)%string fields current true
          = Viewer.fields_loop rest fields (current ++ text)%string false).
  rewrite fields_loop_inside by assumption. reflexivity.
Qed.

Lemma fields_loop_joined (texts : list string) :
  Forall (fun f => mentions "034" f = false) texts ->
  forall text fields,
    mentions "034" text = false ->
    Viewer.fields_loop (String.concat "," (map quoted (text :: texts))) fields EmptyString false
    = fields ++ map trim (text :: texts).
Proof.
  induction 1 as [|f texts Hf Hfs IH]; intros text fields Hq.
  - simpl String.concat. rewrite <- (append_empty (quoted text)).
    rewrite fields_loop_quoted by assumption. reflexivity.
  - change (String.concat "," (map quoted (text :: f :: texts)))
      with (quoted text ++ String "," (String.concat "," (map quoted (f :: texts))))%string.
    rewrite fields_loop_quoted by assumption.
    change (Viewer.fields_loop (String.concat "," (map quoted (f :: texts)))
              (fields ++ [trim text]) EmptyString false
            = fields ++ map trim (text :: f :: texts)).
    rewrite IH by assumption. now rewrite <- app_assoc.
Qed.

(** A line with no quote in it is split at its commas, and the parts are
    trimmed. *)
Lemma fields_loop_plain (line : string) :
  mentions "034" line = false ->
  forall fields current,
    Viewer.fields_loop line fields current false
    = fields ++ match split "," line with
                | h :: t => trim (current ++ h)%string :: map trim t
                | [] => [trim current]
                end.
Proof.
  induction line as [|c line IH]; simpl; intros Hq fields current.
  - now rewrite append_empty.
  - apply orb_false_iff in Hq as [Hc Hq]. rewrite Hc, andb_true_r.
    destruct (Ascii.eqb c ",") eqn:Ec.
    + rewrite IH by assumption. rewrite append_empty, <- app_assoc. simpl.
      destruct (split "," line) eqn:Es; [now apply split_not_empty in Es|reflexivity].
    + rewrite IH by assumption.
      destruct (split "," line) eqn:Es; [now apply split_not_empty in Es|].
      now rewrite append_end.
Qed.

Lemma mentions_split (c sep : ascii) (text : string) :
  mentions c text = false ->
  Forall (fun part => mentions c part = false) (split sep text).
Proof.
  induction text as [|a r IH]; cbn [mentions split]; intros M.
  - now constructor.
  - apply orb_false_iff in M as [Ma Mr]. specialize (IH Mr).
    destruct (Ascii.eqb a sep); [now constructor|].
    destruct (split sep r) as [|h t]; [repeat constructor; cbn; now rewrite Ma|].
    inversion IH as [|? ? Hh Ht]; subst. constructor; [|exact Ht].
    cbn. now rewrite Ma, Hh.
Qed.

(** X4.  The viewer's [parseCSVRowJS] returns one row for each line that
    is not blank, in the order of the lines: the row of a line is what the
    field loop reads off the trimmed line.  On a text with no double quote
    in it, the row of a line is the list of the parts of the trimmed line
    between commas, each trimmed.  The field loop reads quoted fields back
    trimmed: one or more fields, each between double quotes and none holding
    a double quote, joined by commas, give these fields, trimmed, commas
    inside them kept.  Each row has at least one field, and every field is
    trimmed and holds no double quote. *)
Theorem viewer_rows_are_trimmed :
  forall csvText : string,
    Viewer.parseCSVRowJS csvText
    = map (fun line => Viewer.fields_loop (trim line) [] EmptyString false)
          (filter has_text (split "010" csvText))
    /\ (quote_free csvText = true ->
        Viewer.parseCSVRowJS csvText
        = map (fun line => map trim (split "," (trim line)))
              (filter has_text (split "010" csvText)))
    /\ (forall (field : string) (fields : list string),
           Forall (fun f => quote_free f = true) (field :: fields) ->
           Viewer.fields_loop (String.concat "," (map quoted (field :: fields)))
                              [] EmptyString false
           = map trim (field :: fields))
    /\ List.length (Viewer.parseCSVRowJS csvText)
       = List.length (filter has_text (split "010" csvText))
    /\ Forall (fun row => row <> []
                          /\ Forall (fun f => trimmed f /\ quote_free f = true) row)
              (Viewer.parseCSVRowJS csvText).
Proof.
  intro csvText. split; [apply viewer_rows_of_lines|]. split; [|split; [|split]].
  - intros Q. rewrite viewer_rows_of_lines. apply map_ext_in. intros line L.
    apply filter_In in L as [L _].
    apply negb_true_iff in Q.
    pose proof (@mentions_split "034" "010" csvText Q) as P.
    rewrite Forall_forall in P. specialize (P line L).
    assert (T : mentions "034" (trim line) = false).
    { apply negb_true_iff. apply quote_free_trim. now apply negb_true_iff. }
    rewrite (fields_loop_plain _ T). cbn [app append].
    destruct (split "," (trim line)) eqn:Es; [now apply split_not_empty in Es|reflexivity].
  - intros field fields Hq. inversion Hq as [|? ? Hf Hfs]; subst.
    rewrite fields_loop_joined.
    + reflexivity.
    + eapply Forall_impl; [|exact Hfs]. unfold quote_free. intros a Ha.
      now apply negb_true_iff.
    + now apply negb_true_iff.
  - rewrite viewer_rows_of_lines. now rewrite length_map.
  - rewrite viewer_rows_of_lines. apply Forall_map. apply Forall_forall. intros l _.
    apply fields_loop_fields; [constructor | reflexivity].
Qed.

(** ** The header of the schema loaders *)

Lemma scan_spec (test : string -> bool) (header : list string) :
  forall i index : Z,
    (scan test header i index = index
     /\ Forall (fun name => test (toLowerCase name) = false) header)
    \/ ((i <= scan test header i index < i + Z.of_nat (List.length header))%Z
        /\ (exists name,
               nth_error header (Z.to_nat (scan test header i index - i)) = Some name
               /\ test (toLowerCase name) = true)
        /\ Forall (fun name => test (toLowerCase name) = false)
                  (skipn (S (Z.to_nat (scan test header i index - i))) header)).
Proof.
  induction header as [|name rest IH]; intros i index.
  - left. split; [reflexivity | constructor].
  - cbn [scan]. set (index' := if test (toLowerCase name) then i else index).
    destruct (IH (i + 1)%Z index') as [[Hk Hnone] | [Hk [[name' [Hn Ht]] Hlater]]].
    + rewrite Hk. subst index'. destruct (test (toLowerCase name)) eqn:Et.
      * right. cbn [List.length]. split; [lia|].
        replace (i - i)%Z with 0%Z by lia. split; [|exact Hnone].
        exists name. now split.
      * left. split; [reflexivity | now constructor].
    + right. set (k := scan test rest (i + 1) index') in *.
      cbn [List.length]. split; [lia|].
      replace (Z.to_nat (k - i)) with (S (Z.to_nat (k - (i + 1)))) by lia.
      split; [|exact Hlater]. exists name'. now split.
Qed.

Lemma find_columns_scan (header : list string) :
  forall (i : Z) (c : Editor.Columns),
    let cols := Editor.find_columns header i c in
    Editor.coordsIndex cols = scan names_coordinates header i (Editor.coordsIndex c)
    /\ Editor.colorRIndex cols
       = scan (fun h => includes h "color_r") header i (Editor.colorRIndex c)
    /\ Editor.colorGIndex cols
       = scan (fun h => includes h "color_g") header i (Editor.colorGIndex c)
    /\ Editor.colorBIndex cols
       = scan (fun h => includes h "color_b") header i (Editor.colorBIndex c).
Proof.
  induction header as [|name rest IH]; intros i c; cbn zeta.
  - repeat apply conj; reflexivity.
  - cbn [Editor.find_columns scan]. cbn zeta. apply IH.
Qed.

Lemma scan_last_match (test : string -> bool) (header : list string) :
  last_match test header (scan test header 0 (-1)).
Proof.
  destruct (scan_spec test header 0 (-1)) as [[Hk Hnone] | [Hk [Hn Hlater]]].
  - left. now split.
  - right. rewrite Z.sub_0_r in *. split; [lia|]. now split.
Qed.

(** X5.  The header loop of the schema loaders leaves in each of the
    four column indices -1 when no header name, in lower case, includes the
    text it looks for, and otherwise the index of the last name that does:
    'coordinates' or 'polygon_coords' for the coordinates, 'color_r',
    'color_g' and 'color_b' for the colours. *)
Theorem header_columns_are_last_matches :
  forall header : list string,
    let cols := Editor.find_columns header 0 Editor.no_columns in
    last_match names_coordinates header (Editor.coordsIndex cols)
    /\ last_match (fun h => includes h "color_r") header (Editor.colorRIndex cols)
    /\ last_match (fun h => includes h "color_g") header (Editor.colorGIndex cols)
    /\ last_match (fun h => includes h "color_b") header (Editor.colorBIndex cols).
Proof.
  intros header cols.
  destruct (find_columns_scan header 0 Editor.no_columns) as (Hc & Hr & Hg & Hb).
  fold cols in Hc, Hr, Hg, Hb. rewrite Hc, Hr, Hg, Hb.
  repeat apply conj; apply scan_last_match.
Qed.

(** ** Polygons on a running page *)

Section Placement.
Context {num : Type} `{Number num}.
Implicit Types (s : Viewer.State num) (p : Viewer.Path num) (t : Viewer.Transform num)
               (v coords : jsval num).

Lemma project_placed t v : not_null v = true -> Viewer.project t v = Some (placed t v).
Proof. destruct v; try discriminate; reflexivity. Qed.

Lemma add_points_placed t (l : list (jsval num)) :
  forallb not_null l = true ->
  forall segs, Viewer.add_points t l segs = (segs ++ map (placed t) l, true).
Proof.
  induction l as [|v l IH]; cbn [forallb Viewer.add_points map]; intros W segs.
  - now rewrite app_nil_r.
  - apply andb_true_iff in W as [Wv Wl].
    rewrite (project_placed t v Wv), (IH Wl). now rewrite <- app_assoc.
Qed.

Lemma reproject_sound t p :
  forallb not_null (Viewer.originalCoords p) = true ->
  sound_path t (fst (Viewer.reproject t p)).
Proof.
  intros W. unfold Viewer.reproject, sound_path.
  rewrite (add_points_placed t _ W []). cbn [fst Viewer.originalCoords Viewer.segments app].
  now split.
Qed.

Lemma reproject_all_sound t (ps : list (Viewer.Path num)) :
  Forall (fun l => forallb not_null l = true) (map (@Viewer.originalCoords num) ps) ->
  Forall (sound_path t) (fst (Viewer.reproject_all t ps)).
Proof.
  induction ps as [|p ps IH]; intros W; [constructor|].
  inversion W as [|l ls Hp Hps]; subst. cbn [Viewer.reproject_all].
  pose proof (reproject_sound t p Hp) as S.
  pose proof (reproject_finishes t p) as F. rewrite Hp in F.
  destruct (Viewer.reproject t p) as [p' fin]. cbn [fst snd] in S, F. subst fin.
  specialize (IH Hps).
  destruct (Viewer.reproject_all t ps) as [ps' fin']. cbn [fst] in *.
  now constructor.
Qed.

Lemma sound_in_place s :
  Forall (sound_path (layout s)) (Viewer.polygonPaths s) -> in_place s.
Proof. apply Forall_impl. now intros p [_ S]. Qed.

Lemma sound_well_formed (t : Viewer.Transform num) (ps : list (Viewer.Path num)) :
  Forall (sound_path t) ps ->
  Forall (fun l => forallb not_null l = true) (map (@Viewer.originalCoords num) ps).
Proof. intros S. apply Forall_map. revert S. apply Forall_impl. now intros p [W _]. Qed.

Lemma sound_paths s :
  well_formed s -> in_place s -> Forall (sound_path (layout s)) (Viewer.polygonPaths s).
Proof.
  unfold well_formed, in_place. intros W P. rewrite Forall_map in W.
  rewrite Forall_forall in *. intros p Hp. split; [now apply W | now apply P].
Qed.

Lemma updatePolygonPositions_in_place s :
  well_formed s -> in_place (state_of (Viewer.updatePolygonPositions s)).
Proof.
  intros W. rewrite updatePolygonPositions_state. apply sound_in_place.
  exact (reproject_all_sound (layout s) (Viewer.polygonPaths s) W).
Qed.

Lemma redraw_in_place s :
  well_formed s -> in_place (state_of (Viewer.redraw s)).
Proof. intros W. unfold Viewer.redraw. now apply updatePolygonPositions_in_place. Qed.

Lemma new_path_sound t coords (r g b : num) p :
  Viewer.new_path t coords r g b = Some p -> sound_path t p.
Proof.
  unfold Viewer.new_path. destruct (index coords 0) as [[v|]|]; try discriminate.
  destruct (index v 0); try discriminate.
  destruct coords as [| | |l|]; try discriminate.
  pose proof (add_points_finished t l []) as F.
  destruct (Viewer.add_points t l []) as [segs fin] eqn:A. cbn [snd] in F.
  destruct fin; try discriminate. intros E. injection E as <-.
  unfold sound_path. cbn [Viewer.originalCoords Viewer.segments].
  split; [now symmetry|]. rewrite add_points_placed in A by now symmetry.
  now injection A as <-.
Qed.

(** *** States that grow *)

Lemma same_page_refl s : same_page s s.
Proof. unfold same_page. auto 10. Qed.

Lemma same_page_trans s1 s2 s3 : same_page s1 s2 -> same_page s2 s3 -> same_page s1 s3.
Proof.
  unfold same_page. intros (A1 & A2 & A3 & A4 & A5 & A6 & A7) (B1 & B2 & B3 & B4 & B5 & B6 & B7).
  rewrite B1, B2, B3, B4, B5, B6, B7. auto 10.
Qed.

Lemma same_page_layout s s' : same_page s s' -> layout s' = layout s.
Proof.
  intros (_ & _ & C & R & I & _). unfold layout, Viewer.tileSize_of_input.
  now rewrite C, R, I.
Qed.

Lemma grows_refl s : grows s s.
Proof.
  split; [apply same_page_refl|]. exists []. split; [now rewrite app_nil_r | constructor].
Qed.

Lemma grows_trans s1 s2 s3 : grows s1 s2 -> grows s2 s3 -> grows s1 s3.
Proof.
  intros [P12 (a12 & E12 & S12)] [P23 (a23 & E23 & S23)].
  split; [now apply (same_page_trans P12)|].
  exists (a12 ++ a23). split.
  - now rewrite E23, E12, app_assoc.
  - apply Forall_app. split; [assumption|]. now rewrite <- (same_page_layout P12).
Qed.

Lemma grows_well_formed s s' : grows s s' -> well_formed s -> well_formed s'.
Proof.
  intros [_ (added & E & S)] W. unfold well_formed in *. rewrite E, map_app.
  apply Forall_app. split; [assumption | now apply (sound_well_formed S)].
Qed.

Lemma grows_in_place s s' : grows s s' -> in_place s -> in_place s'.
Proof.
  intros [P (added & E & S)] I. unfold in_place in *.
  rewrite E, (same_page_layout P). apply Forall_app. split; [assumption|].
  revert S. apply Forall_impl. now intros p [_ S].
Qed.

Lemma createPolygon_grows coords (r g b : num) s :
  grows s (fst (Viewer.createPolygon coords r g b s)).
Proof.
  unfold Viewer.createPolygon.
  destruct (Viewer.new_path _ coords r g b) as [p|] eqn:E; cbn [fst].
  - split; [unfold same_page; cbn; auto 10|]. exists [p]. split; [reflexivity|].
    constructor; [|constructor]. exact (new_path_sound _ _ _ _ _ E).
  - split; [unfold same_page; cbn; auto 10|]. exists []. split; [|constructor].
    cbn. now rewrite app_nil_r.
Qed.

Lemma load_row_grows (row : list string) s (n : nat) :
  grows s (fst (Viewer.load_row row (s, n))).
Proof.
  unfold Viewer.load_row.
  destruct row as [|polygonStr [|f1 [|f2 [|f3 more]]]]; try apply grows_refl.
  destruct (3 <=? _)%nat; [|apply grows_refl].
  pose proof (createPolygon_grows
    (VArr (Viewer.coordinate_pairs (split "," (remove_chars Viewer.is_paren polygonStr))))
    (or_default (parseInt f1) (of_Z 0)) (or_default (parseInt f2) (of_Z 0))
    (or_default (parseInt f3) (of_Z 0)) s) as G.
  destruct (Viewer.createPolygon _ _ _ _ s) as [s' created]. cbn [fst] in G.
  now destruct created.
Qed.

Lemma viewer_load_grows (csvText : string) s : grows s (fst (Viewer.loadCSV csvText s)).
Proof.
  unfold Viewer.loadCSV. generalize (Viewer.parseCSVRowJS csvText) as rows.
  intros rows. generalize 0%nat as n. revert s.
  induction rows as [|row rows IH]; intros s n; [apply grows_refl|].
  cbn [fold_left]. pose proof (load_row_grows row s n) as G.
  destruct (Viewer.load_row row (s, n)) as [s1 n1]. cbn [fst] in G.
  exact (grows_trans G (IH s1 n1)).
Qed.

Lemma process_row_grows (hl : nat) (cols : Editor.Columns) (line : string) s c :
  grows s (fst (Editor.process_row hl cols line (s, c))).
Proof.
  unfold Editor.process_row.
  destruct (_ <? hl)%nat; [apply grows_refl|].
  destruct (JSON_parse _) as [coords|]; [|apply grows_refl].
  destruct (Editor.length_below_3 coords) as [[|]|]; try apply grows_refl.
  destruct (Editor.normalize _) as [[r g] b].
  pose proof (createPolygon_grows coords r g b s) as G.
  destruct (Viewer.createPolygon coords r g b s) as [s' success]. cbn [fst] in G.
  now destruct success.
Qed.

Lemma process_rows_grow (hl : nat) (cols : Editor.Columns) (lines : list string) :
  forall s c,
    grows s (fst (fold_left (fun acc line => Editor.process_row hl cols line acc)
                            lines (s, c))).
Proof.
  induction lines as [|line lines IH]; intros s c; [apply grows_refl|].
  cbn [fold_left]. pose proof (process_row_grows hl cols line s c) as G.
  destruct (Editor.process_row hl cols line (s, c)) as [s1 c1]. cbn [fst] in G.
  exact (grows_trans G (IH s1 c1)).
Qed.

Lemma load_lines_grows (csv : string) s : grows s (fst (Editor.load_lines csv s)).
Proof.
  rewrite load_lines_spec. cbv zeta.
  destruct (_ <? 2)%nat; [apply grows_refl|].
  destruct (_ =? -1)%Z; [apply grows_refl|]. cbn [fst].
  apply process_rows_grow.
Qed.

(** *** The replacing loader against the appending one *)

(** Two states that differ by polygons at the front ([pre]) and by the
    record of calls give the same rows the same treatment. *)
Lemma createPolygon_prefix (pre : list (Viewer.Path num)) coords (r g b : num) s s' :
  same_page s s' ->
  Viewer.polygonPaths s = pre ++ Viewer.polygonPaths s' ->
  same_page (fst (Viewer.createPolygon coords r g b s))
            (fst (Viewer.createPolygon coords r g b s'))
  /\ Viewer.polygonPaths (fst (Viewer.createPolygon coords r g b s))
     = pre ++ Viewer.polygonPaths (fst (Viewer.createPolygon coords r g b s'))
  /\ snd (Viewer.createPolygon coords r g b s) = snd (Viewer.createPolygon coords r g b s').
Proof.
  intros P E. pose proof (same_page_layout P) as L. unfold layout in L.
  unfold Viewer.createPolygon. rewrite L.
  destruct P as (P1 & P2 & P3 & P4 & P5 & P6 & P7).
  destruct (Viewer.new_path _ coords r g b) as [p|]; cbn [fst snd].
  - split; [unfold same_page; cbn; auto 10|]. split; [|reflexivity].
    cbn. now rewrite E, app_assoc.
  - split; [unfold same_page; cbn; auto 10|]. split; [|reflexivity]. exact E.
Qed.

Lemma process_row_prefix (pre : list (Viewer.Path num)) (hl : nat) (cols : Editor.Columns)
      (line : string) s s' c :
  same_page s s' ->
  Viewer.polygonPaths s = pre ++ Viewer.polygonPaths s' ->
  same_page (fst (Editor.process_row hl cols line (s, c)))
            (fst (Editor.process_row hl cols line (s', c)))
  /\ Viewer.polygonPaths (fst (Editor.process_row hl cols line (s, c)))
     = pre ++ Viewer.polygonPaths (fst (Editor.process_row hl cols line (s', c)))
  /\ snd (Editor.process_row hl cols line (s, c))
     = snd (Editor.process_row hl cols line (s', c)).
Proof.
  intros P E. unfold Editor.process_row.
  destruct (_ <? hl)%nat; [now cbn|].
  destruct (JSON_parse _) as [coords|]; [|now cbn].
  destruct (Editor.length_below_3 coords) as [[|]|]; try now cbn.
  destruct (Editor.normalize _) as [[r g] b].
  destruct (createPolygon_prefix pre coords r g b P E) as (P' & E' & R).
  destruct (Viewer.createPolygon coords r g b s) as [s1 success].
  destruct (Viewer.createPolygon coords r g b s') as [s1' success'].
  cbn [fst snd] in *. subst success'. now destruct success.
Qed.

Lemma process_rows_prefix (pre : list (Viewer.Path num)) (hl : nat) (cols : Editor.Columns)
      (lines : list string) :
  forall s s' c,
    same_page s s' ->
    Viewer.polygonPaths s = pre ++ Viewer.polygonPaths s' ->
    let step := fun acc line => Editor.process_row hl cols line acc in
    Viewer.polygonPaths (fst (fold_left step lines (s, c)))
    = pre ++ Viewer.polygonPaths (fst (fold_left step lines (s', c)))
    /\ snd (fold_left step lines (s, c)) = snd (fold_left step lines (s', c)).
Proof.
  induction lines as [|line lines IH]; intros s s' c P E; cbn zeta; [now cbn|].
  cbn [fold_left].
  destruct (process_row_prefix pre hl cols line c P E) as (P' & E' & R).
  destruct (Editor.process_row hl cols line (s, c)) as [s1 c1].
  destruct (Editor.process_row hl cols line (s', c)) as [s1' c1'].
  cbn [fst snd] in *. subst c1'. exact (IH s1 s1' c1 P' E').
Qed.

End Placement.

Section RunningPages.
Context {num : Type} `{Number num}.
Implicit Types (s : Viewer.State num) (a : action num).

Lemma perform_well_formed a s :
  well_formed s ->
  perform a s = Normal (state_of (perform a s)) /\ well_formed (state_of (perform a s)).
Proof.
  intros W. destruct a; cbn [perform state_of].
  - now apply grid_methods_return.
  - split; [reflexivity|]. exact (grows_well_formed (createPolygon_grows coords r g b s) W).
  - split; [reflexivity | constructor].
  - split; [reflexivity|]. exact (grows_well_formed (viewer_load_grows csvText s) W).
  - split; [reflexivity|]. exact (grows_well_formed (load_lines_grows csv s) W).
  - split; [reflexivity|].
    apply (grows_well_formed (load_lines_grows csv (Viewer.clearPolygons s))). constructor.
  - split; [reflexivity | exact W].
  - split; [reflexivity | exact W].
Qed.

Lemma performs_well_formed (acts : list (action num)) :
  forall s, well_formed s -> well_formed (performs acts s).
Proof.
  induction acts as [|a acts IH]; intros s W; [exact W|].
  apply IH. now apply perform_well_formed.
Qed.

Lemma initializePaper_well_formed (viewWidth viewHeight : num) (input : string) :
  well_formed (Viewer.initializePaper viewWidth viewHeight input).
Proof. constructor. Qed.

Lemma run_in_place (op : grid_operation num) s :
  well_formed s ->
  in_place s \/ reprojects op s = true ->
  in_place (state_of (run op s)).
Proof.
  intros W I. destruct op; cbn [run reprojects state_of] in *.
  - now apply redraw_in_place.
  - unfold Viewer.removeColumn. destruct (1 <? Viewer.gridColumns s)%Z.
    + now apply redraw_in_place.
    + now destruct I.
  - now apply redraw_in_place.
  - unfold Viewer.removeRow. destruct (1 <? Viewer.gridRows s)%Z.
    + now apply redraw_in_place.
    + now destruct I.
  - now destruct I.
  - now apply updatePolygonPositions_in_place.
  - now destruct I.
Qed.

Lemma perform_in_place a s :
  well_formed s -> in_place s -> in_place (state_of (perform a s)).
Proof.
  intros W I. destruct a; cbn [perform state_of].
  - apply run_in_place; [assumption | now left].
  - exact (grows_in_place (createPolygon_grows coords r g b s) I).
  - constructor.
  - exact (grows_in_place (viewer_load_grows csvText s) I).
  - exact (grows_in_place (load_lines_grows csv s) I).
  - apply (grows_in_place (load_lines_grows csv (Viewer.clearPolygons s))). constructor.
  - exact I.
  - exact I.
Qed.

(** X11.  On a running page, that is after [initializePaper] and any
    sequence of grid operations, [createPolygon] and [clearPolygons] calls,
    loads, wheel turns and drags, every stored vertex can be read, and
    whatever is done next returns: no TypeError leaves
    [updatePolygonPositions] or a grid method. *)
Theorem running_page_never_throws :
  forall (viewWidth viewHeight : num) (input : string) (acts : list (action num))
         (a : action num),
    let s := performs acts (Viewer.initializePaper viewWidth viewHeight input) in
    well_formed s /\ perform a s = Normal (state_of (perform a s)).
Proof.
  intros viewWidth viewHeight input acts a s.
  assert (W : well_formed s)
    by apply performs_well_formed, initializePaper_well_formed.
  split; [exact W | now apply perform_well_formed].
Qed.

(** X12.  On a running page, the tile-size input keeping its text,
    every polygon is in its place: it has one segment for each of its world
    vertices, at (offsetX + x * scale, offsetY + y * scale) for the transform
    of the current grid dimensions and tile size. *)
Theorem polygons_stay_in_place :
  forall (viewWidth viewHeight : num) (input : string) (acts : list (action num)),
    in_place (performs acts (Viewer.initializePaper viewWidth viewHeight input)).
Proof.
  intros viewWidth viewHeight input acts.
  assert (G : forall s, well_formed s -> in_place s -> in_place (performs acts s)).
  { induction acts as [|a acts IH]; intros s W I; [exact I|].
    apply IH; [now apply perform_well_formed | now apply perform_in_place]. }
  apply G; [apply initializePaper_well_formed | constructor].
Qed.

(** X13.  Whatever the segments were before, on a page whose stored
    vertices can all be read, [addColumn], [addRow],
    [updatePolygonPositions], and [removeColumn] and [removeRow] above the
    floor of one, return and leave every polygon in its place for the
    dimensions and the tile size of the page as they are then. *)
Theorem grid_change_places_polygons :
  forall (op : grid_operation num) s,
    well_formed s ->
    reprojects op s = true ->
    run op s = Normal (state_of (run op s))
    /\ in_place (state_of (run op s)).
Proof.
  intros op s W R. split.
  - now apply grid_methods_return.
  - apply run_in_place; [assumption | now right].
Qed.

(** X9.  A load changes the list of polygons and nothing else of the
    page, the record of calls apart: grid lines, background, dimensions,
    tile-size input, zoom and centre stay.  The viewer's loader and the
    appending loader keep the polygons that were there, in order, in front of
    the ones they add; the replacing loader does the same from the cleared
    page.  Each polygon added has vertices that can be read and one segment
    for each vertex, at the place the transform of the page gives it. *)
Theorem loads_only_add_polygons :
  forall (csv : string) s,
    grows s (fst (Viewer.loadCSV csv s))
    /\ grows s (fst (Editor.loadCSV_append csv s))
    /\ grows (Viewer.clearPolygons s) (fst (Editor.loadCSV_replace csv s)).
Proof.
  intros csv s. split; [apply viewer_load_grows|].
  split; apply load_lines_grows.
Qed.

(** X10.  After the appending loader the page holds the polygons it
    had, followed by exactly the polygons that the replacing loader leaves
    for the same text on the same page; and both report the same, the same
    counts or the same error. *)
Theorem append_is_old_then_replace :
  forall (csv : string) s,
    Viewer.polygonPaths (fst (Editor.loadCSV_append csv s))
    = Viewer.polygonPaths s ++ Viewer.polygonPaths (fst (Editor.loadCSV_replace csv s))
    /\ snd (Editor.loadCSV_append csv s) = snd (Editor.loadCSV_replace csv s).
Proof.
  intros csv s. unfold Editor.loadCSV_append, Editor.loadCSV_replace.
  rewrite !load_lines_spec. cbv zeta.
  destruct (_ <? 2)%nat; [cbn; now rewrite app_nil_r|].
  destruct (_ =? -1)%Z; [cbn; now rewrite app_nil_r|].
  cbn [fst snd].
  destruct (process_rows_prefix (Viewer.polygonPaths s)
              (List.length (Editor.header_of (Editor.lines_of csv)))
              (Editor.find_columns (Editor.header_of (Editor.lines_of csv)) 0 Editor.no_columns)
              (skipn 1 (Editor.lines_of csv)) (s := s) (s' := Viewer.clearPolygons s) no_counts)
    as [E R].
  - unfold same_page. cbn. auto 10.
  - cbn. now rewrite app_nil_r.
  - cbv zeta in E, R. split; [exact E | now rewrite R].
Qed.

(** X15.  Wheel turns and drags, in any number and order, change the
    zoom and the centre of the view and nothing else: the polygons with
    their segments, the grid lines, the background, the dimensions and the
    input stay, and no method of [window.paperFunctions] is called. *)
Theorem view_events_leave_the_scene :
  forall (acts : list (action num)) s,
    forallb view_event acts = true ->
    screen (performs acts s) = screen s
    /\ Viewer.gridColumns (performs acts s) = Viewer.gridColumns s
    /\ Viewer.gridRows (performs acts s) = Viewer.gridRows s
    /\ Viewer.tileSizeInput (performs acts s) = Viewer.tileSizeInput s
    /\ Viewer.calls (performs acts s) = Viewer.calls s.
Proof.
  induction acts as [|a acts IH]; intros s V; [now cbn|].
  cbn [forallb] in V. apply andb_true_iff in V as [Va V].
  change (performs (a :: acts) s) with (performs acts (state_of (perform a s))).
  destruct (IH (state_of (perform a s)) V) as (I1 & I2 & I3 & I4 & I5).
  rewrite I1, I2, I3, I4, I5. destruct a; try discriminate Va; now cbn.
Qed.

End RunningPages.

Lemma grid_change_places_polygons_witness :
  Viewer.addColumn stale_page = Normal (state_of (Viewer.addColumn stale_page))
  /\ in_place (state_of (Viewer.addColumn stale_page)).
Proof.
  apply (@grid_change_places_polygons binary64 _ AddColumn stale_page).
  - repeat constructor.
  - reflexivity.
Defined.

Lemma view_events_leave_the_scene_witness :
  let acts := [MouseWheel wheel_in; MouseDrag {| Viewer.x := of_Z 5; Viewer.y := of_Z (-7) |};
               MouseWheel wheel_out] in
  screen (performs acts page_with_triangle) = screen page_with_triangle
  /\ Viewer.gridColumns (performs acts page_with_triangle) = Viewer.gridColumns page_with_triangle
  /\ Viewer.gridRows (performs acts page_with_triangle) = Viewer.gridRows page_with_triangle
  /\ Viewer.tileSizeInput (performs acts page_with_triangle)
     = Viewer.tileSizeInput page_with_triangle
  /\ Viewer.calls (performs acts page_with_triangle) = Viewer.calls page_with_triangle.
Proof.
  intro acts. apply (@view_events_leave_the_scene binary64 _ acts page_with_triangle).
  reflexivity.
Defined.

(** ** Undoing a grid change *)

Section Undo.
Context {num : Type} `{Number num}.
Implicit Types (s : Viewer.State num) (p : Viewer.Path num) (t : Viewer.Transform num).

Lemma reproject_over t t' p :
  forallb not_null (Viewer.originalCoords p) = true ->
  fst (Viewer.reproject t (fst (Viewer.reproject t' p))) = fst (Viewer.reproject t p).
Proof.
  intros W. unfold Viewer.reproject.
  rewrite (add_points_placed t' _ W []).
  cbn [fst Viewer.originalCoords Viewer.fillColor Viewer.strokeColor Viewer.strokeWidth
       Viewer.closed].
  rewrite (add_points_placed t _ W []). cbn [fst].
  destruct (Viewer.fillColor p), (Viewer.strokeColor p),
    (Viewer.truthy (Viewer.strokeWidth p)) eqn:T; cbn; rewrite ?T; reflexivity.
Qed.

Lemma reproject_all_map t (ps : list (Viewer.Path num)) :
  Forall (fun l => forallb not_null l = true) (map (@Viewer.originalCoords num) ps) ->
  fst (Viewer.reproject_all t ps) = map (fun p => fst (Viewer.reproject t p)) ps.
Proof.
  induction ps as [|p ps IH]; intros W; [reflexivity|].
  inversion W as [|l ls Hp Hps]; subst. cbn [Viewer.reproject_all map].
  pose proof (reproject_finishes t p) as F. rewrite Hp in F.
  destruct (Viewer.reproject t p) as [p' fin]. cbn [fst snd] in *. subst fin.
  specialize (IH Hps). destruct (Viewer.reproject_all t ps) as [ps' fin'].
  cbn [fst] in *. now rewrite IH.
Qed.

Lemma reproject_all_over t t' (ps : list (Viewer.Path num)) :
  Forall (fun l => forallb not_null l = true) (map (@Viewer.originalCoords num) ps) ->
  fst (Viewer.reproject_all t (fst (Viewer.reproject_all t' ps)))
  = fst (Viewer.reproject_all t ps).
Proof.
  intros W. rewrite (reproject_all_map t' ps W), (reproject_all_map t ps W).
  rewrite reproject_all_map.
  - rewrite map_map. apply map_ext_in. intros p Hp. apply reproject_over.
    rewrite Forall_map, Forall_forall in W. now apply W.
  - pose proof (sound_well_formed (reproject_all_sound t' ps W)) as S.
    now rewrite (reproject_all_map t' ps W) in S.
Qed.

(** What a redraw shows is decided by the dimensions, the input and the
    stored polygons. *)
Lemma redraw_screen s :
  screen (state_of (Viewer.redraw s))
  = (fst (Viewer.reproject_all (layout s) (Viewer.polygonPaths s)),
     Viewer.gridLines (Viewer.drawGrid (Viewer.tileSize_of_input s) s),
     Viewer.gridBackground (Viewer.drawGrid (Viewer.tileSize_of_input s) s)).
Proof. unfold Viewer.redraw. rewrite updatePolygonPositions_state. reflexivity. Qed.

Lemma redraw_again (c r : Z) (s0 s : Viewer.State num) :
  well_formed s ->
  Viewer.tileSizeInput s0 = Viewer.tileSizeInput s ->
  Viewer.polygonPaths s0
  = fst (Viewer.reproject_all (layout s0) (Viewer.polygonPaths s)) ->
  screen (state_of (Viewer.redraw (Viewer.with_dimensions c r s0)))
  = screen (state_of (Viewer.redraw (Viewer.with_dimensions c r s))).
Proof.
  intros W I P. rewrite !redraw_screen.
  unfold layout, Viewer.drawGrid, Viewer.tileSize_of_input.
  cbn [Viewer.gridColumns Viewer.gridRows Viewer.tileSizeInput Viewer.polygonPaths
       Viewer.with_dimensions Viewer.record_call Viewer.with_grid Viewer.gridLines
       Viewer.gridBackground].
  rewrite I, P. now rewrite reproject_all_over.
Qed.

(** X14.  On a page with readable vertices and at least one column and
    one row, removing the column just added, or the row just added, gives
    back the dimensions and shows exactly what a redraw of the page as it
    was shows: the same polygons with the same segments, the same grid lines
    and background. *)
Theorem add_then_remove_restores :
  forall s,
    well_formed s -> grid_ok s ->
    let columns_back := state_of (Viewer.removeColumn (state_of (Viewer.addColumn s))) in
    let rows_back := state_of (Viewer.removeRow (state_of (Viewer.addRow s))) in
    screen columns_back = screen (state_of (Viewer.redraw s))
    /\ screen rows_back = screen (state_of (Viewer.redraw s))
    /\ Viewer.gridColumns columns_back = Viewer.gridColumns s
    /\ Viewer.gridRows columns_back = Viewer.gridRows s
    /\ Viewer.gridColumns rows_back = Viewer.gridColumns s
    /\ Viewer.gridRows rows_back = Viewer.gridRows s.
Proof.
  intros s W [Hc Hr] columns_back rows_back.
  assert (S : Viewer.with_dimensions (Viewer.gridColumns s) (Viewer.gridRows s) s = s)
    by now destruct s.
  assert (A : forall c r,
             let s1 := state_of (Viewer.redraw (Viewer.with_dimensions c r s)) in
             Viewer.gridColumns s1 = c /\ Viewer.gridRows s1 = r
             /\ Viewer.tileSizeInput s1 = Viewer.tileSizeInput s
             /\ Viewer.polygonPaths s1
                = fst (Viewer.reproject_all (layout s1) (Viewer.polygonPaths s))).
  { intros c r s1. subst s1. unfold Viewer.redraw. rewrite updatePolygonPositions_state.
    repeat apply conj; reflexivity. }
  subst columns_back rows_back. unfold Viewer.addColumn, Viewer.removeColumn,
    Viewer.addRow, Viewer.removeRow.
  destruct (A (Viewer.gridColumns s + 1)%Z (Viewer.gridRows s)) as (C1 & R1 & I1 & P1).
  destruct (A (Viewer.gridColumns s) (Viewer.gridRows s + 1)%Z) as (C2 & R2 & I2 & P2).
  cbv zeta in *. rewrite C1, R1, C2, R2.
  replace (1 <? Viewer.gridColumns s + 1)%Z with true by (symmetry; apply Z.ltb_lt; lia).
  replace (1 <? Viewer.gridRows s + 1)%Z with true by (symmetry; apply Z.ltb_lt; lia).
  replace (Viewer.gridColumns s + 1 - 1)%Z with (Viewer.gridColumns s) by lia.
  replace (Viewer.gridRows s + 1 - 1)%Z with (Viewer.gridRows s) by lia.
  rewrite (redraw_again _ _ _ W I1 P1), (redraw_again _ _ _ W I2 P2), S.
  repeat apply conj; try reflexivity;
    match goal with
    | |- _ (state_of (Viewer.redraw ?x)) = _ =>
        destruct (redraw_dimensions x) as [D1 D2]; rewrite ?D1, ?D2; reflexivity
    end.
Qed.

End Undo.

Lemma add_then_remove_restores_witness :
  let columns_back :=
    state_of (Viewer.removeColumn (state_of (Viewer.addColumn page_with_triangle))) in
  let rows_back :=
    state_of (Viewer.removeRow (state_of (Viewer.addRow page_with_triangle))) in
  screen columns_back = screen (state_of (Viewer.redraw page_with_triangle))
  /\ screen rows_back = screen (state_of (Viewer.redraw page_with_triangle))
  /\ Viewer.gridColumns columns_back = Viewer.gridColumns page_with_triangle
  /\ Viewer.gridRows columns_back = Viewer.gridRows page_with_triangle
  /\ Viewer.gridColumns rows_back = Viewer.gridColumns page_with_triangle
  /\ Viewer.gridRows rows_back = Viewer.gridRows page_with_triangle.
Proof.
  apply (@add_then_remove_restores binary64 _ page_with_triangle).
  - repeat constructor.
  - split; vm_compute; discriminate.
Defined.

(** ** The canvas, the tile size and the wheel in exact arithmetic *)

Section ExactCanvas.
Local Open Scope Q_scope.

Lemma is_zero_inject_Z (c : Z) : (1 <= c)%Z -> Exact.is_zero (inject_Z c) = false.
Proof. intros Hc. unfold Exact.is_zero, inject_Z. cbn [Qnum]. apply Z.eqb_neq. lia. Qed.

Lemma inject_Z_pos (c : Z) : (1 <= c)%Z -> 1 <= inject_Z c.
Proof. intros Hc. change 1 with (inject_Z 1). now rewrite <- Zle_Qle. Qed.

(** The background lies on the canvas. *)
Lemma exact_background (c r : Z) (q : Q) :
  (1 <= c)%Z -> (1 <= r)%Z -> 0 < q ->
  exists sc dw dh ox oy : Q,
    Viewer.transform (num:=exact) c r (EFin q)
    = {| Viewer.scale := EFin sc; Viewer.displayWidth := EFin dw;
         Viewer.displayHeight := EFin dh;
         Viewer.offsetX := EFin ox; Viewer.offsetY := EFin oy |}
    /\ 0 < sc
    /\ dw == inject_Z c * q * sc /\ dh == inject_Z r * q * sc
    /\ 0 <= dw /\ 0 <= dh
    /\ 0 <= ox /\ ox + dw <= 900 /\ 0 <= oy /\ oy + dh <= 600.
Proof.
  intros Hc Hr Hq.
  destruct (exact_transform Hc Hr Hq)
    as (sc & dw & dh & ox & oy & T & Hsc & Hdw & Hdh & Wdw & Wdh & _ & Hox & Hoy).
  exists sc, dw, dh, ox, oy. split; [exact T|].
  pose proof (inject_Z_pos Hc) as Pc. pose proof (inject_Z_pos Hr) as Pr.
  assert (Ha : 0 < inject_Z c * q) by (apply Qmult_lt_0_compat; lra).
  assert (Hb : 0 < inject_Z r * q) by (apply Qmult_lt_0_compat; lra).
  assert (Psc : 0 < sc).
  { rewrite Hsc. apply Q.min_glb_lt; apply Qlt_shift_div_l; lra. }
  assert (Pdw : 0 <= dw).
  { rewrite Hdw. apply Qlt_le_weak.
    setoid_replace (sc * inject_Z c * q) with (sc * (inject_Z c * q)) by ring.
    now apply Qmult_lt_0_compat. }
  assert (Pdh : 0 <= dh).
  { rewrite Hdh. apply Qlt_le_weak.
    setoid_replace (sc * inject_Z r * q) with (sc * (inject_Z r * q)) by ring.
    now apply Qmult_lt_0_compat. }
  assert (Dw : dw == inject_Z c * q * sc) by (rewrite Hdw; ring).
  assert (Dh : dh == inject_Z r * q * sc) by (rewrite Hdh; ring).
  rewrite <- Dw in Hox. rewrite <- Dh in Hoy.
  assert (Hox' : 2 * ox == 900 - dw) by (rewrite Hox; field).
  assert (Hoy' : 2 * oy == 600 - dh) by (rewrite Hoy; field).
  repeat apply conj; try assumption; clear - Hox' Hoy' Wdw Wdh Pdw Pdh; lra.
Qed.

Lemma upto_bounds (n k : Z) : In k (Viewer.upto n) -> (0 <= k <= n)%Z.
Proof.
  unfold Viewer.upto. intros I. apply in_map_iff in I as (i & <- & I).
  apply in_seq in I. lia.
Qed.

Lemma length_upto (n : Z) : List.length (Viewer.upto n) = Z.to_nat (n + 1).
Proof. unfold Viewer.upto. now rewrite length_map, length_seq. Qed.

(** A share [k/c] of a length, [0 <= k <= c], is within the length. *)
Lemma share_bounds (k c : Z) (d : Q) :
  (0 <= k <= c)%Z -> (1 <= c)%Z -> 0 <= d ->
  0 <= inject_Z k * (d / inject_Z c) /\ inject_Z k * (d / inject_Z c) <= d.
Proof.
  intros Hk Hc Hd. pose proof (inject_Z_pos Hc) as Pc.
  assert (Pk : 0 <= inject_Z k) by (change 0 with (inject_Z 0); rewrite <- Zle_Qle; lia).
  assert (Kc : inject_Z k <= inject_Z c) by (rewrite <- Zle_Qle; lia).
  assert (Pw : 0 <= d / inject_Z c) by (apply Qle_shift_div_l; lra).
  split.
  - now apply Qmult_le_0_compat.
  - setoid_replace d with (inject_Z c * (d / inject_Z c)) at 2 by (field; lra).
    now apply Qmult_le_compat_r.
Qed.

(** X16.  In exact arithmetic, for a grid of at least one column and
    one row and a tile size above 0, [drawGrid] draws columns + 1 vertical
    lines and rows + 1 horizontal ones, and both ends of every line lie on
    the 900 by 600 canvas. *)
Theorem grid_fits_the_canvas :
  forall (s : Viewer.State exact) (q : Q),
    grid_ok s -> 0 < q ->
    let s' := Viewer.drawGrid (EFin q) s in
    List.length (Viewer.gridLines s')
    = (Z.to_nat (Viewer.gridColumns s + 1) + Z.to_nat (Viewer.gridRows s + 1))%nat
    /\ Forall (fun l => on_canvas (Viewer.from l) /\ on_canvas (Viewer.to l))
              (Viewer.gridLines s').
Proof.
  intros s q [Hc Hr] Hq s'. subst s'. unfold Viewer.drawGrid.
  cbn [Viewer.gridLines Viewer.with_grid Viewer.gridColumns Viewer.gridRows Viewer.record_call].
  split; [now rewrite length_app, !length_map, !length_upto|].
  destruct (exact_background Hc Hr Hq)
    as (sc & dw & dh & ox & oy & T & Psc & Dw & Dh & Pdw & Pdh & Pox & Wox & Poy & Woy).
  rewrite T. cbn [Viewer.offsetX Viewer.offsetY Viewer.displayWidth Viewer.displayHeight].
  unfold of_Z. cbn [of_Q add mul div exact_number Exact.add Exact.mul Exact.div].
  rewrite (is_zero_inject_Z Hc), (is_zero_inject_Z Hr).
  cbn [Exact.mul Exact.add].
  apply Forall_app. split; apply Forall_map, Forall_forall; intros k Hk;
    apply upto_bounds in Hk; unfold on_canvas, between;
    cbn [Viewer.from Viewer.to Viewer.x Viewer.y].
  - destruct (share_bounds Hk Hc Pdw) as [L U]. repeat apply conj; lra.
  - destruct (share_bounds Hk Hr Pdh) as [L U]. repeat apply conj; lra.
Qed.

(** X17.  In exact arithmetic, for a grid of c >= 1 columns and
    r >= 1 rows of tiles of size t > 0, a vertex (x, y) of the world
    rectangle, 0 <= x <= c * t and 0 <= y <= r * t, is projected to a point
    of the 900 by 600 canvas. *)
Theorem world_vertices_land_on_the_canvas :
  forall (c r : Z) (q wx wy : Q),
    (1 <= c)%Z -> (1 <= r)%Z -> 0 < q ->
    0 <= wx <= inject_Z c * q -> 0 <= wy <= inject_Z r * q ->
    exists p, Viewer.project (Viewer.transform c r (EFin q)) (vertex (EFin wx) (EFin wy))
              = Some p
              /\ on_canvas p.
Proof.
  intros c r q wx wy Hc Hr Hq [Lx Ux] [Ly Uy].
  destruct (exact_background Hc Hr Hq)
    as (sc & dw & dh & ox & oy & T & Psc & Dw & Dh & Pdw & Pdh & Pox & Wox & Poy & Woy).
  rewrite T. eexists. split; [reflexivity|].
  unfold on_canvas, between. cbn.
  assert (0 <= wx * sc) by (apply Qmult_le_0_compat; lra).
  assert (0 <= wy * sc) by (apply Qmult_le_0_compat; lra).
  assert (wx * sc <= inject_Z c * q * sc) by (apply Qmult_le_compat_r; lra).
  assert (wy * sc <= inject_Z r * q * sc) by (apply Qmult_le_compat_r; lra).
  repeat apply conj; lra.
Qed.

(** *** The tile size *)

Lemma exact_parseInt (text : string) :
  parseInt (num:=exact) text = ENaN \/ exists z : Z, parseInt text = EFin (inject_Z z).
Proof.
  unfold parseInt. destruct (split_sign (trimStart text)) as [sg s1].
  destruct (match s1 with
            | String "0" (String x r) =>
                if (Ascii.eqb x "x" || Ascii.eqb x "X")%bool then (16%Z, r) else (10%Z, s1)
            | _ => (10%Z, s1)
            end) as [radix s2].
  destruct (digits radix s2 0 0) as [[v n] rest].
  destruct n; [now left | right].
  destruct sg; [exists (- v)%Z | exists v]; reflexivity.
Qed.

Lemma exact_tileSize (s : Viewer.State exact) :
  exists z : Z, z <> 0%Z /\ Viewer.tileSize_of_input s = EFin (inject_Z z).
Proof.
  unfold Viewer.tileSize_of_input, or_default.
  destruct (exact_parseInt (Viewer.tileSizeInput s)) as [-> | [z ->]].
  - exists 300%Z. split; [discriminate | reflexivity].
  - cbn [isNaN eqb exact_number Exact.isNaN Exact.eqb orb of_Z of_Q].
    destruct (Qeq_bool (inject_Z z) (inject_Z 0)) eqn:E.
    + exists 300%Z. split; [discriminate | reflexivity].
    + exists z. split; [|reflexivity]. intros ->. discriminate E.
Qed.

Lemma exact_transform_finite (c r z : Z) :
  (1 <= c)%Z -> (1 <= r)%Z -> z <> 0%Z ->
  finite_transform (Viewer.transform c r (EFin (inject_Z z))).
Proof.
  intros Hc Hr Hz.
  assert (N : forall k : Z, k <> 0%Z -> Exact.is_zero (inject_Z k * inject_Z z) = false).
  { intros k Hk. unfold Exact.is_zero. cbn. apply Z.eqb_neq. nia. }
  unfold finite_transform, Viewer.transform, Viewer.canvasWidth, Viewer.canvasHeight, of_Z.
  cbn [of_Q mul div sub min exact_number Exact.mul Exact.div Exact.sub Exact.add Exact.neg].
  rewrite !N by lia.
  unfold Exact.min. cbn [Exact.isNaN orb Exact.leb].
  destruct (Qle_bool _ _); cbn [Exact.mul Exact.add Exact.neg Exact.div];
    change (Exact.is_zero (inject_Z 2)) with false; cbv iota;
    eexists _, _, _, _, _; reflexivity.
Qed.

(** X18.  The tile size that [createPolygon], [updatePolygonPositions]
    and the grid methods read from the input is never zero and never NaN.
    In exact arithmetic it is a non-zero integer (300 when the input is no
    number or 0), and the transform of a grid with at least one column and
    one row has no NaN and no infinity in it: nothing divides by zero.  On
    the doubles it is a truthy number. *)
Theorem tile_size_is_never_zero :
  forall (s : Viewer.State exact) (s64 : Viewer.State binary64),
    grid_ok s ->
    (exists z : Z, z <> 0%Z /\ Viewer.tileSize_of_input s = EFin (inject_Z z))
    /\ finite_transform (layout s)
    /\ Viewer.truthy (Viewer.tileSize_of_input s64) = true.
Proof.
  intros s s64 [Hc Hr]. split; [apply exact_tileSize|]. split.
  - unfold layout. destruct (exact_tileSize s) as (z & Hz & ->).
    now apply exact_transform_finite.
  - unfold Viewer.tileSize_of_input, or_default, Viewer.truthy.
    destruct (isNaN (parseInt (Viewer.tileSizeInput s64))
              || (parseInt (Viewer.tileSizeInput s64) =? of_Z 0)%js)%bool eqn:E.
    + vm_compute. reflexivity.
    + now rewrite E.
Qed.

(** *** The wheel *)

Lemma exact_next_zoom (d : exact) (z : Q) :
  exists z' : Q, Viewer.next_zoom d (EFin z) = EFin z' /\ 5 # 100 <= z' /\ z' <= 20.
Proof.
  unfold Viewer.next_zoom, of_Z.
  cbn [of_Q mul min max ltb exact_number Exact.mul].
  assert (B : forall m : Q,
             exists z' : Q,
               Exact.max (EFin (5 # 100)) (Exact.min (EFin (inject_Z 20)) (EFin m)) = EFin z'
               /\ 5 # 100 <= z' /\ z' <= 20).
  { intros m. unfold Exact.min, Exact.max. cbn [Exact.isNaN orb Exact.leb].
    destruct (Qle_bool m (inject_Z 20)) eqn:A; cbn [Exact.isNaN orb Exact.leb].
    - destruct (Qle_bool (5 # 100) m) eqn:L.
      + exists m. apply Qle_bool_iff in A, L. change (inject_Z 20) with 20 in A.
        repeat apply conj; [reflexivity | lra | lra].
      + exists (5 # 100). repeat apply conj; [reflexivity | lra | lra].
    - change (Qle_bool (5 # 100) (inject_Z 20)) with true. cbv iota.
      exists (inject_Z 20). repeat apply conj; [reflexivity | |]; change (inject_Z 20) with 20; lra. }
  destruct (Exact.ltb d (EFin (inject_Z 0))); apply B.
Qed.

(** X19.  In exact arithmetic, with a finite zoom, centre and cursor
    position, a wheel event leaves a zoom within [0.05, 20] and moves the
    centre so that the cursor keeps its offset from the centre in view
    pixels: (cursor - centre') * zoom' = (cursor - centre) * zoom in both
    coordinates.  The point under the cursor stays under it. *)
Theorem wheel_keeps_the_cursor_point :
  forall (s : Viewer.State exact) (e : Viewer.WheelEvent exact) (z cx cy mx my : Q),
    Viewer.zoom s = EFin z ->
    Viewer.center s = {| Viewer.x := EFin cx; Viewer.y := EFin cy |} ->
    Viewer.mousePosition e = {| Viewer.x := EFin mx; Viewer.y := EFin my |} ->
    exists z' cx' cy' : Q,
      Viewer.zoom (Viewer.onMouseWheel e s) = EFin z'
      /\ Viewer.center (Viewer.onMouseWheel e s)
         = {| Viewer.x := EFin cx'; Viewer.y := EFin cy' |}
      /\ 5 # 100 <= z' /\ z' <= 20
      /\ (mx - cx') * z' == (mx - cx) * z
      /\ (my - cy') * z' == (my - cy) * z.
Proof.
  intros s e z cx cy mx my Hz Hc Hm.
  unfold Viewer.onMouseWheel. cbn [Viewer.zoom Viewer.center Viewer.with_view].
  rewrite Hz, Hc, Hm.
  destruct (exact_next_zoom (Viewer.delta e) z) as (z' & -> & Lo & Hi).
  assert (N : Exact.is_zero z' = false) by (apply is_zero_false; lra).
  unfold Viewer.point_sub, Viewer.point_mul.
  cbn [Viewer.x Viewer.y sub mul div exact_number Exact.sub Exact.mul Exact.div
       Exact.add Exact.neg].
  rewrite N. cbn [Exact.mul Exact.add Exact.neg].
  eexists _, _, _. split; [reflexivity|]. split; [reflexivity|].
  repeat apply conj; try assumption; field; lra.
Qed.

End ExactCanvas.

Lemma grid_fits_the_canvas_witness :
  List.length (Viewer.gridLines (Viewer.drawGrid (EFin 300) (exact_page "300")))
  = (Z.to_nat (4 + 1) + Z.to_nat (3 + 1))%nat
  /\ Forall (fun l => on_canvas (Viewer.from l) /\ on_canvas (Viewer.to l))
            (Viewer.gridLines (Viewer.drawGrid (EFin 300) (exact_page "300"))).
Proof.
  apply (@grid_fits_the_canvas (exact_page "300") 300).
  - split; vm_compute; discriminate.
  - reflexivity.
Defined.

Lemma world_vertices_land_on_the_canvas_witness :
  exists p, Viewer.project (Viewer.transform 4 3 (EFin 300)) (vertex (EFin 1200) (EFin 450))
            = Some p
            /\ on_canvas p.
Proof.
  apply (@world_vertices_land_on_the_canvas 4 3 300 1200 450).
  - lia.
  - lia.
  - reflexivity.
  - split; vm_compute; discriminate.
  - split; vm_compute; discriminate.
Defined.

Lemma tile_size_is_never_zero_witness :
  (exists z : Z, z <> 0%Z /\ Viewer.tileSize_of_input (exact_page "0") = EFin (inject_Z z))
  /\ finite_transform (layout (exact_page "0"))
  /\ Viewer.truthy (Viewer.tileSize_of_input page) = true.
Proof.
  apply (@tile_size_is_never_zero (exact_page "0") page).
  split; vm_compute; discriminate.
Defined.

Lemma wheel_keeps_the_cursor_point_witness :
  exists z' cx' cy' : Q,
    Viewer.zoom (Viewer.onMouseWheel (exact_wheel (EFin (-3))) zoomed_page) = EFin z'
    /\ Viewer.center (Viewer.onMouseWheel (exact_wheel (EFin (-3))) zoomed_page)
       = {| Viewer.x := EFin cx'; Viewer.y := EFin cy' |}
    /\ (5 # 100 <= z')%Q /\ (z' <= 20)%Q
    /\ ((100 - cx') * z' == (100 - 400) * (3 # 2))%Q
    /\ ((50 - cy') * z' == (50 - 250) * (3 # 2))%Q.
Proof.
  apply (@wheel_keeps_the_cursor_point zoomed_page (exact_wheel (EFin (-3)))
           (3 # 2) 400 250 100 50); reflexivity.
Defined.

(** ** The colours of the schema loaders, on the doubles *)

Lemma normalize_not_black (rgb : binary64 * binary64 * binary64) :
  all_zero (Editor.normalize rgb) = false.
Proof.
  destruct rgb as [[r g] b]. unfold Editor.normalize.
  destruct ((r <=? of_Z 1)%js && (g <=? of_Z 1)%js && (b <=? of_Z 1)%js)%bool.
  - destruct ((floor (r * of_Z 255)%js =? of_Z 0)%js
              && (floor (g * of_Z 255)%js =? of_Z 0)%js
              && (floor (b * of_Z 255)%js =? of_Z 0)%js)%bool eqn:E.
    + vm_compute. reflexivity.
    + exact E.
  - destruct ((r =? of_Z 0)%js && (g =? of_Z 0)%js && (b =? of_Z 0)%js)%bool eqn:E.
    + vm_compute. reflexivity.
    + exact E.
Qed.

Lemma channel_missing (row : list string) :
  Editor.channel (num:=binary64) row (-1) = of_Z 0.
Proof. unfold Editor.channel, Editor.item. cbn [Z.ltb Z.compare]. vm_compute. reflexivity. Qed.

(** X7.  On the doubles, the channels that the schema loaders pass to
    [createPolygon] are never all zero; and when the header names no colour
    column, every polygon that a data line creates is filled white. *)
Theorem schema_colours_default_to_white :
  forall (hl : nat) (cols : Editor.Columns) (line : string)
         (s : Viewer.State binary64) (c : Editor.Counts)
         (rgb : binary64 * binary64 * binary64),
    Editor.colorRIndex cols = (-1)%Z ->
    Editor.colorGIndex cols = (-1)%Z ->
    Editor.colorBIndex cols = (-1)%Z ->
    all_zero (Editor.normalize rgb) = false
    /\ map (@Viewer.fillColor binary64)
           (Viewer.polygonPaths (fst (Editor.process_row hl cols line (s, c))))
       = map (@Viewer.fillColor binary64) (Viewer.polygonPaths s)
         ++ (if accepted (row_outcome (num:=binary64) hl cols line)
             then [Some white_fill] else []).
Proof.
  intros hl cols line s c rgb Hr Hg Hb. split; [apply normalize_not_black|].
  rewrite process_row_fill. cbv zeta. rewrite Hr, Hg, Hb, !channel_missing.
  reflexivity.
Qed.

Lemma schema_colours_default_to_white_witness :
  all_zero (Editor.normalize (of_Q (1 # 1000), of_Z 0, of_Z 0 : binary64)) = false
  /\ map (@Viewer.fillColor binary64)
         (Viewer.polygonPaths
            (fst (Editor.process_row 1 coordinates_only
                    (quoted "[(0,0),(300,0),(300,300)]") (page, no_counts))))
     = map (@Viewer.fillColor binary64) (Viewer.polygonPaths page)
       ++ (if accepted (row_outcome (num:=binary64) 1 coordinates_only
                          (quoted "[(0,0),(300,0),(300,300)]"))
           then [Some white_fill] else []).
Proof.
  apply (@schema_colours_default_to_white 1 coordinates_only
           (quoted "[(0,0),(300,0),(300,300)]") page no_counts
           (of_Q (1 # 1000), of_Z 0, of_Z 0)); reflexivity.
Defined.

(** ** Files with no data line *)

Section ShortFiles.
Context {num : Type} `{Number num}.

Lemma split_single (sep : ascii) (text : string) :
  mentions sep text = false -> split sep text = [text].
Proof.
  induction text as [|c r IH]; cbn [mentions split]; intro M; [reflexivity|].
  apply orb_false_iff in M as [Mc Mr]. now rewrite Mc, (IH Mr).
Qed.

Lemma split_several (sep : ascii) (text : string) :
  mentions sep text = true -> (2 <= List.length (split sep text))%nat.
Proof.
  induction text as [|c r IH]; cbn [mentions split]; intro M; [discriminate|].
  destruct (Ascii.eqb c sep).
  - pose proof (@split_not_empty sep r) as N. cbn [List.length].
    destruct (split sep r); [contradiction | cbn [List.length]; lia].
  - specialize (IH M). destruct (split sep r); cbn [List.length] in *; lia.
Qed.

(** X6.  A text with no line feed left after trimming (an empty file,
    a header alone, a header followed by blank lines) makes both schema
    loaders stop with 'Not enough lines': the appending loader leaves the
    page as it is, the replacing loader has cleared the polygons by then.  A
    text with a line feed left after trimming never ends that way. *)
Theorem file_without_data_lines :
  forall (csv : string) (s : Viewer.State num),
    mentions "010" (trim csv) = false ->
    Editor.loadCSV_append csv s = (s, Editor.NotEnoughLines)
    /\ Editor.loadCSV_replace csv s = (Viewer.clearPolygons s, Editor.NotEnoughLines)
    /\ (forall other : string,
           mentions "010" (trim other) = true ->
           snd (Editor.loadCSV_append other s) <> Editor.NotEnoughLines
           /\ snd (Editor.loadCSV_replace other s) <> Editor.NotEnoughLines).
Proof.
  intros csv s M.
  assert (A : forall s0 : Viewer.State num,
             Editor.load_lines csv s0 = (s0, Editor.NotEnoughLines)).
  { intros s0. rewrite load_lines_spec. cbv zeta. unfold Editor.lines_of.
    now rewrite (split_single _ _ M). }
  split; [apply A|]. split; [apply A|].
  intros other M'.
  assert (B : forall s0 : Viewer.State num,
             snd (Editor.load_lines other s0) <> Editor.NotEnoughLines).
  { intros s0. rewrite load_lines_spec. cbv zeta. unfold Editor.lines_of.
    pose proof (split_several _ _ M') as L.
    destruct (_ <? 2)%nat eqn:E; [apply Nat.ltb_lt in E; lia|].
    destruct (_ =? -1)%Z; discriminate. }
  split; apply B.
Qed.

(** ** The vertices of the viewer's loader *)

Lemma kept_pair_pairs (a b : string) :
  Forall number_pair (kept_pair (num:=num) a b)
  /\ (List.length (kept_pair (num:=num) a b) <= 1)%nat.
Proof.
  unfold kept_pair.
  destruct (isNaN (parseFloat (trim a))) eqn:Ea; [split; [constructor | cbn; lia]|].
  destruct (isNaN (parseFloat (trim b))) eqn:Eb; [split; [constructor | cbn; lia]|].
  cbn [negb andb]. split; [|cbn; lia].
  constructor; [|constructor]. now exists (parseFloat (trim a)), (parseFloat (trim b)).
Qed.

Lemma coordinate_pairs_pairs (l : list string) :
  (Forall number_pair (Viewer.coordinate_pairs (num:=num) l)
   /\ (2 * List.length (Viewer.coordinate_pairs (num:=num) l) <= List.length l)%nat)
  /\ forall a : string,
      Forall number_pair (Viewer.coordinate_pairs (num:=num) (a :: l))
      /\ (2 * List.length (Viewer.coordinate_pairs (num:=num) (a :: l))
          <= List.length (a :: l))%nat.
Proof.
  induction l as [|b l [IH0 IH1]].
  - split; [split; [constructor | cbn; lia]|]. intros a. split; [constructor | cbn; lia].
  - split; [apply IH1|]. intros a. rewrite coordinate_pairs_cons.
    destruct (kept_pair_pairs a b) as [Pk Lk]. destruct (IH0) as [P0 L0].
    split; [now apply Forall_app|].
    rewrite length_app. cbn [List.length]. lia.
Qed.

(** X8.  Every vertex that the viewer's loader reads off the first
    field of a row is an array of two numbers, neither of them NaN, and
    there are at most half as many vertices as the field has parts between
    commas. *)
Theorem viewer_vertices_are_number_pairs :
  forall (polygonStr : string),
    Forall number_pair (row_coords (num:=num) polygonStr)
    /\ (2 * List.length (row_coords (num:=num) polygonStr)
        <= List.length (split "," (remove_chars Viewer.is_paren polygonStr)))%nat.
Proof. intros polygonStr. apply coordinate_pairs_pairs. Qed.

End ShortFiles.

Lemma file_without_data_lines_witness :
  Editor.loadCSV_append "coordinates,color_r" page_with_triangle
  = (page_with_triangle, Editor.NotEnoughLines)
  /\ Editor.loadCSV_replace "coordinates,color_r" page_with_triangle
     = (Viewer.clearPolygons page_with_triangle, Editor.NotEnoughLines)
  /\ (forall other : string,
         mentions "010" (trim other) = true ->
         snd (Editor.loadCSV_append other page_with_triangle) <> Editor.NotEnoughLines
         /\ snd (Editor.loadCSV_replace other page_with_triangle) <> Editor.NotEnoughLines).
Proof.
  apply (@file_without_data_lines binary64 _ "coordinates,color_r" page_with_triangle).
  reflexivity.
Defined.

(** ** The servo sweep *)

Section Sweep.
Local Open Scope Z_scope.

Lemma int_small (z : Z) : -32768 <= z < 32768 -> Knob.to_int z = z.
Proof. intros B. unfold Knob.to_int. rewrite Z.mod_small by lia. lia. Qed.

Lemma run_S (n : nat) : Knob.run (S n) = Knob.loop (Knob.run n).
Proof. reflexivity. Qed.

Lemma loop_sweeping (s : Knob.State) :
  sweeping s ->
  sweeping (Knob.loop s)
  /\ (Knob.ii (Knob.loop s) = Knob.ii s + 1 \/ Knob.ii (Knob.loop s) = Knob.ii s - 1)
  /\ exists added, Knob.effects (Knob.loop s) = Knob.effects s ++ added
                   /\ Forall sweep_effect added.
Proof.
  unfold sweeping, Knob.loop. intros [[F B] | [F B]]; rewrite F; cbn [Z.eqb Pos.eqb].
  - cbn [Knob.ii Knob.set_ii Knob.emit Knob.ford Knob.set_ford Knob.effects].
    rewrite int_small by lia.
    destruct (120 <? Knob.ii s + 1) eqn:E;
      cbn [Knob.ii Knob.set_ii Knob.emit Knob.ford Knob.set_ford Knob.effects].
    + apply Z.ltb_lt in E. split; [right; split; [reflexivity | lia]|].
      split; [now left|]. rewrite <- !app_assoc. eexists. split; [reflexivity|].
      repeat constructor; cbn; lia.
    + apply Z.ltb_ge in E. split; [left; split; [assumption | lia]|].
      split; [now left|]. rewrite <- !app_assoc. eexists. split; [reflexivity|].
      repeat constructor; cbn; lia.
  - cbn [Knob.ii Knob.set_ii Knob.emit Knob.ford Knob.set_ford Knob.effects].
    rewrite int_small by lia.
    destruct (Knob.ii s - 1 <? 80) eqn:E;
      cbn [Knob.ii Knob.set_ii Knob.emit Knob.ford Knob.set_ford Knob.effects].
    + apply Z.ltb_lt in E. split; [left; split; [reflexivity | lia]|].
      split; [now right|]. rewrite <- !app_assoc. eexists. split; [reflexivity|].
      repeat constructor; cbn; lia.
    + apply Z.ltb_ge in E. split; [right; split; [assumption | lia]|].
      split; [now right|]. rewrite <- !app_assoc. eexists. split; [reflexivity|].
      repeat constructor; cbn; lia.
Qed.

Lemma run_sweeping (n : nat) :
  sweeping (Knob.run n) /\ Forall sweep_effect (Knob.effects (Knob.run n)).
Proof.
  induction n as [|n [S E]].
  - split; [left; cbn; lia | repeat constructor; cbn; lia].
  - rewrite run_S.
    destruct (loop_sweeping S) as (S' & _ & added & -> & A).
    split; [exact S' | now apply Forall_app].
Qed.

(** X20.  After [setup] and any number of turns of [loop], the angle
    [ii] is between 79 and 121 and [ford] is 0 or 1; the next turn moves the
    angle by exactly one degree; every angle written to the servo so far is
    between 79 and 121, and the only number printed is 121. *)
Theorem sweep_stays_in_range :
  forall n : nat,
    79 <= Knob.ii (Knob.run n) <= 121
    /\ (Knob.ford (Knob.run n) = 0 \/ Knob.ford (Knob.run n) = 1)
    /\ (Knob.ii (Knob.run (S n)) = Knob.ii (Knob.run n) + 1
        \/ Knob.ii (Knob.run (S n)) = Knob.ii (Knob.run n) - 1)
    /\ Forall sweep_effect (Knob.effects (Knob.run n)).
Proof.
  intros n. destruct (run_sweeping n) as [S E].
  rewrite run_S.
  destruct (loop_sweeping S) as (_ & D & _).
  repeat apply conj; try assumption; destruct S as [[F B] | [F B]]; auto; lia.
Qed.

Lemma loop_same_turn (s s' : Knob.State) :
  Knob.ford s' = Knob.ford s -> Knob.ii s' = Knob.ii s ->
  Knob.ford (Knob.loop s') = Knob.ford (Knob.loop s)
  /\ Knob.ii (Knob.loop s') = Knob.ii (Knob.loop s).
Proof.
  intros F I. unfold Knob.loop. rewrite F.
  destruct (Knob.ford s =? 1);
    cbn [Knob.ii Knob.set_ii Knob.emit Knob.ford Knob.set_ford]; rewrite I.
  - destruct (120 <? Knob.to_int (Knob.ii s + 1)); now cbn.
  - destruct (Knob.to_int (Knob.ii s - 1) <? 80); now cbn.
Qed.

(** X21.  The sweep reaches 121 after 31 turns and 79 after 73, one
    degree beyond the thresholds 120 and 80 that the sketch compares with;
    from the 31st turn on, [ford] and [ii] repeat every 84 turns. *)
Theorem sweep_repeats :
  forall n : nat,
    Knob.ii (Knob.run 31) = 121
    /\ Knob.ii (Knob.run 73) = 79
    /\ Knob.ford (Knob.run (31 + n + 84)) = Knob.ford (Knob.run (31 + n))
    /\ Knob.ii (Knob.run (31 + n + 84)) = Knob.ii (Knob.run (31 + n)).
Proof.
  intros n. split; [vm_compute; reflexivity|]. split; [vm_compute; reflexivity|].
  induction n as [|n [F I]].
  - split; vm_compute; reflexivity.
  - replace (31 + S n + 84)%nat with (S (31 + n + 84)) by lia.
    replace (31 + S n)%nat with (S (31 + n)) by lia.
    rewrite !run_S. now apply loop_same_turn.
Qed.

End Sweep.
